(** * Model Element Resolution and Caching Engine

    A shallow embedding of the SysML v2 API helper modules
    ([mbse4u-sysmlv2/mbse4u_sysmlv2_api_helpers.py] and its older sibling
    [api/sysmod_api_helpers.py]) together with the properties of the element
    cache, the specialization walk, the metadata tag index and the feature
    value extractor.

    The Python helpers are dynamically typed functions over decoded JSON
    payloads which read and write one process wide dictionary
    ([ELEMENT_CACHE]) and talk to a remote server through [session].  They
    are embedded as functions in a state-and-exception monad over
    - the decoded JSON values ([json]),
    - the global element cache and the [functools.lru_cache] stores,
    - a trace of the requests sent and of the lines printed,
    with the remote server as an explicit parameter ([remote]). *)

From stdpp Require Import base option list strings gmap pretty.
From Stdlib Require Import ZArith.

Local Open Scope Z_scope.
Local Open Scope string_scope.
Local Set Warnings "-register-all".

(** ** Decoded JSON payloads *)

(** What [response.json()] yields.  A Python [dict] decoded from JSON has
    unique string keys; it is kept as the list of its items, and every read
    goes through [assoc], which takes the first item with the key.  JSON
    numbers are the integers (no payload field read by the helpers is
    computed with). *)
Inductive json : Type :=
| JNull
| JBool (b : bool)
| JInt (z : Z)
| JStr (s : string)
| JList (l : list json)
| JDict (d : list (string * json)).

Fixpoint assoc {A} (k : string) (d : list (string * A)) : option A :=
  match d with
  | [] => None
  | (k', v) :: d' => if String.eqb k' k then Some v else assoc k d'
  end.

(** Python truth value testing: [if x:]. *)
Definition truthy (x : json) : bool :=
  match x with
  | JNull => false
  | JBool b => b
  | JInt z => negb (Z.eqb z 0)
  | JStr s => match s with EmptyString => false | _ => true end
  | JList l => match l with [] => false | _ => true end
  | JDict d => match d with [] => false | _ => true end
  end.

(** Python [==] on decoded payloads: [True == 1], lists compare item by
    item, dicts compare as maps. *)
Fixpoint py_eq (x y : json) {struct x} : bool :=
  match x, y with
  | JNull, JNull => true
  | JBool a, JBool b => Bool.eqb a b
  | JBool a, JInt z => Z.eqb z (if a then 1 else 0)
  | JInt z, JBool a => Z.eqb z (if a then 1 else 0)
  | JInt a, JInt b => Z.eqb a b
  | JStr a, JStr b => String.eqb a b
  | JList a, JList b =>
      (fix items (a b : list json) {struct a} : bool :=
         match a, b with
         | [], [] => true
         | u :: a', v :: b' => py_eq u v && items a' b'
         | _, _ => false
         end) a b
  | JDict a, JDict b =>
      Nat.eqb (length a) (length b) &&
      (fix entries (a : list (string * json)) {struct a} : bool :=
         match a with
         | [] => true
         | (k, u) :: a' =>
             match assoc k b with
             | Some v => py_eq u v && entries a'
             | None => false
             end
         end) a
  | _, _ => false
  end.

(** Hashable payloads, as they key a [dict], a [set] or an [lru_cache]:
    [None], integers (with [True] and [False] hashing and comparing as [1]
    and [0]) and strings.  Lists and dicts are unhashable. *)
Inductive pykey : Type :=
| KNone
| KInt (z : Z)
| KStr (s : string).

Global Instance pykey_eq_dec : EqDecision pykey.
Proof. solve_decision. Defined.

Global Instance pykey_countable : Countable pykey.
Proof.
  refine (inj_countable'
    (λ k, match k with
          | KNone => inl ()
          | KInt z => inr (inl z)
          | KStr s => inr (inr s)
          end)
    (λ c, match c with
          | inl _ => KNone
          | inr (inl z) => KInt z
          | inr (inr s) => KStr s
          end) _).
  by intros [].
Defined.

Definition to_key (x : json) : option pykey :=
  match x with
  | JNull => Some KNone
  | JBool b => Some (KInt (if b then 1 else 0))
  | JInt z => Some (KInt z)
  | JStr s => Some (KStr s)
  | JList _ | JDict _ => None
  end.

(** ** Exceptions, remote server, global state *)

Inductive exn : Type :=
| TypeError
| AttributeError
| KeyError
| IndexError
| ValueError (what : string) (status : option (Z * string))
| JSONDecodeError
| RequestException.

(** What [session.get] and [session.post] do: raise, or hand back a
    response with its [status_code], its [text] and (when the text decodes)
    its [json()].  A [ValueError] raised on a non-success response carries
    the status code and the text of that response. *)
Inductive reply : Type :=
| ConnectionFailed
| Response (status_code : Z) (text : string) (body : option json).

(** The surroundings of one call: the remote server, and the interpreter's
    [repr] of a list or dict (it only ever reaches the text of a query). *)
Record remote : Type := Remote {
  http_get : string → reply;
  http_post : string → json → reply;
  py_repr : json → string
}.

Inductive event : Type :=
| SessionGet (url : string)
| SessionPost (url : string) (query_input : json)
| PrintError (e : exn)
| PrintHierarchyCheck (el_id : json).

(** [ELEMENT_CACHE]: commit url to (element id to element).  [element_lru]
    is the store of [@lru_cache(maxsize=2048)] around [get_element_fromAPI],
    [kind_lru] the one of [@lru_cache(maxsize=128)] around the sibling
    module's [get_elements_byKind_fromAPI]; both are kept most recently
    used first. *)
Record state : Type := State {
  ELEMENT_CACHE : gmap string (gmap pykey json);
  element_lru : list ((string * pykey) * json);
  kind_lru : list ((string * string * string * string) * json);
  trace : list event
}.

Definition initial : state :=
  {| ELEMENT_CACHE := ∅; element_lru := []; kind_lru := []; trace := [] |}.

Inductive outcome (A : Type) : Type :=
| Ret (a : A)
| Raise (e : exn)
| Unfinished.
Arguments Ret {A} a.
Arguments Raise {A} e.
Arguments Unfinished {A}.

Definition M (A : Type) : Type := state → outcome A * state.

Definition ret {A} (a : A) : M A := λ s, (Ret a, s).
Definition raise {A} (e : exn) : M A := λ s, (Raise e, s).
Definition bind {A B} (m : M A) (k : A → M B) : M B :=
  λ s, match m s with
       | (Ret a, s') => k a s'
       | (Raise e, s') => (Raise e, s')
       | (Unfinished, s') => (Unfinished, s')
       end.

Notation "'let*' x ':=' m 'in' k" := (bind m (λ x, k))
  (at level 10, x pattern, m at level 99, k at level 200,
   format "'[v' 'let*'  x  ':='  m  'in' '/' k ']'").
Notation "m ';;' k" := (bind m (λ _, k))
  (at level 100, k at level 200, right associativity).

(** [try: m  except Exception as e: h e]. *)
Definition try_except {A} (m : M A) (h : exn → M A) : M A :=
  λ s, match m s with
       | (Raise e, s') => h e s'
       | r => r
       end.

Definition with_trace (s : state) (evs : list event) : state :=
  {| ELEMENT_CACHE := ELEMENT_CACHE s; element_lru := element_lru s;
     kind_lru := kind_lru s; trace := trace s ++ evs |}.
Definition with_cache (s : state) (c : gmap string (gmap pykey json)) : state :=
  {| ELEMENT_CACHE := c; element_lru := element_lru s;
     kind_lru := kind_lru s; trace := trace s |}.
Definition with_element_lru (s : state) (l : list ((string * pykey) * json))
  : state :=
  {| ELEMENT_CACHE := ELEMENT_CACHE s; element_lru := l;
     kind_lru := kind_lru s; trace := trace s |}.
Definition with_kind_lru (s : state)
    (l : list ((string * string * string * string) * json)) : state :=
  {| ELEMENT_CACHE := ELEMENT_CACHE s; element_lru := element_lru s;
     kind_lru := l; trace := trace s |}.

Definition get_state : M state := λ s, (Ret s, s).
Definition emit (ev : event) : M unit := λ s, (Ret tt, with_trace s [ev]).
Definition set_cache (c : gmap string (gmap pykey json)) : M unit :=
  λ s, (Ret tt, with_cache s c).
Definition set_element_lru (l : list ((string * pykey) * json)) : M unit :=
  λ s, (Ret tt, with_element_lru s l).
Definition set_kind_lru
    (l : list ((string * string * string * string) * json)) : M unit :=
  λ s, (Ret tt, with_kind_lru s l).

Definition lift {A} (o : option A) (e : exn) : M A :=
  match o with Some a => ret a | None => raise e end.

(** ** The Python operations the helpers apply to payloads *)

(** [x.get(k, default)], an [AttributeError] on anything but a dict. *)
Definition py_get_default (x : json) (k : string) (default : json) : M json :=
  match x with
  | JDict d => ret (match assoc k d with Some v => v | None => default end)
  | _ => raise AttributeError
  end.
Definition py_get (x : json) (k : string) : M json := py_get_default x k JNull.

(** [x[k]] for a string [k]. *)
Definition py_item (x : json) (k : string) : M json :=
  match x with
  | JDict d => lift (assoc k d) KeyError
  | _ => raise TypeError
  end.

(** [x[0]]. *)
Definition py_first (x : json) : M json :=
  match x with
  | JList (v :: _) => ret v
  | JList [] => raise IndexError
  | JStr (String c _) => ret (JStr (String c EmptyString))
  | JStr EmptyString => raise IndexError
  | JDict _ => raise KeyError
  | _ => raise TypeError
  end.

(** [k in x] for a string [k]. *)
Definition py_contains (k : string) (x : json) : M bool :=
  match x with
  | JDict d => ret (bool_decide (is_Some (assoc k d)))
  | JList l => ret (existsb (py_eq (JStr k)) l)
  | JStr s => ret (bool_decide (is_Some (String.index 0 k s)))
  | _ => raise TypeError
  end.

(** [for item in x]: the items iterated over. *)
Definition py_iter (x : json) : M (list json) :=
  match x with
  | JList l => ret l
  | JDict d => ret (JStr <$> d.*1)
  | JStr s => ret ((λ c, JStr (String c EmptyString)) <$> String.list_ascii_of_string s)
  | _ => raise TypeError
  end.

(** [len(x)], evaluated for its exception only. *)
Definition py_len (x : json) : M unit :=
  match x with
  | JList _ | JDict _ | JStr _ => ret tt
  | _ => raise TypeError
  end.

Definition is_dict (x : json) : bool :=
  match x with JDict _ => true | _ => false end.

(** ** Transport *)

Definition session_get (w : remote) (url : string) : M reply :=
  emit (SessionGet url) ;;
  match http_get w url with
  | ConnectionFailed => raise RequestException
  | r => ret r
  end.

Definition session_post (w : remote) (url : string) (query_input : json)
  : M reply :=
  emit (SessionPost url query_input) ;;
  match http_post w url query_input with
  | ConnectionFailed => raise RequestException
  | r => ret r
  end.

Definition status_code (r : reply) : Z :=
  match r with Response c _ _ => c | ConnectionFailed => 0 end.
Definition text (r : reply) : string :=
  match r with Response _ t _ => t | ConnectionFailed => "" end.
Definition response_json (r : reply) : M json :=
  match r with
  | Response _ _ (Some j) => ret j
  | _ => raise JSONDecodeError
  end.

Definition get_commit_url (server_url project_id commit_id : string) : string :=
  server_url +:+ "/projects/" +:+ project_id +:+ "/commits/" +:+ commit_id.

(** [f"{x}"]. *)
Definition py_str (w : remote) (x : json) : string :=
  match x with
  | JStr s => s
  | JNull => "None"
  | JBool true => "True"
  | JBool false => "False"
  | JInt z => pretty z
  | JList _ | JDict _ => py_repr w x
  end.

(** [for x in l: acc = body acc x], for loops that build a list. *)
Fixpoint for_fold {A B} (l : list A) (acc : B) (body : B → A → M B) : M B :=
  match l with
  | [] => ret acc
  | x :: l' => let* acc' := body acc x in for_fold l' acc' body
  end.

(** [for x in l: ... return v ...]: the first iteration that returns ends
    the loop; [None] when the loop runs to its end. *)
Fixpoint for_return {A B} (l : list A) (body : A → M (option B))
  : M (option B) :=
  match l with
  | [] => ret None
  | x :: l' =>
      let* r := body x in
      match r with
      | Some v => ret (Some v)
      | None => for_return l' body
      end
  end.

(** ** [functools.lru_cache] *)

Definition lru_find {K A} `{EqDecision K} (key : K) (store : list (K * A))
  : option A :=
  snd <$> find (λ p, bool_decide (p.1 = key)) store.

Definition lru_drop {K A} `{EqDecision K} (key : K) (store : list (K * A))
  : list (K * A) :=
  filter (λ p, p.1 ≠ key) store.

(** A hit moves the entry to the front and does not run the call.  A miss
    runs the call; a result that is returned is stored at the front and the
    least recently used entry is dropped when the store is full; a raised
    exception stores nothing. *)
Definition lru_cache {K A} `{EqDecision K} (maxsize : nat)
    (store : state → list (K * A)) (set_store : list (K * A) → M unit)
    (key : K) (call : M A) : M A :=
  let* s := get_state in
  match lru_find key (store s) with
  | Some result =>
      set_store ((key, result) :: lru_drop key (store s)) ;;
      ret result
  | None =>
      let* result := call in
      let* s' := get_state in
      set_store (take maxsize ((key, result) :: store s')) ;;
      ret result
  end.

(** ** Code shared by the two helper modules *)

(** [if url not in cache: cache[url] = {}] and then
    [cache[url][k] = element]. *)
Definition cache_put (cache : gmap string (gmap pykey json))
    (query_url : string) (k : pykey) (element : json)
  : gmap string (gmap pykey json) :=
  <[query_url := <[k := element]> (default ∅ (cache !! query_url))]> cache.

(** [if isinstance(element, list): element = element[0] if element else None] *)
Definition first_if_list (element : json) : json :=
  match element with
  | JList (first :: _) => first
  | JList [] => JNull
  | _ => element
  end.

(** The body of [get_element_fromAPI] inside its [try]. *)
Definition fetch_element (w : remote) (query_url : string) (element_id : json)
  : M json :=
  let* s := get_state in
  let* cached_element :=
    match ELEMENT_CACHE s !! query_url with
    | Some entry =>
        let* k := lift (to_key element_id) TypeError in
        ret (default JNull (entry !! k))
    | None => ret JNull
    end in
  if truthy cached_element then ret cached_element
  else
    match element_id with
    | JStr i =>
        let url := query_url +:+ "/elements/" +:+ i in
        let* elements_response := session_get w url in
        if Z.eqb (status_code elements_response) 200 then
          let* element := response_json elements_response in
          let element := first_if_list element in
          (if truthy element then
             let* s := get_state in
             set_cache (cache_put (ELEMENT_CACHE s) query_url (KStr i) element)
           else ret tt) ;;
          ret element
        else ret JNull
    | _ => raise TypeError
    end.

(** The loop of [load_model_cache] that fills [cache_entry]. *)
Fixpoint populate (elements : list json) (cache_entry : gmap pykey json)
  : M (gmap pykey json) :=
  match elements with
  | [] => ret cache_entry
  | el :: rest =>
      let* has_id := py_contains "@id" el in
      if has_id : bool then
        let* id := py_item el "@id" in
        let* k := lift (to_key id) TypeError in
        populate rest (<[k := el]> cache_entry)
      else populate rest cache_entry
  end.

Definition load_model_cache_from (w : remote) (commit_url elements_url : string)
  : M nat :=
  let* response := session_get w elements_url in
  if negb (Z.eqb (status_code response) 200) then
    raise (ValueError "Failed to load elements for cache."
             (Some (status_code response, text response)))
  else
    let* elements := response_json response in
    py_len elements ;;
    match elements with
    | JList els =>
        let* cache_entry := populate els ∅ in
        let* s := get_state in
        set_cache (<[commit_url := cache_entry]> (ELEMENT_CACHE s)) ;;
        ret (size cache_entry)
    | _ => raise (ValueError "Expected list of elements" None)
    end.

Definition primitive_constraint (property : string) (value : string) : json :=
  JDict [("@type", JStr "Query");
         ("where", JDict [("@type", JStr "PrimitiveConstraint");
                          ("inverse", JBool false);
                          ("operator", JStr "=");
                          ("property", JStr property);
                          ("value", JList [JStr value])])].

Definition query_results_url (server_url project_id commit_id : string)
  : string :=
  server_url +:+ "/projects/" +:+ project_id
             +:+ "/query-results?commitId=" +:+ commit_id.

(** The body of [get_elements_byKind_fromAPI], [try] and [except]
    included. *)
Definition query_kind (w : remote) (server_url project_id commit_id : string)
    (kind : string) : M json :=
  let query_url := query_results_url server_url project_id commit_id in
  let query_input := primitive_constraint "@type" kind in
  try_except
    (let* query_response := session_post w query_url query_input in
     if Z.eqb (status_code query_response) 200 then
       response_json query_response
     else
       raise (ValueError "Failed to query kinds."
                (Some (status_code query_response, text query_response))))
    (λ e, emit (PrintError e) ;; ret (JList [])).

(** One usage's contribution in [get_metadatausage_annotatedElement_ids]:
    the ids to append under a key whose definition id matched. *)
Definition annotated_ids_of (item : json) : M (list json) :=
  let* annotated_elements := py_get_default item "annotatedElement" (JList []) in
  if truthy annotated_elements then
    match annotated_elements with
    | JList l =>
        for_fold l [] (λ acc annotated,
          let* annotated_id := py_get annotated "@id" in
          ret (if truthy annotated_id then (acc ++ [annotated_id])%list else acc))
    | JDict _ =>
        let* annotated_id := py_get annotated_elements "@id" in
        ret (if truthy annotated_id then [annotated_id] else [])
    | _ => ret []
    end
  else
    let* own := py_get item "@id" in
    ret [own].

(** The loops of [get_metadatausage_annotatedElement_ids] over the usages
    and over [metadefinition_dict.items()]. *)
Definition collect_annotated (metadata_usages : list json)
    (metadefinition_dict : list (string * json))
    (results : gmap string (list json)) : M (gmap string (list json)) :=
  for_fold metadata_usages results (λ results item,
    let* metadata := py_get item "metadataDefinition" in
    let* metadata_id :=
      if is_dict metadata then py_get metadata "@id" else ret (JStr "Unknown") in
    for_fold metadefinition_dict results (λ results entry,
      let '(key, metadefinition_id) := entry in
      if py_eq metadata_id metadefinition_id then
        let* ids := annotated_ids_of item in
        ret (<[key := (default [] (results !! key) ++ ids)%list]> results)
      else ret results)).

Definition empty_results (metadefinition_dict : list (string * json))
  : gmap string (list json) :=
  list_to_map ((λ entry, (entry.1, [])) <$> metadefinition_dict).

(** ** [api/sysmod_api_helpers.py] *)

Module Api.

(** The page size is fixed to 512 in the request. *)
Definition load_model_cache (w : remote)
    (server_url project_id commit_id : string) : M nat :=
  let commit_url := get_commit_url server_url project_id commit_id in
  let elements_url := commit_url +:+ "/elements?page%5Bsize%5D=512" in
  load_model_cache_from w commit_url elements_url.

(** No [lru_cache] here (the decorator is commented out), and the
    [except] clause prints and falls off the end: [None]. *)
Definition get_element_fromAPI (w : remote) (query_url : string)
    (element_id : json) : M json :=
  try_except (fetch_element w query_url element_id)
             (λ e, emit (PrintError e) ;; ret JNull).

(** [@lru_cache(maxsize=128)] around the query. *)
Definition get_elements_byKind_fromAPI (w : remote)
    (server_url project_id commit_id kind : string) : M json :=
  lru_cache 128 kind_lru set_kind_lru
    (server_url, project_id, commit_id, kind)
    (query_kind w server_url project_id commit_id kind).

Definition get_metadatausage_annotatedElement_ids (w : remote)
    (server_url project_id commit_id : string)
    (metadefinition_dict : list (string * json))
  : M (gmap string (list json)) :=
  let* metadata_usages :=
    get_elements_byKind_fromAPI w server_url project_id commit_id
      "MetadataUsage" in
  let* items := py_iter metadata_usages in
  collect_annotated items metadefinition_dict
    (empty_results metadefinition_dict).

(** The generator handed to [next] is run up to its first item; a short
    name without a match is mapped to [None]. *)
Definition get_metadata_ids_by_name (w : remote)
    (server_url project_id commit_id : string)
    (metadata_shortnames : list string) : M (gmap string json) :=
  let* metadata_definitions :=
    get_elements_byKind_fromAPI w server_url project_id commit_id
      "MetadataDefinition" in
  match metadata_definitions with
  | JList definitions =>
      for_fold metadata_shortnames ∅ (λ id_map shortName,
        let* matched_id :=
          for_return definitions (λ item,
            let* short := py_get item "declaredShortName" in
            if py_eq short (JStr shortName) then
              let* id := py_item item "@id" in ret (Some id)
            else ret None) in
        ret (<[shortName := default JNull matched_id]> id_map))
  | _ =>
      ret (<["error" := JStr "Unexpected response"]>
             (<["details" := metadata_definitions]> ∅))
  end.

End Api.

(** ** [mbse4u-sysmlv2/mbse4u_sysmlv2_api_helpers.py] *)

Module Mbse4u.

Definition load_model_cache (w : remote)
    (server_url project_id commit_id : string) (page_size : Z) : M nat :=
  let commit_url := get_commit_url server_url project_id commit_id in
  let elements_url :=
    commit_url +:+ "/elements?page%5Bsize%5D=" +:+ pretty page_size in
  load_model_cache_from w commit_url elements_url.

Definition get_elements_byKind_fromAPI (w : remote)
    (server_url project_id commit_id : string) (kind : json) : M json :=
  query_kind w server_url project_id commit_id (py_str w kind).

(** [@lru_cache(maxsize=2048)] around the fetch; the arguments are hashed
    before anything else, and the [except] clause prints and raises
    again. *)
Definition get_element_fromAPI (w : remote) (query_url : string)
    (element_id : json) : M json :=
  let* k := lift (to_key element_id) TypeError in
  lru_cache 2048 element_lru set_element_lru (query_url, k)
    (try_except (fetch_element w query_url element_id)
                (λ e, emit (PrintError e) ;; raise e)).

Definition get_elements_fromAPI (w : remote) (query_url : string)
    (element_ids : list json) : M (list json) :=
  for_fold element_ids [] (λ elements element_id,
    try_except
      (let* element_json := get_element_fromAPI w query_url element_id in
       match element_json with
       | JList l => ret (elements ++ l)%list
       | _ => ret (elements ++ [element_json])%list
       end)
      (λ e, emit (PrintError e) ;; ret elements)).

(** The innermost loop of [get_elements_byProperty_fromAPI]: does an
    owned relationship of [el] redefine an element whose [property] is
    [value]?  Every match appends [el] once more. *)
Definition redefinitions_of (w : remote) (commit_url : string)
    (property value : string) (el : json) (additional_elements : list json)
  : M (list json) :=
  let* owned := py_get_default el "ownedRelationship" (JList []) in
  let* relationshipIDs := py_iter owned in
  for_fold relationshipIDs additional_elements
    (λ additional_elements relationshipID,
      let* rid := py_item relationshipID "@id" in
      let* relationship := get_element_fromAPI w commit_url rid in
      let* rtype := py_get relationship "@type" in
      if py_eq rtype (JStr "Redefinition") then
        let* redefinedFeature := py_get relationship "redefinedFeature" in
        let* redefinedFeatureID := py_get redefinedFeature "@id" in
        let* redefinedElement :=
          get_element_fromAPI w commit_url redefinedFeatureID in
        let* found := py_get redefinedElement property in
        if py_eq found (JStr value)
        then ret (additional_elements ++ [el])%list
        else ret additional_elements
      else ret additional_elements).

Definition get_elements_byProperty_fromAPI (w : remote)
    (server_url project_id commit_id : string) (property value : string)
  : M json :=
  let query_input := primitive_constraint property value in
  try_except
    (let query_url := query_results_url server_url project_id commit_id in
     let* query_response := session_post w query_url query_input in
     if Z.eqb (status_code query_response) 200 then
       let* query_response_json := response_json query_response in
       let* found := py_iter query_response_json in
       let* additional_elements :=
         for_fold found [] (λ additional_elements element,
           let* kind := py_get_default element "@type" (JStr "") in
           let* elementsOfSameType :=
             get_elements_byKind_fromAPI w server_url project_id commit_id
               kind in
           let* same := py_iter elementsOfSameType in
           for_fold same additional_elements (λ additional_elements el,
             let* el_id := py_get el "@id" in
             let* element_id := py_get element "@id" in
             if negb (py_eq el_id element_id) then
               redefinitions_of w
                 (get_commit_url server_url project_id commit_id)
                 property value el additional_elements
             else ret additional_elements)) in
       match query_response_json with
       | JList l => ret (JList (l ++ [JList additional_elements]))
       | _ => raise AttributeError
       end
     else
       raise (ValueError "Failed to query elements."
                (Some (status_code query_response, text query_response))))
    (λ e, emit (PrintError e) ;; ret (JList [])).

(** The loop of [check_specialization_hierarchy] over the owned
    specializations; [recurse] is the recursive call.  [visited] is one
    [set] object shared by all the recursive calls of one top level call:
    it is threaded through and handed back. *)
Fixpoint walk_specializations
    (recurse : json → gset pykey → M (bool * gset pykey))
    (w : remote) (query_url : string) (rel_refs : list json)
    (visited : gset pykey) : M (bool * gset pykey) :=
  match rel_refs with
  | [] => ret (false, visited)
  | rel_ref :: rest =>
      let* rid := py_item rel_ref "@id" in
      let* rel := get_element_fromAPI w query_url rid in
      let* r :=
        if truthy rel then
          let* general := py_get rel "general" in
          if truthy general then
            let* gid := py_item general "@id" in
            let* general_el := get_element_fromAPI w query_url gid in
            if truthy general_el then recurse general_el visited
            else ret (false, visited)
          else ret (false, visited)
        else ret (false, visited) in
      if r.1 then ret (true, r.2)
      else walk_specializations recurse w query_url rest r.2
  end.

(** The recursion is on the call depth ([fuel]); a top level call starts
    with the empty [visited]. *)
Fixpoint check_specialization_hierarchy (fuel : nat) (w : remote)
    (query_url : string) (element super_element : json)
    (visited : gset pykey) {struct fuel} : M (bool * gset pykey) :=
  match fuel with
  | O => λ s, (Unfinished, s)
  | S fuel =>
      let* el_id := py_get element "@id" in
      let* k := lift (to_key el_id) TypeError in
      if bool_decide (k ∈ visited) then ret (false, visited)
      else
        let visited := {[k]} ∪ visited in
        let* _ := py_get super_element "name" in
        emit (PrintHierarchyCheck el_id) ;;
        let* super_id := py_get super_element "@id" in
        if py_eq el_id super_id then ret (true, visited)
        else
          let* owned :=
            py_get_default element "ownedSpecialization" (JList []) in
          let* rel_refs := py_iter owned in
          walk_specializations
            (λ general_el visited,
               check_specialization_hierarchy fuel w query_url general_el
                 super_element visited)
            w query_url rel_refs visited
  end.

Definition find_elements_specializing (fuel : nat) (w : remote)
    (server_url project_id commit_id : string) (elements : list json)
    (super_element_name : string) (element_kind : option string)
  : M (list json) :=
  let* super_elements :=
    get_elements_byProperty_fromAPI w server_url project_id commit_id
      "qualifiedName" super_element_name in
  if truthy super_elements then
    let* super_element := py_first super_elements in
    let* _ := py_get super_element "name" in
    for_fold elements [] (λ found_elements el,
      let* skip :=
        match element_kind with
        | Some kind =>
            if truthy (JStr kind) then
              let* ty := py_get el "@type" in
              ret (negb (py_eq ty (JStr kind)))
            else ret false
        | None => ret false
        end in
      if skip : bool then ret found_elements
      else
        let* r :=
          check_specialization_hierarchy fuel w
            (get_commit_url server_url project_id commit_id)
            el super_element ∅ in
        if r.1 then
          let* el_id := py_get el "@id" in
          let* super_id := py_get super_element "@id" in
          if negb (py_eq el_id super_id)
          then ret (found_elements ++ [el])%list
          else ret found_elements
        else ret found_elements)
  else ret [].

Definition get_metadatausage_annotatedElement_ids (w : remote)
    (server_url project_id commit_id : string)
    (metadefinition_dict : list (string * json))
  : M (gmap string (list json)) :=
  let* metadata_usages :=
    get_elements_byKind_fromAPI w server_url project_id commit_id
      (JStr "MetadataUsage") in
  py_len metadata_usages ;;
  let* items := py_iter metadata_usages in
  collect_annotated items metadefinition_dict
    (empty_results metadefinition_dict).

Definition feature_kind_mapping : list (string * string) :=
  [("AttributeUsage", "ownedFeature");
   ("PartUsage", "ownedPart");
   ("ItemUsage", "ownedItem");
   ("PortUsage", "ownedPort");
   ("ReferenceUsage", "ownedReference")].

(** [usage] is the wanted feature: its [@type] is [feature_kind] and its
    [name] is [feature_name]. *)
Definition is_feature (feature_kind feature_name : string) (usage : json)
  : M bool :=
  let* ty := py_get usage "@type" in
  if py_eq (JStr feature_kind) ty then
    let* name := py_get usage "name" in
    ret (py_eq name (JStr feature_name))
  else ret false.

(** Returns [JNull] for Python's [None]. *)
Definition get_feature (w : remote)
    (server_url project_id commit_id : string) (owner : json)
    (feature_name feature_kind : string) : M json :=
  let* _ := py_get owner "@id" in
  let query_url := get_commit_url server_url project_id commit_id in
  let* direct :=
    match assoc feature_kind feature_kind_mapping with
    | Some role => py_get_default owner role (JList [])
    | None => ret (JList [])
    end in
  let* refs := py_iter direct in
  let* feature_ids :=
    for_fold refs [] (λ ids p,
      let* id := py_item p "@id" in ret (ids ++ [id])%list) in
  let* owned_usages := get_elements_fromAPI w query_url feature_ids in
  let* own :=
    for_return owned_usages (λ usage,
      let* hit := is_feature feature_kind feature_name usage in
      ret (if hit : bool then Some usage else None)) in
  match own with
  | Some usage => ret usage
  | None =>
      let* inherited_features_ids := py_get owner "inheritedFeature" in
      py_len inherited_features_ids ;;
      let* inherited := py_iter inherited_features_ids in
      let* found :=
        for_return inherited (λ inherited_feature_id,
          let* id := py_get inherited_feature_id "@id" in
          let* inherited_feature := get_element_fromAPI w query_url id in
          let* hit := is_feature feature_kind feature_name inherited_feature in
          ret (if hit : bool then Some inherited_feature else None)) in
      ret (default JNull found)
  end.

(** The reading of the final value in [get_attribute_value_from_usage]
    ([if value: ...]): [Some v] stands for [return v], [None] for the
    loop going on. *)
Definition read_final_value (w : remote) (query_url : string) (value : json)
  : M (option json) :=
  if truthy value then
    let* _ := py_get value "@id" in
    let* has_value := py_contains "value" value in
    if has_value : bool then
      let* v := py_item value "value" in ret (Some v)
    else
      let* vtype := py_get value "@type" in
      let* referred :=
        if py_eq vtype (JStr "FeatureReferenceExpression") then
          let* referent := py_get value "referent" in
          let* refid := py_get referent "@id" in
          let* enumeration := get_element_fromAPI w query_url refid in
          if truthy enumeration then
            let* declared := py_get enumeration "declaredName" in
            ret (Some declared)
          else ret None
        else ret None in
      match referred with
      | Some declared => ret (Some declared)
      | None =>
          let* vtype := py_get value "@type" in
          if py_eq vtype (JStr "EnumerationUsage") then
            let* name := py_get value "name" in ret (Some name)
          else ret None
      end
  else ret None.

(** One iteration of the loop of [get_attribute_value_from_usage] over
    the owned relationships. *)
Definition value_of_relationship (w : remote) (query_url : string)
    (rel_ref : json) : M (option json) :=
  let* rid := py_item rel_ref "@id" in
  let* rel := get_element_fromAPI w query_url rid in
  let* rtype := py_get rel "@type" in
  if truthy rel && py_eq rtype (JStr "FeatureValue") then
    let* value_id := py_get rel "value" in
    if truthy value_id then
      let* vid := py_get value_id "@id" in
      let* value := get_element_fromAPI w query_url vid in
      let* vtype := py_get value "@type" in
      let* value :=
        if py_eq vtype (JStr "FeatureChainExpression") then
          let* target := py_get value "targetFeature" in
          let* tid := py_get target "@id" in
          get_element_fromAPI w query_url tid
        else ret value in
      read_final_value w query_url value
    else ret None
  else ret None.

(** Returns [JNull] for Python's [None]. *)
Definition get_attribute_value_from_usage (w : remote) (query_url : string)
    (attr_usage : json) : M json :=
  let* _ := py_get attr_usage "@id" in
  let* owned := py_get_default attr_usage "ownedRelationship" (JList []) in
  py_len owned ;;
  let* rel_refs := py_iter owned in
  let* result := for_return rel_refs (value_of_relationship w query_url) in
  ret (default JNull result).

Definition get_feature_value (w : remote)
    (server_url project_id commit_id : string) (owner : json)
    (feature_name feature_kind : string) : M json :=
  let* _ := py_get owner "@id" in
  let query_url := get_commit_url server_url project_id commit_id in
  let* feature :=
    get_feature w server_url project_id commit_id owner feature_name
      feature_kind in
  if negb (truthy feature) then ret JNull
  else get_attribute_value_from_usage w query_url feature.

(** [[p['@id'] for p in refs]]. *)
Definition ids_of_refs (refs : json) : M (list json) :=
  let* items := py_iter refs in
  for_fold items [] (λ ids p,
    let* id := py_item p "@id" in ret (ids ++ [id])%list).

Definition get_metadata_ids_by_name (w : remote)
    (server_url project_id commit_id : string)
    (metadata_shortnames : list string) : M (gmap string json) :=
  let* metadata_definitions :=
    get_elements_byKind_fromAPI w server_url project_id commit_id
      (JStr "MetadataDefinition") in
  match metadata_definitions with
  | JList definitions =>
      for_fold metadata_shortnames ∅ (λ id_map shortName,
        let* matched_id :=
          for_return definitions (λ item,
            let* short := py_get item "declaredShortName" in
            if py_eq short (JStr shortName) then
              let* id := py_item item "@id" in ret (Some id)
            else ret None) in
        ret (match matched_id with
             | Some id => <[shortName := id]> id_map
             | None => id_map
             end))
  | _ =>
      ret (<["error" := JStr "Unexpected response"]>
             (<["details" := metadata_definitions]> ∅))
  end.

(** Returns [None] for an owner that is empty, a list otherwise. *)
Definition get_owned_usages (w : remote)
    (server_url project_id commit_id : string) (owner : json)
    (feature_name : string) : M (option (list json)) :=
  let query_url := get_commit_url server_url project_id commit_id in
  let* _ := py_get owner "name" in
  if negb (truthy owner) then ret None
  else
    let* direct := py_get_default owner feature_name (JList []) in
    let* feature_ids := ids_of_refs direct in
    let* owned_usages := get_elements_fromAPI w query_url feature_ids in
    let* def_ref := py_get owner "definition" in
    if truthy def_ref then
      (* [len(def_ref) > 0] holds of every non-empty sized value *)
      py_len def_ref ;;
      let* first := py_first def_ref in
      let* def_id := py_item first "@id" in
      let* definition := get_element_fromAPI w query_url def_id in
      let* _ := py_get definition "name" in
      let* inherited := py_get_default definition feature_name (JList []) in
      let* def_usages_ids := ids_of_refs inherited in
      let* def_usages := get_elements_fromAPI w query_url def_usages_ids in
      ret (Some (owned_usages ++ def_usages)%list)
    else ret (Some owned_usages).

(** [get_element_fromAPI(server_url, project_id, commit_id, id)]: the
    [lru_cache] wrapper hands the four arguments to the function of two
    parameters, and the call raises [TypeError]. *)
Definition get_element_fromAPI_4 (server_url project_id commit_id : string)
    (element_id : json) : M json :=
  raise TypeError.

(** The innermost loop of [get_elements_byDeclaredName_fromAPI]. *)
Definition redefinitions_of_name (server_url project_id commit_id : string)
    (name : string) (el : json) (additional_elements : list json)
  : M (list json) :=
  let* owned := py_get_default el "ownedRelationship" (JList []) in
  let* relationshipIDs := py_iter owned in
  for_fold relationshipIDs additional_elements
    (λ additional_elements relationshipID,
      let* rid := py_item relationshipID "@id" in
      let* relationship :=
        get_element_fromAPI_4 server_url project_id commit_id rid in
      let* rtype := py_get relationship "@type" in
      if py_eq rtype (JStr "Redefinition") then
        let* redefinedFeature := py_get relationship "redefinedFeature" in
        let* redefinedFeatureID := py_get redefinedFeature "@id" in
        let* redefinedElement :=
          get_element_fromAPI_4 server_url project_id commit_id
            redefinedFeatureID in
        let* found := py_get redefinedElement "declaredName" in
        if py_eq found (JStr name)
        then ret (additional_elements ++ [el])%list
        else ret additional_elements
      else ret additional_elements).

Definition get_elements_byDeclaredName_fromAPI (w : remote)
    (server_url project_id commit_id : string) (name : string) : M json :=
  let query_input := primitive_constraint "declaredName" name in
  try_except
    (let query_url := query_results_url server_url project_id commit_id in
     let* query_response := session_post w query_url query_input in
     if Z.eqb (status_code query_response) 200 then
       let* query_response_json := response_json query_response in
       let* found := py_iter query_response_json in
       let* additional_elements :=
         for_fold found [] (λ additional_elements element,
           let* kind := py_get_default element "@type" (JStr "") in
           let* elementsOfSameType :=
             get_elements_byKind_fromAPI w server_url project_id commit_id
               kind in
           let* same := py_iter elementsOfSameType in
           for_fold same additional_elements (λ additional_elements el,
             let* el_id := py_get el "@id" in
             let* element_id := py_get element "@id" in
             if negb (py_eq el_id element_id) then
               redefinitions_of_name server_url project_id commit_id name
                 el additional_elements
             else ret additional_elements)) in
       match query_response_json with
       | JList l => ret (JList (l ++ [JList additional_elements]))
       | _ => raise AttributeError
       end
     else
       raise (ValueError "Failed to query names."
                (Some (status_code query_response, text query_response))))
    (λ e, emit (PrintError e) ;; ret (JList [])).

Definition get_contained_elements (w : remote)
    (server_url project_id commit_id : string) (element_id : json)
    (kind elementKind : string) : M (list json) :=
  let query_url := get_commit_url server_url project_id commit_id in
  let* element_data := get_element_fromAPI w query_url element_id in
  if negb (truthy element_data) then ret []
  else
    let* owned_elements := py_get_default element_data elementKind (JList []) in
    py_len owned_elements ;;
    let* owned := py_iter owned_elements in
    for_fold owned [] (λ matching_elements owned_element,
      let* id := py_item owned_element "@id" in
      let* full_element := get_element_fromAPI w query_url id in
      if truthy full_element then
        let* ty := py_get full_element "@type" in
        if py_eq ty (JStr kind)
        then ret (matching_elements ++ [full_element])%list
        else ret matching_elements
      else ret matching_elements).

(** Returns [JNull] for Python's [None]; [KeyError] on an element without
    an id. *)
Definition find_element_by_id (aggregated_results : list json)
    (target_id : string) : M json :=
  let* found :=
    for_return aggregated_results (λ element,
      let* id := py_item element "@id" in
      ret (if py_eq id (JStr target_id) then Some element else None)) in
  ret (default JNull found).

(** The recursion is on the call depth ([fuel]); [max_depth] and
    [current_depth] are the integers of the source. *)
Fixpoint get_recursive_owned_elements (fuel : nat) (w : remote)
    (server_url project_id commit_id : string) (start_element_id : json)
    (kind : string) (max_depth current_depth : Z) {struct fuel}
  : M (list json) :=
  match fuel with
  | O => λ s, (Unfinished, s)
  | S fuel =>
      if Z.ltb max_depth current_depth then ret []
      else
        let* elements :=
          get_contained_elements w server_url project_id commit_id
            start_element_id kind "ownedElement" in
        if Z.ltb current_depth max_depth then
          let* raw_children :=
            get_contained_elements w server_url project_id commit_id
              start_element_id "Element" "ownedElement" in
          for_fold raw_children elements (λ all_elements child,
            let* ty := py_get child "@type" in
            if existsb (py_eq ty)
                 [JStr "Package"; JStr "PartUsage"; JStr "ItemUsage"]
            then
              let* child_id := py_item child "@id" in
              let* below :=
                get_recursive_owned_elements fuel w server_url project_id
                  commit_id child_id kind max_depth (current_depth + 1) in
              ret (all_elements ++ below)%list
            else ret all_elements)
        else ret elements
  end.

(** Returns [JNull] for Python's [None]. *)
Definition get_element_definition (w : remote)
    (server_url project_id commit_id : string) (element : json) : M json :=
  let* definition_refs := py_get element "definition" in
  if truthy definition_refs then
    let* first := py_first definition_refs in
    let* id := py_item first "@id" in
    let* definition :=
      get_element_fromAPI w
        (get_commit_url server_url project_id commit_id) id in
    if truthy definition then ret definition else ret JNull
  else ret JNull.

Definition get_element_documentation (w : remote)
    (server_url project_id commit_id : string) (element_id : json)
  : M (list json) :=
  let query_url := get_commit_url server_url project_id commit_id in
  let* element := get_element_fromAPI w query_url element_id in
  if truthy element then
    let* element_doc_refs := py_get element "documentation" in
    if truthy element_doc_refs then
      let* refs := py_iter element_doc_refs in
      for_fold refs [] (λ bodies ref,
        let* id := py_item ref "@id" in
        let* doc := get_element_fromAPI w query_url id in
        if truthy doc then
          let* body := py_get doc "body" in
          if truthy body then ret (bodies ++ [body])%list else ret bodies
        else ret bodies)
    else ret []
  else ret [].

(** Returns [JNull] for Python's [None]. *)
Definition getValueFromOperatorExpressionUnit (w : remote)
    (query_url : string) (opExp : json) : M json :=
  let* owned := py_get opExp "ownedRelationship" in
  let* relationship_ids := py_iter owned in
  let* found :=
    for_return relationship_ids (λ relationship_id,
      let* rid := py_item relationship_id "@id" in
      let* relationship := get_element_fromAPI w query_url rid in
      let* rtype := py_get relationship "@type" in
      let* is_x :=
        if py_eq rtype (JStr "ParameterMembership") then
          let* member_name := py_get relationship "memberName" in
          ret (py_eq member_name (JStr "x"))
        else ret false in
      if is_x : bool then
        let* member_ref := py_item relationship "memberElement" in
        let* member_id := py_item member_ref "@id" in
        let* memberElement := get_element_fromAPI w query_url member_id in
        let* owned_relationships := py_item memberElement "ownedRelationship" in
        let* first := py_first owned_relationships in
        let* value_rel_id := py_item first "@id" in
        let* featureValue := get_element_fromAPI w query_url value_rel_id in
        let* value_ref := py_item featureValue "memberElement" in
        let* value_id := py_item value_ref "@id" in
        let* value := get_element_fromAPI w query_url value_id in
        ret (Some value)
      else ret None) in
  ret (default JNull found).

End Mbse4u.

(** ** Vocabulary of the properties *)

(** The two helper modules, for the statements that hold of both. *)
Inductive helpers : Type := api | mbse4u.

Definition get_element_fromAPI_of (m : helpers)
  : remote → string → json → M json :=
  match m with
  | api => Api.get_element_fromAPI
  | mbse4u => Mbse4u.get_element_fromAPI
  end.

(** [ELEMENT_CACHE[C].get(k)], when [C] is a key of the cache. *)
Definition cache_lookup (s : state) (C : string) (k : pykey) : option json :=
  ELEMENT_CACHE s !! C ≫= (.!! k).

(** What the cache check at the head of [fetch_element] finds. *)
Definition cache_hit (s : state) (C : string) (k : pykey) : option json :=
  match cache_lookup s C k with
  | Some e => if truthy e then Some e else None
  | None => None
  end.

(** [e] is what resolving [(C, k)] yields from the caches alone: the element
    cache holds it and, in the module that wraps [get_element_fromAPI] in an
    [lru_cache], that store either has no entry for the key or holds the
    same element. *)
Definition lru_agrees (m : helpers) (s : state) (C : string) (k : pykey)
    (e : json) : Prop :=
  match m with
  | api => True
  | mbse4u =>
      lru_find (C, k) (element_lru s) = None
      ∨ lru_find (C, k) (element_lru s) = Some e
  end.

Definition available (m : helpers) (s : state) (C : string) (k : pykey)
    (e : json) : Prop :=
  cache_hit s C k = Some e ∧ lru_agrees m s C k e.


(** A history of [get_element_fromAPI] calls, each against the remote server
    as it is at the time of the call. *)
Record call : Type := Call {
  call_remote : remote;
  call_url : string;
  call_id : json
}.

Fixpoint resolve_all (m : helpers) (calls : list call) (s : state) : state :=
  match calls with
  | [] => s
  | c :: calls' =>
      resolve_all m calls'
        (get_element_fromAPI_of m (call_remote c) (call_url c) (call_id c) s).2
  end.

(** [x.get(k)] as data: the field [k] of an element record. *)
Definition field (x : json) (k : string) : option json :=
  match x with
  | JDict d => assoc k d
  | _ => None
  end.

(** [{"@id": i}], the shape of every reference in an edge list. *)
Definition ref (i : string) : json := JDict [("@id", JStr i)].

(** A reply that is no element: a status other than 200 (the call falls
    off its end and returns [None]) or an empty payload (returned as it
    is). *)
Definition no_element (r : reply) (v : json) : Prop :=
  match r with
  | ConnectionFailed => False
  | Response code _ body =>
      if Z.eqb code 200
      then ∃ j, body = Some j ∧ v = first_if_list j ∧ truthy v = false
      else v = JNull
  end.

(** [load_model_cache] of either module; the sibling module takes no page
    size. *)
Definition load_model_cache_of (m : helpers) (w : remote)
    (server_url project_id commit_id : string) (page_size : Z) : M nat :=
  match m with
  | api => Api.load_model_cache w server_url project_id commit_id
  | mbse4u => Mbse4u.load_model_cache w server_url project_id commit_id page_size
  end.

Definition elements_url_of (m : helpers)
    (server_url project_id commit_id : string) (page_size : Z) : string :=
  get_commit_url server_url project_id commit_id
    +:+ match m with
        | api => "/elements?page%5Bsize%5D=512"
        | mbse4u => "/elements?page%5Bsize%5D=" +:+ pretty page_size
        end.

(** The key a bulk element is stored under. *)
Definition element_key (el : json) : option pykey := field el "@id" ≫= to_key.

(** The entry a batch leaves under [k]: its last element with that id. *)
Definition batch_entry (batch : list json) (k : pykey) : option json :=
  last (filter (λ el, element_key el = Some k) batch).

(** The bulk elements the loop of [load_model_cache] gets through: records
    with a hashable id, and what it skips. *)
Definition storable (el : json) : Prop :=
  match el with
  | JDict d =>
      match assoc "@id" d with
      | Some id => is_Some (to_key id)
      | None => True
      end
  | JList l => existsb (py_eq (JStr "@id")) l = false
  | JStr s => String.index 0 "@id" s = None
  | _ => False
  end.

(** *** Sample data of the examples *)

Module Sample.
Definition server : string := "http://mock-server".
Definition commit_url : string := get_commit_url server "proj1" "commit1".

Definition el1 : json := JDict [("@id", JStr "el1"); ("name", JStr "Element 1")].
Definition el2 : json := JDict [("@id", JStr "el2"); ("name", JStr "Element 2")].

(** A server that answers every request with the same reply. *)
Definition always (r : reply) : remote :=
  {| http_get := λ _, r; http_post := λ _ _, r; py_repr := λ _, "" |}.

Definition not_found : remote := always (Response 404 "Not Found" None).
Definition serving (j : json) : remote := always (Response 200 "" (Some j)).

(** A state whose element cache holds [batch] for the sample commit. *)
Definition warmed (batch : list json) : state :=
  (Mbse4u.load_model_cache (serving (JList batch)) server "proj1" "commit1"
     256 initial).2.

(** Two part definitions that specialize each other, and a third one. *)
Definition part_A : json :=
  JDict [("@id", JStr "A"); ("@type", JStr "PartDefinition");
         ("name", JStr "A"); ("ownedSpecialization", JList [ref "A-B"])].
Definition part_B : json :=
  JDict [("@id", JStr "B"); ("@type", JStr "PartDefinition");
         ("name", JStr "B"); ("ownedSpecialization", JList [ref "B-A"])].
Definition A_specializes_B : json :=
  JDict [("@id", JStr "A-B"); ("@type", JStr "Subclassification");
         ("general", ref "B")].
Definition B_specializes_A : json :=
  JDict [("@id", JStr "B-A"); ("@type", JStr "Subclassification");
         ("general", ref "A")].
Definition part_T : json :=
  JDict [("@id", JStr "T"); ("@type", JStr "PartDefinition");
         ("name", JStr "T"); ("qualifiedName", JStr "Pkg::T")].
Definition cycle : list json :=
  [part_A; part_B; A_specializes_B; B_specializes_A; part_T].

(** A requirement with one attribute, [cost], bound to the literal 42,
    and an attribute [risk] bound to the enumeration usage [HIGH]. *)
Definition requirement : json :=
  JDict [("@id", JStr "R"); ("@type", JStr "RequirementUsage");
         ("name", JStr "R"); ("ownedFeature", JList [ref "cost"])].
Definition cost : json :=
  JDict [("@id", JStr "cost"); ("@type", JStr "AttributeUsage");
         ("name", JStr "cost");
         ("ownedRelationship", JList [ref "cost-typing"; ref "cost-value"])].
Definition cost_typing : json :=
  JDict [("@id", JStr "cost-typing"); ("@type", JStr "FeatureTyping")].
Definition cost_value : json :=
  JDict [("@id", JStr "cost-value"); ("@type", JStr "FeatureValue");
         ("value", ref "forty-two")].
Definition forty_two : json :=
  JDict [("@id", JStr "forty-two"); ("@type", JStr "LiteralInteger");
         ("value", JInt 42)].
Definition risk : json :=
  JDict [("@id", JStr "risk"); ("@type", JStr "AttributeUsage");
         ("name", JStr "risk");
         ("ownedRelationship", JList [ref "risk-value"])].
Definition risk_value : json :=
  JDict [("@id", JStr "risk-value"); ("@type", JStr "FeatureValue");
         ("value", ref "HIGH")].
Definition high : json :=
  JDict [("@id", JStr "HIGH"); ("@type", JStr "EnumerationUsage");
         ("name", JStr "HIGH")].
Definition requirements : list json :=
  [requirement; cost; cost_typing; cost_value; forty_two;
   risk; risk_value; high].

(** Three metadata usages: one of definition [D] that annotates nothing,
    one of [D] that annotates [x] and [y], and one of definition [E]. *)
Definition usage_alone : json :=
  JDict [("@id", JStr "u1"); ("@type", JStr "MetadataUsage");
         ("metadataDefinition", ref "D"); ("annotatedElement", JList [])].
Definition usage_tagging : json :=
  JDict [("@id", JStr "u2"); ("@type", JStr "MetadataUsage");
         ("metadataDefinition", ref "D");
         ("annotatedElement", JList [ref "x"; ref "y"])].
Definition usage_other : json :=
  JDict [("@id", JStr "u3"); ("@type", JStr "MetadataUsage");
         ("metadataDefinition", ref "E");
         ("annotatedElement", JList [ref "z"])].
Definition usages : list json := [usage_alone; usage_tagging; usage_other].

(** A server that answers a query by qualified name with [part_T] and
    every other query with the three part definitions. *)
Definition model_server : remote :=
  {| http_get := λ _, Response 404 "Not Found" None;
     http_post := λ _ query_input,
       let property :=
         default JNull (field query_input "where" ≫= λ wh, field wh "property") in
       if py_eq property (JStr "qualifiedName")
       then Response 200 "" (Some (JList [part_T]))
       else Response 200 "" (Some (JList [part_A; part_B; part_T]));
     py_repr := λ _, "" |}.
End Sample.

(** *** Running a helper on what is available *)

(** What is known to be resolvable from the caches of the main module. *)
Definition knows (K : string → pykey → json → Prop) (s : state) : Prop :=
  ∀ C k e, K C k e → available mbse4u s C k e.

(** From every state in which [K] is available, [c] ends with outcome [o],
    prints and requests exactly [evs], and leaves [K] available. *)
Definition runs {A} (K : string → pykey → json → Prop) (c : M A)
    (evs : list event) (o : outcome A) : Prop :=
  ∀ s, knows K s →
       ∃ s', c s = (o, s') ∧ knows K s' ∧ trace s' = (trace s ++ evs)%list.

(** [c] never runs out of fuel. *)
Definition finishes {A} (c : M A) : Prop := ∀ s, (c s).1 ≠ Unfinished.

(** *** Vocabulary of the feature value extractor *)

(** The [@type] of [x] is [ty]. *)
Definition has_type (x : json) (ty : string) : bool :=
  py_eq (default JNull (field x "@type")) (JStr ty).

(** [e] is the feature looked for: of the requested kind and with the
    requested name. *)
Definition is_wanted (feature_kind feature_name : string) (e : json) : bool :=
  py_eq (JStr feature_kind) (default JNull (field e "@type"))
  && py_eq (default JNull (field e "name")) (JStr feature_name).

(** The edge list of the owner that [get_feature] reads for a kind. *)
Definition direct_features (owner : json) (feature_kind : string) : json :=
  match assoc feature_kind Mbse4u.feature_kind_mapping with
  | Some role => default (JList []) (field owner role)
  | None => JList []
  end.

Section extractor.
(** The caches of the main module in state [s], for the commit [C]. *)
Context (s : state) (C : string).

(** [F] is the final value of the value expression [V]: [V] itself, or
    the target of [V] when [V] is a feature chain expression. *)
Inductive final_value (V : json) : json → Prop :=
| final_direct :
    is_dict V = true → has_type V "FeatureChainExpression" = false →
    final_value V V
| final_chained t F :
    has_type V "FeatureChainExpression" = true →
    field V "targetFeature" = Some (ref t) →
    available mbse4u s C (KStr t) F → is_dict F = true →
    final_value V F.

(** How a final value is read. *)
Inductive interpreted (F : json) : json → Prop :=
| interpreted_literal x :
    field F "value" = Some x → interpreted F x
| interpreted_reference e E :
    field F "value" = None →
    has_type F "FeatureReferenceExpression" = true →
    field F "referent" = Some (ref e) →
    available mbse4u s C (KStr e) E → is_dict E = true →
    interpreted F (default JNull (field E "declaredName"))
| interpreted_enumeration :
    field F "value" = None →
    has_type F "FeatureReferenceExpression" = false →
    has_type F "EnumerationUsage" = true →
    interpreted F (default JNull (field F "name")).

(** An owned relationship the loop of [get_attribute_value_from_usage]
    passes over: not a feature value, a feature value without a value, or
    one whose final value is none of the three readable forms. *)
Inductive passed_over : json → Prop :=
| passed_other r rel :
    available mbse4u s C (KStr r) rel → is_dict rel = true →
    has_type rel "FeatureValue" = false →
    passed_over (ref r)
| passed_empty r rel :
    available mbse4u s C (KStr r) rel →
    has_type rel "FeatureValue" = true →
    truthy (default JNull (field rel "value")) = false →
    passed_over (ref r)
| passed_unreadable r rel v V F :
    available mbse4u s C (KStr r) rel →
    has_type rel "FeatureValue" = true →
    field rel "value" = Some (ref v) →
    available mbse4u s C (KStr v) V →
    final_value V F →
    field F "value" = None →
    has_type F "FeatureReferenceExpression" = false →
    has_type F "EnumerationUsage" = false →
    passed_over (ref r).
End extractor.

(** *** Vocabulary of the metadata tag index *)

(** The query for the metadata usages, in either module. *)
Definition metadata_usages_of (m : helpers) (w : remote)
    (server_url project_id commit_id : string) : M json :=
  match m with
  | api =>
      Api.get_elements_byKind_fromAPI w server_url project_id commit_id
        "MetadataUsage"
  | mbse4u =>
      Mbse4u.get_elements_byKind_fromAPI w server_url project_id commit_id
        (JStr "MetadataUsage")
  end.

Definition get_metadatausage_annotatedElement_ids_of (m : helpers)
  : remote → string → string → string → list (string * json)
    → M (gmap string (list json)) :=
  match m with
  | api => Api.get_metadatausage_annotatedElement_ids
  | mbse4u => Mbse4u.get_metadatausage_annotatedElement_ids
  end.

(** The id of the metadata definition a usage refers to, as the loop
    computes it. *)
Definition metadata_definition_id (item : json) : json :=
  match field item "metadataDefinition" with
  | Some (JDict d) => default JNull (assoc "@id" d)
  | _ => JStr "Unknown"
  end.

(** The ids in the [annotatedElement] list of a usage or, when that list is
    empty or missing, the id of the usage itself. *)
Definition annotated_or_self (item : json) : list json :=
  match field item "annotatedElement" with
  | Some (JList (a :: l)) => (λ a, default JNull (field a "@id")) <$> (a :: l)
  | _ => [default JNull (field item "@id")]
  end.

(** What a usage adds under a key whose definition id is [d]. *)
Definition contribution (d : json) (item : json) : list json :=
  if py_eq (metadata_definition_id item) d then annotated_or_self item else [].

(** A usage as the server sends it: a record whose [annotatedElement], when
    present, is a list of references with an id. *)
Definition well_formed_usage (item : json) : Prop :=
  is_dict item = true ∧
  match field item "annotatedElement" with
  | Some (JList l) =>
      Forall (λ a, is_dict a = true
                   ∧ truthy (default JNull (field a "@id")) = true) l
  | Some _ => False
  | None => True
  end.

(** The loops of [get_metadatausage_annotatedElement_ids] as folds. *)
Definition add_annotated (item : json) (results : gmap string (list json))
    (entry : string * json) : gmap string (list json) :=
  if py_eq (metadata_definition_id item) entry.2
  then <[entry.1 := (default [] (results !! entry.1) ++ annotated_or_self item)%list]>
         results
  else results.

Definition collected (metadata_usages : list json)
    (metadefinition_dict : list (string * json))
    (results : gmap string (list json)) : gmap string (list json) :=
  foldl (λ results item, foldl (add_annotated item) results metadefinition_dict)
        results metadata_usages.

(** *** Vocabulary of the specialization walk *)

(** The keys of the elements whose check was printed, in order. *)
Definition checked_keys (evs : list event) : list pykey :=
  omap (λ ev, match ev with
              | PrintHierarchyCheck el_id => to_key el_id
              | _ => None
              end) evs.

(** From [s] with the set [visited] to [s'] with [visited']: the checks
    printed in between are of pairwise different elements, none of which
    was in [visited], and [visited'] is [visited] with these elements
    added. *)
Definition checks_fresh (visited : gset pykey) (s : state)
    (visited' : gset pykey) (s' : state) : Prop :=
  ∃ evs, trace s' = (trace s ++ evs)%list
         ∧ NoDup (checked_keys evs)
         ∧ (∀ k, k ∈ checked_keys evs → k ∉ visited)
         ∧ visited' = visited ∪ list_to_set (checked_keys evs).

(** *** Vocabulary of the remaining helpers *)

(** The bound and the uniqueness of the keys of an [lru_cache] store. *)
Definition lru_bounded {K A} (maxsize : nat) (store : list (K * A)) : Prop :=
  (length store ≤ maxsize)%nat ∧ NoDup store.*1.

(** [element] specializes [general_el] by the first of its owned
    specializations, both resolvable from the caches of [s]. *)
Definition first_specialization (s : state) (C : string)
    (element general_el : json) : Prop :=
  ∃ r g rel rest,
    field element "ownedSpecialization" = Some (JList (ref r :: rest))
    ∧ available mbse4u s C (KStr r) rel
    ∧ field rel "general" = Some (ref g)
    ∧ available mbse4u s C (KStr g) general_el.

(** Each element of the path specializes the next one. *)
Fixpoint specialization_path (s : state) (C : string) (path : list json)
  : Prop :=
  match path with
  | element :: ((general_el :: _) as rest) =>
      first_specialization s C element general_el
      ∧ specialization_path s C rest
  | _ => True
  end.

(** The query for the metadata definitions and [get_metadata_ids_by_name],
    of either module. *)
Definition metadata_definitions_of (m : helpers) (w : remote)
    (server_url project_id commit_id : string) : M json :=
  match m with
  | api =>
      Api.get_elements_byKind_fromAPI w server_url project_id commit_id
        "MetadataDefinition"
  | mbse4u =>
      Mbse4u.get_elements_byKind_fromAPI w server_url project_id commit_id
        (JStr "MetadataDefinition")
  end.

Definition get_metadata_ids_by_name_of (m : helpers)
  : remote → string → string → string → list string → M (gmap string json) :=
  match m with
  | api => Api.get_metadata_ids_by_name
  | mbse4u => Mbse4u.get_metadata_ids_by_name
  end.

(** The id of the first definition whose short name is [name]. *)
Definition definition_named (definitions : list json) (name : string)
  : option json :=
  find (λ item,
          py_eq (default JNull (field item "declaredShortName")) (JStr name))
       definitions
  ≫= λ item, field item "@id".

(** What each module stores under a requested short name. *)
Definition id_entry (m : helpers) (definitions : list json) (name : string)
  : option json :=
  match m with
  | api => Some (default JNull (definition_named definitions name))
  | mbse4u => definition_named definitions name
  end.

(** The [body] of a documentation element. *)
Definition body_of (doc : json) : json := default JNull (field doc "body").

(** *** More sample data *)

Module Fixture.
(** A requirement usage defined by [Sample.requirement]: it owns the
    attribute [risk] and inherits, among others, the attribute [cost];
    the last inherited reference does not resolve. *)
Definition derived : json :=
  JDict [("@id", JStr "R2"); ("@type", JStr "RequirementUsage");
         ("name", JStr "R2");
         ("ownedFeature", JList [ref "risk"]);
         ("inheritedFeature",
          JList [ref "cost-typing"; ref "cost"; ref "gone"]);
         ("definition", JList [ref "R"]);
         ("documentation", JList [ref "doc1"; ref "doc2"; ref "doc3"])].
(** A requirement usage all of whose features resolve. *)
Definition settled : json :=
  JDict [("@id", JStr "R3"); ("@type", JStr "RequirementUsage");
         ("name", JStr "R3");
         ("ownedFeature", JList [ref "risk"]);
         ("inheritedFeature", JList [ref "cost-typing"; ref "cost"])].
Definition doc1 : json :=
  JDict [("@id", JStr "doc1"); ("@type", JStr "Documentation");
         ("body", JStr "The first paragraph.")].
Definition doc2 : json :=
  JDict [("@id", JStr "doc2"); ("@type", JStr "Documentation");
         ("body", JStr "")].
Definition doc3 : json :=
  JDict [("@id", JStr "doc3"); ("@type", JStr "Documentation");
         ("body", JStr "The last paragraph.")].
Definition model : list json :=
  (Sample.requirements ++ [derived; doc1; doc2; doc3])%list.

(** Two metadata definitions with short names, the second one twice. *)
Definition definitions : list json :=
  [JDict [("@id", JStr "D"); ("@type", JStr "MetadataDefinition");
          ("declaredShortName", JStr "FB")];
   JDict [("@id", JStr "E"); ("@type", JStr "MetadataDefinition");
          ("declaredShortName", JStr "ST")];
   JDict [("@id", JStr "E2"); ("@type", JStr "MetadataDefinition");
          ("declaredShortName", JStr "ST")]].
(** Attribute usages whose value cannot be interpreted: the value of
    [unreferred] is a feature reference expression without a referent,
    the value of [unchained] a feature chain expression without a target
    feature, the value of [dangling] does not resolve, and the only
    relationship of [adrift] does not resolve. *)
Definition unreferred : json :=
  JDict [("@id", JStr "unreferred"); ("@type", JStr "AttributeUsage");
         ("name", JStr "unreferred");
         ("ownedRelationship", JList [ref "unreferred-value"])].
Definition unreferred_value : json :=
  JDict [("@id", JStr "unreferred-value"); ("@type", JStr "FeatureValue");
         ("value", ref "reference")].
Definition reference : json :=
  JDict [("@id", JStr "reference");
         ("@type", JStr "FeatureReferenceExpression")].
Definition unchained : json :=
  JDict [("@id", JStr "unchained"); ("@type", JStr "AttributeUsage");
         ("name", JStr "unchained");
         ("ownedRelationship", JList [ref "unchained-value"])].
Definition unchained_value : json :=
  JDict [("@id", JStr "unchained-value"); ("@type", JStr "FeatureValue");
         ("value", ref "chain")].
Definition chain : json :=
  JDict [("@id", JStr "chain"); ("@type", JStr "FeatureChainExpression")].
Definition dangling : json :=
  JDict [("@id", JStr "dangling"); ("@type", JStr "AttributeUsage");
         ("name", JStr "dangling");
         ("ownedRelationship", JList [ref "dangling-value"])].
Definition dangling_value : json :=
  JDict [("@id", JStr "dangling-value"); ("@type", JStr "FeatureValue");
         ("value", ref "nowhere")].
Definition adrift : json :=
  JDict [("@id", JStr "adrift"); ("@type", JStr "AttributeUsage");
         ("name", JStr "adrift");
         ("ownedRelationship", JList [ref "lost"])].
Definition uninterpretable : list json :=
  [unreferred; unreferred_value; reference; unchained; unchained_value;
   chain; dangling; dangling_value; adrift].

End Fixture.

(** *** Processes *)





(** * Properties *)

(** ** The [lru_cache] store *)

Section lru_facts.
Context {K A : Type} `{EqDecision K}.
Implicit Types (store : list (K * A)).

Lemma lru_find_cons key k v store :
  lru_find key ((k, v) :: store)
  = if decide (k = key) then Some v else lru_find key store.
Proof.
  unfold lru_find. simpl. rewrite bool_decide_decide.
  by destruct (decide (k = key)).
Qed.

Lemma lru_find_drop_ne key k store :
  key ≠ k → lru_find key (lru_drop k store) = lru_find key store.
Proof.
  intros Hne. unfold lru_drop. induction store as [|[k' v] store IH]; [done|].
  rewrite filter_cons. simpl. destruct (decide (k' ≠ k)) as [Hk|Hk].
  - rewrite !lru_find_cons. by rewrite IH.
  - apply dec_stable in Hk. subst k'. rewrite lru_find_cons.
    rewrite decide_False; [done | congruence].
Qed.

Lemma lru_find_take key n store :
  lru_find key (take n store) = None
  ∨ lru_find key (take n store) = lru_find key store.
Proof.
  revert n. induction store as [|[k v] store IH]; intros [|n]; simpl; auto.
  rewrite !lru_find_cons. destruct (decide (k = key)); auto.
Qed.

(** After a hit on [key], or after storing [(key, v)], every other key is
    found as before or not at all, and [key] is found with [v]. *)
Lemma lru_find_touch key k v store :
  lru_find key ((k, v) :: lru_drop k store)
  = if decide (k = key) then Some v else lru_find key store.
Proof.
  rewrite lru_find_cons. destruct (decide (k = key)); [done|].
  apply lru_find_drop_ne. congruence.
Qed.

Lemma lru_find_store key k v n store :
  lru_find key (take n ((k, v) :: store)) = None
  ∨ lru_find key (take n ((k, v) :: store))
    = if decide (k = key) then Some v else lru_find key store.
Proof.
  destruct (lru_find_take key n ((k, v) :: store)) as [Heq | Heq]; rewrite Heq; [by left|].
  right. apply lru_find_cons.
Qed.
End lru_facts.

(** ** The element cache *)

Lemma cache_put_lookup cache C k e C' k' :
  cache_put cache C k e !! C' ≫= (.!! k')
  = if decide (C' = C ∧ k' = k) then Some e else cache !! C' ≫= (.!! k').
Proof.
  unfold cache_put. destruct (decide (C' = C)) as [->|HC].
  - rewrite lookup_insert_eq. simpl. destruct (decide (k' = k)) as [->|Hk].
    + rewrite lookup_insert_eq. by rewrite decide_True.
    + rewrite lookup_insert_ne; [|done]. rewrite decide_False; [|intros [_ ?]; congruence].
      by destruct (cache !! C).
  - rewrite lookup_insert_ne; [|done]. rewrite decide_False; [done|intros [? _]; congruence].
Qed.

(** *** [fetch_element], case by case *)

Lemma fetch_element_hit w C x k e s :
  to_key x = Some k → cache_hit s C k = Some e →
  fetch_element w C x s = (Ret e, s).
Proof.
  unfold cache_hit, cache_lookup, fetch_element, bind, get_state, lift.
  intros Hk Hhit.
  destruct (ELEMENT_CACHE s !! C) as [g|]; [|done]. simpl in *. rewrite Hk.
  simpl. destruct (g !! k) as [e'|]; [|done]. simpl.
  destruct (truthy e') eqn:He; by simplify_eq.
Qed.

Lemma fetch_element_skip_cache {A} x k C s (m : M A) (f : json → M A) :
  to_key x = Some k → cache_hit s C k = None →
  (let* cached_element :=
     match ELEMENT_CACHE s !! C with
     | Some entry =>
         let* k := lift (to_key x) TypeError in
         ret (default JNull (entry !! k))
     | None => ret JNull
     end in
   if truthy cached_element then f cached_element else m) s = m s.
Proof.
  unfold cache_hit, cache_lookup, bind, lift, ret. intros -> Hhit.
  destruct (ELEMENT_CACHE s !! C) as [g|]; simpl in *; [|done].
  destruct (g !! k) as [e'|]; simpl in *; [|done].
  by destruct (truthy e').
Qed.

Lemma fetch_element_miss w C i s :
  cache_hit s C (KStr i) = None →
  fetch_element w C (JStr i) s =
    let s1 := with_trace s [SessionGet (C +:+ "/elements/" +:+ i)] in
    match http_get w (C +:+ "/elements/" +:+ i) with
    | ConnectionFailed => (Raise RequestException, s1)
    | Response code _ body =>
        if Z.eqb code 200 then
          match body with
          | Some j =>
              (Ret (first_if_list j),
               if truthy (first_if_list j)
               then with_cache s1
                      (cache_put (ELEMENT_CACHE s) C (KStr i) (first_if_list j))
               else s1)
          | None => (Raise JSONDecodeError, s1)
          end
        else (Ret JNull, s1)
    end.
Proof.
  intros Hhit. unfold fetch_element, bind at 1, get_state.
  rewrite (fetch_element_skip_cache (JStr i) (KStr i)); [|done..].
  unfold session_get, emit, bind, ret, raise, set_cache, get_state. simpl.
  destruct (http_get w _) as [|code txt body]; [done|]. simpl.
  destruct (Z.eqb code 200); [|done].
  destruct body as [j|]; [|done]. simpl.
  by destruct (truthy (first_if_list j)).
Qed.

Lemma fetch_element_ill_typed w C x s :
  (∀ k, to_key x = Some k → cache_hit s C k = None) →
  (∀ i, x ≠ JStr i) →
  fetch_element w C x s = (Raise TypeError, s).
Proof.
  intros Hhit Hns. unfold fetch_element, bind at 1, get_state.
  destruct (to_key x) as [k|] eqn:Hk.
  - rewrite <- Hk. rewrite (fetch_element_skip_cache x k); [|by auto..].
    destruct x as [| | |i| |]; try done. by destruct (Hns i).
  - unfold bind, lift, raise, ret.
    destruct (ELEMENT_CACHE s !! C); [done|]. simpl.
    by destruct x.
Qed.

Lemma fetch_element_cases w C x s :
  (∃ k e, to_key x = Some k ∧ cache_hit s C k = Some e
          ∧ fetch_element w C x s = (Ret e, s))
  ∨ (∃ i, x = JStr i ∧ cache_hit s C (KStr i) = None)
  ∨ ((∀ i, x ≠ JStr i) ∧ fetch_element w C x s = (Raise TypeError, s)).
Proof.
  destruct (to_key x) as [k|] eqn:Hk.
  - destruct (cache_hit s C k) as [e|] eqn:Hhit.
    + left. exists k, e. split_and!; [done..|]. by apply (fetch_element_hit _ _ _ k).
    + destruct x as [| | |i| |]; simplify_eq/=; try (by right; left; eauto).
      all: right; right; split; [done|];
        apply fetch_element_ill_typed; [|done]; by intros ? [= <-].
  - right; right. destruct x; simplify_eq/=.
    all: split; [done|]; by apply fetch_element_ill_typed.
Qed.

(** What a fetch leaves behind: the [lru_cache] stores are not touched, an
    element the cache check finds stays, and an element that is returned
    and is not empty is in the cache afterwards. *)
Lemma fetch_element_spec w C x s o s' :
  fetch_element w C x s = (o, s') →
  element_lru s' = element_lru s ∧ kind_lru s' = kind_lru s ∧
  o ≠ Unfinished ∧
  (∀ C' k' e', cache_hit s C' k' = Some e' → cache_hit s' C' k' = Some e') ∧
  (∀ e k, o = Ret e → truthy e = true → to_key x = Some k →
          cache_hit s' C k = Some e) ∧
  (∀ e, o = Ret e → truthy e = false → ELEMENT_CACHE s' = ELEMENT_CACHE s) ∧
  (∀ e, o = Raise e → ELEMENT_CACHE s' = ELEMENT_CACHE s).
Proof.
  intros Hrun.
  destruct (fetch_element_cases w C x s)
    as [(k & e & Hk & Hhit & Heq)|[(i & -> & Hhit)|[_ Heq]]].
  - rewrite Heq in Hrun. simplify_eq. split_and!; try done.
    intros e' k' [= <-] _ ?. by simplify_eq.
  - rewrite fetch_element_miss in Hrun; [|done]. cbv zeta in Hrun.
    destruct (http_get w _) as [|code txt [j|]].
    + injection Hrun as <- <-. split_and!; done.
    + destruct (Z.eqb code 200);
        [|injection Hrun as <- <-; split_and!; try done; by intros ?? [= <-]].
      injection Hrun as <- <-.
      destruct (truthy (first_if_list j)) eqn:Hj;
        [|split_and!; try done; intros ?? [= <-]; congruence].
      split_and!; try done.
      * intros C' k' e'. unfold cache_hit, cache_lookup. simpl.
        rewrite cache_put_lookup. destruct (decide _) as [[-> ->]|]; [|done].
        intros He'. unfold cache_hit, cache_lookup in Hhit. by rewrite Hhit in He'.
      * intros e k [= <-] _ [= <-]. unfold cache_hit, cache_lookup. simpl.
        rewrite cache_put_lookup, decide_True; [|done]. by rewrite Hj.
      * intros e [= <-]. congruence.
    + destruct (Z.eqb code 200); injection Hrun as <- <-; split_and!; try done.
      by intros ?? [= <-].
  - rewrite Heq in Hrun. simplify_eq. split_and!; done.
Qed.

(** *** [get_element_fromAPI], unfolded *)

Lemma mbse4u_get_element_eq w C x s :
  Mbse4u.get_element_fromAPI w C x s =
  match to_key x with
  | None => (Raise TypeError, s)
  | Some k =>
      match lru_find (C, k) (element_lru s) with
      | Some v =>
          (Ret v, with_element_lru s ((C, k, v) :: lru_drop (C, k) (element_lru s)))
      | None =>
          match fetch_element w C x s with
          | (Ret e, s1) =>
              (Ret e, with_element_lru s1 (take 2048 ((C, k, e) :: element_lru s1)))
          | (Raise e, s1) => (Raise e, with_trace s1 [PrintError e])
          | (Unfinished, s1) => (Unfinished, s1)
          end
      end
  end.
Proof.
  unfold Mbse4u.get_element_fromAPI, bind at 1, lift.
  destruct (to_key x) as [k|]; [|done]. unfold ret at 1.
  unfold lru_cache, bind at 1, get_state at 1.
  destruct (lru_find _ _) as [v|]; [done|].
  unfold bind at 1, try_except.
  by destruct (fetch_element w C x s) as [[e|e|] s1].
Qed.

Lemma api_get_element_eq w C x s :
  Api.get_element_fromAPI w C x s =
  match fetch_element w C x s with
  | (Raise e, s1) => (Ret JNull, with_trace s1 [PrintError e])
  | r => r
  end.
Proof.
  unfold Api.get_element_fromAPI, try_except.
  by destruct (fetch_element w C x s) as [[e|e|] s1].
Qed.

Lemma available_weaken m s s' C k e :
  available m s C k e →
  (cache_hit s C k = Some e → cache_hit s' C k = Some e) →
  (m = mbse4u →
   lru_find (C, k) (element_lru s') = None
   ∨ lru_find (C, k) (element_lru s') = lru_find (C, k) (element_lru s)
   ∨ lru_find (C, k) (element_lru s') = Some e) →
  available m s' C k e.
Proof.
  intros [Hhit Hlru] Hc Hl. split; [auto|].
  destruct m; [done|]. simpl in *.
  destruct Hl as [Hl|[Hl|Hl]]; [done|..]; rewrite Hl; auto.
Qed.

(** Every call of [get_element_fromAPI], whatever it is asked for and
    whatever the server answers, keeps what is available. *)
Lemma get_element_keeps_available m w C x s C' k' e' :
  available m s C' k' e' →
  available m (get_element_fromAPI_of m w C x s).2 C' k' e'.
Proof.
  intros Hav. destruct m; simpl.
  - rewrite api_get_element_eq.
    destruct (fetch_element w C x s) as [o s1] eqn:Hf.
    apply fetch_element_spec in Hf as (Hl & _ & _ & Hkeep & _).
    apply (available_weaken _ s); [done| |done].
    intros ?. destruct o; simpl; by apply Hkeep.
  - rewrite mbse4u_get_element_eq.
    destruct (to_key x) as [k|] eqn:Hk; [|done].
    destruct (lru_find (C, k) (element_lru s)) as [v|] eqn:Hfind;
      cbn [snd with_element_lru element_lru].
    + apply (available_weaken _ s); [done..|]. intros _.
      cbn [snd with_element_lru element_lru].
      rewrite lru_find_touch. destruct (decide _) as [[= <- <-]|]; auto.
    + destruct (fetch_element w C x s) as [o s1] eqn:Hf.
      pose proof Hf as Hf'.
      apply fetch_element_spec in Hf as (Hl & _ & _ & Hkeep & Hnew & _).
      destruct o as [e|e|]; cbn [snd with_element_lru with_trace element_lru].
      * apply (available_weaken _ s); [done|by apply Hkeep|]. intros _.
        cbn [snd with_element_lru element_lru].
        destruct (lru_find_store (C', k') (C, k) e 2048 (element_lru s1))
          as [Hs|Hs]; rewrite Hs; [by left|].
        destruct (decide _) as [[= <- <-]|]; [|rewrite Hl; auto].
        right; right. f_equal.
        destruct (fetch_element_cases w C x s)
          as [(k0 & e0 & Hk0 & Hhit & Heq)|[(i & -> & Hhit)|[_ Heq]]].
        -- rewrite Heq in Hf'. destruct Hav as [Hav _]. by simplify_eq.
        -- destruct Hav as [Hav _]. injection Hk as <-. congruence.
        -- congruence.
      * apply (available_weaken _ s); [done|by apply Hkeep|].
        cbn [with_trace element_lru]. rewrite Hl. auto.
      * apply (available_weaken _ s); [done|by apply Hkeep|].
        cbn [with_trace element_lru]. rewrite Hl. auto.
Qed.



(** Resolving what is available: the element is returned, no request is
    sent and nothing is printed. *)
Lemma get_element_available m w C x k e s :
  to_key x = Some k → available m s C k e →
  ∃ s', get_element_fromAPI_of m w C x s = (Ret e, s')
        ∧ trace s' = trace s ∧ ELEMENT_CACHE s' = ELEMENT_CACHE s.
Proof.
  intros Hk [Hhit Hlru]. destruct m; simpl.
  - rewrite api_get_element_eq, (fetch_element_hit _ _ _ k e); eauto.
  - rewrite mbse4u_get_element_eq, Hk. simpl in Hlru.
    destruct Hlru as [-> | ->]; [|eauto].
    rewrite (fetch_element_hit _ _ _ k e); eauto.
Qed.


(** ** Failed fetches *)

(** The sibling module keeps no trace of a failed fetch: the element cache
    is as it was, and the next call for the same id asks the server
    again. *)
Lemma api_failed_fetch_not_cached w C i s v s1 :
  cache_hit s C (KStr i) = None →
  Api.get_element_fromAPI w C (JStr i) s = (Ret v, s1) → truthy v = false →
  ELEMENT_CACHE s1 = ELEMENT_CACHE s ∧
  ∀ w' j txt,
    http_get w' (C +:+ "/elements/" +:+ i) = Response 200 txt (Some j) →
    truthy (first_if_list j) = true →
    ∃ s2, Api.get_element_fromAPI w' C (JStr i) s1 = (Ret (first_if_list j), s2)
          ∧ trace s2 = (trace s1 ++ [SessionGet (C +:+ "/elements/" +:+ i)])%list.
Proof.
  intros Hhit Hrun Hv. rewrite api_get_element_eq in Hrun.
  destruct (fetch_element w C (JStr i) s) as [o s0] eqn:Hf.
  apply fetch_element_spec in Hf as (_ & _ & _ & _ & _ & Hfalsy & Hraise).
  assert (ELEMENT_CACHE s1 = ELEMENT_CACHE s) as Hsame.
  { destruct o as [e|e|]; simplify_eq/=; eauto. }
  split; [done|]. intros w' j txt Hget Hj.
  assert (cache_hit s1 C (KStr i) = None) as Hhit1.
  { unfold cache_hit, cache_lookup in *. by rewrite Hsame. }
  rewrite api_get_element_eq, fetch_element_miss; [|done]. cbv zeta.
  rewrite Hget. simpl. rewrite Hj. eauto.
Qed.


(** The [lru_cache] around [get_element_fromAPI] memoizes the outcome of a
    fetch that found no element: the element cache is left as it was, but
    the next call for the same id is answered from the [lru_cache], with the
    same empty result and without asking the server. *)
Lemma mbse4u_failed_fetch_memoized w C i s v :
  lru_find (C, KStr i) (element_lru s) = None →
  cache_hit s C (KStr i) = None →
  no_element (http_get w (C +:+ "/elements/" +:+ i)) v →
  ∃ s1, Mbse4u.get_element_fromAPI w C (JStr i) s = (Ret v, s1)
        ∧ ELEMENT_CACHE s1 = ELEMENT_CACHE s
        ∧ ∀ w', ∃ s2, Mbse4u.get_element_fromAPI w' C (JStr i) s1 = (Ret v, s2)
                      ∧ trace s2 = trace s1.
Proof.
  intros Hlru Hhit Hno. rewrite mbse4u_get_element_eq. cbn [to_key].
  rewrite Hlru, fetch_element_miss; [|done]. cbv zeta.
  unfold no_element in Hno.
  destruct (http_get w _) as [|code txt body]; [done|].
  assert (∀ s0 w',
    ∃ s2, Mbse4u.get_element_fromAPI w' C (JStr i)
            (with_element_lru s0 (take 2048 ((C, KStr i, v) :: element_lru s0)))
          = (Ret v, s2)
        ∧ trace s2
          = trace (with_element_lru s0
                     (take 2048 ((C, KStr i, v) :: element_lru s0)))) as Hagain.
  { intros s0 w'. rewrite mbse4u_get_element_eq. cbn [to_key].
    cbn [with_element_lru element_lru].
    change (take 2048 ((C, KStr i, v) :: element_lru s0))
      with ((C, KStr i, v) :: take 2047 (element_lru s0)).
    rewrite lru_find_cons, decide_True; [|done]. eauto. }
  destruct (Z.eqb code 200).
  - destruct Hno as (j & -> & -> & Hj). rewrite Hj. eauto.
  - subst v. eauto.
Qed.

(** C3. Failed fetches are memoized by the main module: after a fetch of
    [el1] that the server answers with 404, the element cache has no entry,
    yet a second call, against a server that now serves [el1], returns
    [None] again without sending a request.  The sibling module, whose
    [lru_cache] decorator is commented out, asks again and gets the
    element. *)
Theorem failed_fetch_memoized_at_404 :
  let url := Sample.commit_url in
  let first := Mbse4u.get_element_fromAPI Sample.not_found url (JStr "el1") initial in
  let second :=
    Mbse4u.get_element_fromAPI (Sample.serving Sample.el1) url (JStr "el1") first.2 in
  let sibling :=
    Api.get_element_fromAPI (Sample.serving Sample.el1) url (JStr "el1")
      (Api.get_element_fromAPI Sample.not_found url (JStr "el1") initial).2 in
  first.1 = Ret JNull ∧ ELEMENT_CACHE first.2 = ∅
  ∧ second.1 = Ret JNull ∧ trace second.2 = trace first.2
  ∧ sibling.1 = Ret Sample.el1.
Proof. vm_compute. by split_and!. Qed.

(** ** Bulk loading *)

Lemma batch_entry_cons el batch k :
  batch_entry (el :: batch) k =
  match batch_entry batch k with
  | Some e => Some e
  | None => if decide (element_key el = Some k) then Some el else None
  end.
Proof.
  unfold batch_entry. rewrite filter_cons.
  destruct (decide (element_key el = Some k)); [|by destruct (last _)].
  destruct (filter _ batch) as [|e0 l] eqn:Hf; [done|].
  rewrite last_cons. by destruct (last (e0 :: l)) eqn:Hl.
Qed.

(** The loop of [load_model_cache] has no effect but its result, where a
    later element replaces an earlier one with the same id. *)
Lemma populate_spec els : ∀ acc s,
  Forall storable els →
  ∃ entry, populate els acc s = (Ret entry, s)
           ∧ ∀ k, entry !! k = match batch_entry els k with
                                | Some e => Some e
                                | None => acc !! k
                                end.
Proof.
  induction els as [|el els IH]; intros acc s Hst.
  - exists acc. by split.
  - apply Forall_cons in Hst as [Hel Hst].
    assert (∀ entry : gmap pykey json, (∀ k, entry !! k = match batch_entry els k with
                                       | Some e => Some e
                                       | None => acc !! k end) →
             element_key el = None →
             ∀ k, entry !! k = match batch_entry (el :: els) k with
                               | Some e => Some e
                               | None => acc !! k end) as Hskip.
    { intros entry Hent Hnone k. rewrite Hent, batch_entry_cons.
      destruct (batch_entry els k); [done|].
      rewrite decide_False; [done|congruence]. }
    cbn [populate]. unfold bind at 1.
    destruct el as [| | |str|l|d]; cbn [storable] in Hel; try done;
      cbn [py_contains]; unfold ret at 1.
    + rewrite bool_decide_eq_false_2; [|rewrite Hel; by intros [??]].
      destruct (IH acc s Hst) as (entry & -> & Hent). eauto.
    + rewrite Hel.
      destruct (IH acc s Hst) as (entry & -> & Hent). eauto.
    + destruct (assoc "@id" d) as [id|] eqn:Hid.
      * rewrite bool_decide_eq_true_2; [|by eauto].
        destruct Hel as [k0 Hk0]. cbn [py_item]. rewrite Hid.
        unfold bind, lift, ret. rewrite Hk0.
        destruct (IH (<[k0:=JDict d]> acc) s Hst) as (entry & -> & Hent).
        eexists; split; [done|]. intros k. rewrite Hent, batch_entry_cons.
        destruct (batch_entry els k); [done|].
        unfold element_key. simpl. rewrite Hid. simpl. rewrite Hk0.
        destruct (decide (Some k0 = Some k)) as [[= ->]|Hne].
        -- by rewrite lookup_insert_eq.
        -- rewrite lookup_insert_ne; [done|congruence].
      * rewrite bool_decide_eq_false_2; [|by intros [??]].
        destruct (IH acc s Hst) as (entry & -> & Hent).
        eexists; split; [done|]. apply Hskip; [done|].
        unfold element_key. simpl. by rewrite Hid.
Qed.

Lemma load_model_cache_of_eq m w server_url project_id commit_id page_size :
  load_model_cache_of m w server_url project_id commit_id page_size
  = load_model_cache_from w
      (get_commit_url server_url project_id commit_id)
      (elements_url_of m server_url project_id commit_id page_size).
Proof. by destruct m. Qed.

(** One bulk load that the server answers with a list: the cache of the
    commit becomes the batch, the other commits keep theirs. *)
Lemma load_model_cache_from_spec w C url txt batch s :
  http_get w url = Response 200 txt (Some (JList batch)) →
  Forall storable batch →
  ∃ n s', load_model_cache_from w C url s = (Ret n, s')
          ∧ (∀ k, cache_lookup s' C k = batch_entry batch k)
          ∧ (∀ C' k, C' ≠ C → cache_lookup s' C' k = cache_lookup s C' k)
          ∧ element_lru s' = element_lru s.
Proof.
  intros Hget Hst.
  destruct (populate_spec batch ∅ (with_trace s [SessionGet url]) Hst)
    as (entry & Hpop & Hent).
  unfold load_model_cache_from, session_get.
  cbv [bind emit ret]. rewrite Hget.
  cbv [status_code negb Z.eqb Pos.eqb response_json py_len ret].
  rewrite Hpop. cbv [get_state set_cache].
  do 2 eexists. split; [done|].
  unfold cache_lookup. cbn [with_cache ELEMENT_CACHE with_trace element_lru].
  split_and!; [| |done].
  - intros k. rewrite lookup_insert_eq. simpl. rewrite Hent.
    by destruct (batch_entry batch k).
  - intros C' k HC. by rewrite lookup_insert_ne.
Qed.

(** C2 (as amended). A bulk load replaces: after two loads for the same
    commit, answered with the batches [batch1] and [batch2], the cache of
    that commit holds exactly the elements of [batch2] (under each id the
    last element of the batch with that id), whatever it held before; the
    caches of the other commits are as they were. *)
Theorem warm_replaces m w1 w2 server_url project_id commit_id p1 p2
    txt1 txt2 batch1 batch2 s :
  let C := get_commit_url server_url project_id commit_id in
  http_get w1 (elements_url_of m server_url project_id commit_id p1)
    = Response 200 txt1 (Some (JList batch1)) →
  Forall storable batch1 →
  http_get w2 (elements_url_of m server_url project_id commit_id p2)
    = Response 200 txt2 (Some (JList batch2)) →
  Forall storable batch2 →
  ∃ n1 s1 n2 s2,
    load_model_cache_of m w1 server_url project_id commit_id p1 s = (Ret n1, s1)
    ∧ load_model_cache_of m w2 server_url project_id commit_id p2 s1 = (Ret n2, s2)
    ∧ (∀ k, cache_lookup s2 C k = batch_entry batch2 k)
    ∧ (∀ C' k, C' ≠ C → cache_lookup s2 C' k = cache_lookup s C' k).
Proof.
  intros C H1 Hst1 H2 Hst2.
  destruct (load_model_cache_from_spec w1 C _ _ _ s H1 Hst1)
    as (n1 & s1 & Hrun1 & _ & Hother1 & _).
  destruct (load_model_cache_from_spec w2 C _ _ _ s1 H2 Hst2)
    as (n2 & s2 & Hrun2 & Hthis2 & Hother2 & _).
  exists n1, s1, n2, s2. rewrite !load_model_cache_of_eq. split_and!; try done.
  intros C' k HC. rewrite Hother2, Hother1; done.
Qed.

Lemma warm_replaces_witness :
  let C := Sample.commit_url in
  ∃ n1 s1 n2 s2,
    Mbse4u.load_model_cache (Sample.serving (JList [Sample.el1]))
      Sample.server "proj1" "commit1" 256 initial = (Ret n1, s1)
    ∧ Mbse4u.load_model_cache (Sample.serving (JList [Sample.el2]))
        Sample.server "proj1" "commit1" 256 s1 = (Ret n2, s2)
    ∧ (∀ k, cache_lookup s2 C k = batch_entry [Sample.el2] k)
    ∧ (∀ C' k, C' ≠ C → cache_lookup s2 C' k = cache_lookup initial C' k).
Proof.
  apply (warm_replaces mbse4u (Sample.serving (JList [Sample.el1]))
           (Sample.serving (JList [Sample.el2]))
           Sample.server "proj1" "commit1" 256 256 "" ""
           [Sample.el1] [Sample.el2] initial).
  - reflexivity.
  - repeat constructor; simpl; eauto.
  - reflexivity.
  - repeat constructor; simpl; eauto.
Defined.

(** C2, as stated, fails: [el1] is loaded by a first bulk load and is in
    the cache; a second bulk load for the same commit with the disjoint
    batch [el2] drops it, and resolving it afterwards goes to the server.
    An element stored by a single fetch is dropped by a bulk load in the
    same way. *)
Lemma warm_accumulates_counterexample :
  let C := Sample.commit_url in
  let load batch :=
    Api.load_model_cache (Sample.serving (JList batch))
      Sample.server "proj1" "commit1" in
  let s1 := (load [Sample.el1] initial).2 in
  let s2 := (load [Sample.el2] s1).2 in
  let put := (Api.get_element_fromAPI (Sample.serving Sample.el1) C (JStr "el1") initial).2 in
  let s3 := (load [Sample.el2] put).2 in
  cache_lookup s1 C (KStr "el1") = Some Sample.el1
  ∧ cache_lookup s2 C (KStr "el1") = None
  ∧ cache_lookup s2 C (KStr "el2") = Some Sample.el2
  ∧ trace (Api.get_element_fromAPI Sample.not_found C (JStr "el1") s2).2
    = (trace s2 ++ [SessionGet (C +:+ "/elements/el1")])%list
  ∧ cache_lookup put C (KStr "el1") = Some Sample.el1
  ∧ cache_lookup s3 C (KStr "el1") = None.
Proof. vm_compute. by split_and!. Qed.

(** ** Remote failures of a query by kind *)

(** C4 (as amended). A non-success response to a query by kind does not
    reach the caller as an error: the [ValueError] that carries the status
    code and the text of the response is raised and caught inside the
    function, printed, and the caller is handed the empty list.  No reply
    at all makes the function raise. *)
Theorem kind_query_failure_becomes_empty_list w server_url project_id commit_id
    kind s :
  let url := query_results_url server_url project_id commit_id in
  let query := primitive_constraint "@type" (py_str w kind) in
  (∀ code txt body,
     http_post w url query = Response code txt body → code ≠ 200 →
     Mbse4u.get_elements_byKind_fromAPI w server_url project_id commit_id kind s
     = (Ret (JList []),
        with_trace s
          [SessionPost url query;
           PrintError (ValueError "Failed to query kinds." (Some (code, txt)))]))
  ∧ ∃ v s',
      Mbse4u.get_elements_byKind_fromAPI w server_url project_id commit_id kind s
      = (Ret v, s').
Proof.
  intros url query.
  unfold Mbse4u.get_elements_byKind_fromAPI, query_kind, try_except,
    session_post, emit, bind. fold url. fold query. split.
  - intros code txt body -> Hcode. unfold ret at 1. cbn [status_code text].
    apply Z.eqb_neq in Hcode. rewrite Hcode. unfold raise, ret.
    unfold with_trace. simpl. by rewrite <-app_assoc.
  - destruct (http_post w url query) as [|code txt body]; unfold ret at 1.
    + unfold raise, ret. eauto.
    + cbn [status_code]. destruct (Z.eqb code 200).
      * destruct body; unfold response_json, raise, ret; eauto.
      * unfold raise, ret. eauto.
Qed.

Lemma kind_query_failure_becomes_empty_list_witness :
  let w := Sample.always (Response 500 "Internal Server Error" None) in
  let url := query_results_url Sample.server "proj1" "commit1" in
  let query := primitive_constraint "@type" "MetadataUsage" in
  Mbse4u.get_elements_byKind_fromAPI w Sample.server "proj1" "commit1"
    (JStr "MetadataUsage") initial
  = (Ret (JList []),
     with_trace initial
       [SessionPost url query;
        PrintError (ValueError "Failed to query kinds."
                      (Some (500, "Internal Server Error")))]).
Proof.
  intros w url query.
  apply (proj1 (kind_query_failure_becomes_empty_list w Sample.server "proj1"
                  "commit1" (JStr "MetadataUsage") initial)
           500 "Internal Server Error" None).
  - reflexivity.
  - discriminate.
Defined.

(** C4, as stated, fails: the server answers a query by kind with status
    500 and the caller gets the empty list, not an error. *)
Lemma kind_query_failure_counterexample :
  (Mbse4u.get_elements_byKind_fromAPI
     (Sample.always (Response 500 "Internal Server Error" None))
     Sample.server "proj1" "commit1" (JStr "MetadataUsage") initial).1
  = Ret (JList [])
  ∧ (Api.get_elements_byKind_fromAPI
       (Sample.always (Response 500 "Internal Server Error" None))
       Sample.server "proj1" "commit1" "MetadataUsage" initial).1
    = Ret (JList []).
Proof. vm_compute. by split. Qed.

(** ** Running the helpers of the main module *)

Lemma bind_ret_l {A B} (a : A) (k : A → M B) : bind (ret a) k = k a.
Proof. reflexivity. Qed.

Lemma bind_raise_l {A B} (e : exn) (k : A → M B) : bind (raise e) k = raise e.
Proof. reflexivity. Qed.

Lemma bind_inv {A B} (c : M A) (k : A → M B) s b s' :
  bind c k s = (Ret b, s') →
  ∃ a s1, c s = (Ret a, s1) ∧ k a s1 = (Ret b, s').
Proof.
  unfold bind. destruct (c s) as [[a|e|] s1]; [eauto|done..].
Qed.

Lemma py_get_default_field x k v dflt :
  field x k = Some v → py_get_default x k dflt = ret v.
Proof. destruct x; try done. simpl. by intros ->. Qed.

Lemma py_get_field x k v : field x k = Some v → py_get x k = ret v.
Proof. apply py_get_default_field. Qed.

Lemma py_get_default_dict x k dflt :
  is_dict x = true → py_get_default x k dflt = ret (default dflt (field x k)).
Proof. by destruct x. Qed.

Lemma py_get_dict x k :
  is_dict x = true → py_get x k = ret (default JNull (field x k)).
Proof. apply py_get_default_dict. Qed.

Lemma field_is_dict x k v : field x k = Some v → is_dict x = true.
Proof. by destruct x. Qed.

Lemma available_truthy m s C k e : available m s C k e → truthy e = true.
Proof.
  intros [Hhit _]. unfold cache_hit in Hhit.
  destruct (cache_lookup s C k) as [e'|]; [|done].
  destruct (truthy e') eqn:He; by simplify_eq.
Qed.

Section runs.
Context (K : string → pykey → json → Prop).

Lemma runs_ret {A} (a : A) : runs K (ret a) [] (Ret a).
Proof. intros s Hs. exists s. by rewrite app_nil_r. Qed.

Lemma runs_raise {A} (e : exn) : runs K (@raise A e) [] (Raise e).
Proof. intros s Hs. exists s. by rewrite app_nil_r. Qed.

Lemma runs_bind {A B} (c : M A) (k : A → M B) a evs1 evs2 evs o :
  runs K c evs1 (Ret a) → runs K (k a) evs2 o → evs = (evs1 ++ evs2)%list →
  runs K (bind c k) evs o.
Proof.
  intros Hc Hk -> s Hs. destruct (Hc s Hs) as (s1 & Hrun1 & Hs1 & Ht1).
  destruct (Hk s1 Hs1) as (s2 & Hrun2 & Hs2 & Ht2).
  exists s2. unfold bind. rewrite Hrun1, Hrun2, Ht2, Ht1.
  by rewrite app_assoc.
Qed.

Lemma runs_bind_raise {A B} (c : M A) (k : A → M B) e evs :
  runs K c evs (Raise e) → runs K (bind c k) evs (Raise e).
Proof.
  intros Hc s Hs. destruct (Hc s Hs) as (s1 & Hrun1 & Hs1 & Ht1).
  exists s1. unfold bind. by rewrite Hrun1.
Qed.

Lemma knows_with_trace s evs : knows K s → knows K (with_trace s evs).
Proof. intros Hs C k e HK. apply (Hs C k e HK). Qed.

Lemma runs_emit {B} ev (k : unit → M B) evs o :
  runs K (k tt) evs o → runs K (bind (emit ev) k) (ev :: evs) o.
Proof.
  intros Hk s Hs.
  destruct (Hk (with_trace s [ev])) as (s2 & Hrun2 & Hs2 & Ht2).
  { by apply knows_with_trace. }
  exists s2. unfold bind, emit. rewrite Hrun2, Ht2. split_and!; [done..|].
  simpl. by rewrite <-app_assoc.
Qed.

Lemma runs_get_element w C x k e :
  K C k e → to_key x = Some k →
  runs K (Mbse4u.get_element_fromAPI w C x) [] (Ret e).
Proof.
  intros HK Hk s Hs.
  destruct (get_element_available mbse4u w C x k e s Hk (Hs _ _ _ HK))
    as (s' & Hrun & Ht & _).
  exists s'. split_and!; [done| |by rewrite app_nil_r].
  intros C' k' e' HK'.
  pose proof (get_element_keeps_available mbse4u w C x s C' k' e'
                (Hs _ _ _ HK')) as Hkeep.
  by rewrite Hrun in Hkeep.
Qed.

Lemma runs_bind_get {B} w C x k e (c : json → M B) evs o :
  K C k e → to_key x = Some k → runs K (c e) evs o →
  runs K (bind (Mbse4u.get_element_fromAPI w C x) c) evs o.
Proof.
  intros HK Hk Hc. by eapply runs_bind; [by eapply runs_get_element|..].
Qed.

Lemma runs_ext {A} (c c' : M A) evs o :
  (∀ s, c s = c' s) → runs K c' evs o → runs K c evs o.
Proof. intros Heq Hc s Hs. rewrite Heq. by apply Hc. Qed.

Lemma runs_bind_assoc {A B D} (c : M A) (f : A → M B) (k : B → M D) evs o :
  runs K (bind c (λ a, bind (f a) k)) evs o →
  runs K (bind (bind c f) k) evs o.
Proof.
  apply runs_ext. intros s. unfold bind. by destruct (c s) as [[a|e|] s1].
Qed.

Lemma runs_truthy C k e : K C k e → (∃ s, knows K s) → truthy e = true.
Proof. intros HK [s Hs]. eapply available_truthy, Hs, HK. Qed.
End runs.

(** ** Specialization *)

Lemma check_specialization_hierarchy_unfold fuel w C element super_element visited :
  Mbse4u.check_specialization_hierarchy (S fuel) w C element super_element visited
  = (let* el_id := py_get element "@id" in
     let* k := lift (to_key el_id) TypeError in
     if bool_decide (k ∈ visited) then ret (false, visited)
     else
       let visited := {[k]} ∪ visited in
       let* _ := py_get super_element "name" in
       emit (PrintHierarchyCheck el_id) ;;
       let* super_id := py_get super_element "@id" in
       if py_eq el_id super_id then ret (true, visited)
       else
         let* owned := py_get_default element "ownedSpecialization" (JList []) in
         let* rel_refs := py_iter owned in
         Mbse4u.walk_specializations
           (λ general_el visited,
              Mbse4u.check_specialization_hierarchy fuel w C general_el
                super_element visited)
           w C rel_refs visited).
Proof. reflexivity. Qed.

Lemma py_item_ref i : py_item (ref i) "@id" = ret (JStr i).
Proof. reflexivity. Qed.

Lemma truthy_ref i : truthy (ref i) = true.
Proof. reflexivity. Qed.

Lemma py_eq_str a b : py_eq (JStr a) (JStr b) = bool_decide (a = b).
Proof.
  simpl. destruct (String.eqb_spec a b).
  - by rewrite bool_decide_eq_true_2.
  - by rewrite bool_decide_eq_false_2.
Qed.

(** One edge of the walk: the specialization [rel] of the element leads to
    [general_el], on which the walk recurses. *)
Lemma runs_walk_edge K (recurse : json → gset pykey → M (bool * gset pykey))
    w C r g rel general_el rest visited evs o :
  K C (KStr r) rel → K C (KStr g) general_el → (∃ s, knows K s) →
  field rel "general" = Some (ref g) →
  runs K (let* res := recurse general_el visited in
          if res.1 then ret (true, res.2)
          else Mbse4u.walk_specializations recurse w C rest res.2) evs o →
  runs K (Mbse4u.walk_specializations recurse w C (ref r :: rest) visited) evs o.
Proof.
  intros Hrel Hgen Hs Hfield Hrest. cbn [Mbse4u.walk_specializations].
  rewrite py_item_ref, bind_ret_l.
  apply (runs_bind_get K w C _ (KStr r) rel); [done..|].
  rewrite (runs_truthy K _ _ _ Hrel Hs).
  rewrite (py_get_field _ _ _ Hfield). 
  rewrite bind_ret_l.
  rewrite truthy_ref, py_item_ref, bind_ret_l.
  apply runs_bind_assoc.
  apply (runs_bind_get K w C _ (KStr g) general_el); [done..|].
  by rewrite (runs_truthy K _ _ _ Hgen Hs).
Qed.

Lemma runs_walk_nil K (recurse : json → gset pykey → M (bool * gset pykey))
    w C visited :
  runs K (Mbse4u.walk_specializations recurse w C [] visited) []
    (Ret (false, visited)).
Proof. apply runs_ret. Qed.

(** The head of a call on an element that was not visited yet and is not
    the one looked for: it is marked as visited, the check is printed, and
    the walk over its specializations starts. *)
Lemma runs_check_enter K fuel w C element super_element i t rel_refs visited evs o :
  field element "@id" = Some (JStr i) →
  field super_element "@id" = Some (JStr t) → i ≠ t →
  KStr i ∉ visited →
  field element "ownedSpecialization" = Some (JList rel_refs) →
  runs K (Mbse4u.walk_specializations
            (λ general_el visited,
               Mbse4u.check_specialization_hierarchy fuel w C general_el
                 super_element visited)
            w C rel_refs ({[KStr i]} ∪ visited)) evs o →
  runs K (Mbse4u.check_specialization_hierarchy (S fuel) w C element
            super_element visited)
       (PrintHierarchyCheck (JStr i) :: evs) o.
Proof.
  intros Hid Hsid Hne Hfresh Hspec Hwalk.
  rewrite check_specialization_hierarchy_unfold.
  rewrite (py_get_field _ _ _ Hid), bind_ret_l. cbn [to_key lift].
  rewrite bind_ret_l, bool_decide_eq_false_2; [|done]. cbv zeta.
  rewrite (py_get_dict super_element "name"); [|by eapply field_is_dict].
  rewrite bind_ret_l. apply runs_emit.
  rewrite (py_get_field _ _ _ Hsid), bind_ret_l.
  rewrite py_eq_str, bool_decide_eq_false_2; [|done].
  rewrite (py_get_default_field _ _ _ _ Hspec), bind_ret_l.
  cbn [py_iter]. by rewrite bind_ret_l.
Qed.

(** A call on an element that was visited already returns at once. *)
Lemma runs_check_visited K fuel w C element super_element i visited :
  field element "@id" = Some (JStr i) → KStr i ∈ visited →
  runs K (Mbse4u.check_specialization_hierarchy (S fuel) w C element
            super_element visited) [] (Ret (false, visited)).
Proof.
  intros Hid Hin. rewrite check_specialization_hierarchy_unfold.
  rewrite (py_get_field _ _ _ Hid), bind_ret_l. cbn [to_key lift].
  rewrite bind_ret_l, bool_decide_eq_true_2; [|done]. apply runs_ret.
Qed.

(** C5. Termination on a cycle: when [A] specializes [B] and [B]
    specializes [A] (through the relationships [RAB] and [RBA], all four
    resolvable from the caches), the check of [A] against an element that is
    neither of them returns [False] as soon as the call depth may reach 3;
    [A] and [B] are checked once each, in this order, they are what the
    [visited] set of the call ends with, and nothing is requested. *)
Theorem specialization_cycle_terminates w C s a b t rab rba A B RAB RBA T fuel :
  a ≠ b → t ≠ a → t ≠ b →
  field A "@id" = Some (JStr a) →
  field A "ownedSpecialization" = Some (JList [ref rab]) →
  field RAB "general" = Some (ref b) →
  field B "@id" = Some (JStr b) →
  field B "ownedSpecialization" = Some (JList [ref rba]) →
  field RBA "general" = Some (ref a) →
  field T "@id" = Some (JStr t) →
  available mbse4u s C (KStr a) A → available mbse4u s C (KStr rab) RAB →
  available mbse4u s C (KStr b) B → available mbse4u s C (KStr rba) RBA →
  (3 ≤ fuel)%nat →
  ∃ s',
    Mbse4u.check_specialization_hierarchy fuel w C A T ∅ s
    = (Ret (false, {[KStr b]} ∪ ({[KStr a]} ∪ ∅)), s')
    ∧ trace s'
      = (trace s ++ [PrintHierarchyCheck (JStr a);
                     PrintHierarchyCheck (JStr b)])%list.
Proof.
  intros Hab Hta Htb HA HAs HRAB HB HBs HRBA HT HavA HavRAB HavB HavRBA Hfuel.
  destruct fuel as [|[|[|fuel]]]; [lia..|].
  set (K := λ C' k e, available mbse4u s C' k e).
  assert (knows K s) as Hs by (by intros ???).
  assert (∃ s, knows K s) as HsK by eauto.
  cut (runs K (Mbse4u.check_specialization_hierarchy (S (S (S fuel))) w C A T ∅)
         [PrintHierarchyCheck (JStr a); PrintHierarchyCheck (JStr b)]
         (Ret (false, {[KStr b]} ∪ ({[KStr a]} ∪ ∅)))).
  { intros Hruns. destruct (Hruns s Hs) as (s' & ? & _ & ?). eauto. }
  eapply runs_check_enter; [done|done|congruence|apply not_elem_of_empty|done|].
  eapply (runs_walk_edge K _ w C rab b RAB B); [done..|].
  eapply (runs_bind K _ _ _ [PrintHierarchyCheck (JStr b)] []);
    [| |by rewrite app_nil_r].
  - eapply runs_check_enter; [done|done|congruence| |done|].
    { set_unfold. intros [?|[]]. congruence. }
    eapply (runs_walk_edge K _ w C rba a RBA A); [done..|].
    eapply (runs_bind K _ _ _ [] []); [| |done].
    + apply (runs_check_visited K _ w C A T a); [done|].
      set_unfold. auto.
    + apply runs_walk_nil.
  - apply runs_walk_nil.
Qed.

Lemma specialization_cycle_terminates_witness :
  ∃ s',
    Mbse4u.check_specialization_hierarchy 3 Sample.not_found Sample.commit_url
      Sample.part_A Sample.part_T ∅ (Sample.warmed Sample.cycle)
    = (Ret (false, {[KStr "B"]} ∪ ({[KStr "A"]} ∪ ∅)), s')
    ∧ trace s'
      = (trace (Sample.warmed Sample.cycle)
           ++ [PrintHierarchyCheck (JStr "A"); PrintHierarchyCheck (JStr "B")])%list.
Proof.
  apply (specialization_cycle_terminates Sample.not_found Sample.commit_url
           (Sample.warmed Sample.cycle) "A" "B" "T" "A-B" "B-A"
           Sample.part_A Sample.part_B Sample.A_specializes_B
           Sample.B_specializes_A Sample.part_T 3).
  1-3: discriminate.
  1-7: reflexivity.
  1-4: split; [vm_compute; reflexivity | left; reflexivity].
  lia.
Defined.

Lemma bind_run {A B} (c : M A) (k : A → M B) s a s' :
  c s = (Ret a, s') → bind c k s = k a s'.
Proof. unfold bind. by intros ->. Qed.

Lemma py_get_inv x k s v s' :
  py_get x k s = (Ret v, s') →
  is_dict x = true ∧ v = default JNull (field x k) ∧ s' = s.
Proof.
  destruct x; try done. cbv [py_get py_get_default ret]. intros [= <- <-].
  split_and!; try done.
Qed.

Lemma py_eq_key_refl x k : to_key x = Some k → py_eq x x = true.
Proof.
  destruct x as [|[]|z|str| |]; try done; simpl; intros _.
  - apply Z.eqb_refl.
  - apply String.eqb_refl.
Qed.

Lemma for_fold_ret_inv {A B} (P : B → Prop) (body : B → A → M B) l :
  (∀ acc x s r s', P acc → body acc x s = (Ret r, s') → P r) →
  ∀ acc s r s', P acc → for_fold l acc body s = (Ret r, s') → P r.
Proof.
  intros Hbody. induction l as [|x l IH]; intros acc s r s' Hacc Hrun.
  - cbv [for_fold ret] in Hrun. by simplify_eq.
  - cbn [for_fold] in Hrun.
    apply bind_inv in Hrun as (acc' & s1 & Hstep & Hrun). eauto.
Qed.

(** The check of a record against itself. *)
Lemma check_specialization_hierarchy_self fuel w C X k s :
  is_dict X = true → to_key (default JNull (field X "@id")) = Some k →
  Mbse4u.check_specialization_hierarchy (S fuel) w C X X ∅ s
  = (Ret (true, {[k]} ∪ ∅),
     with_trace s [PrintHierarchyCheck (default JNull (field X "@id"))]).
Proof.
  intros HX Hk. rewrite check_specialization_hierarchy_unfold.
  rewrite !(py_get_dict X); [|done..]. rewrite bind_ret_l.
  rewrite Hk. cbn [lift]. rewrite bind_ret_l.
  rewrite bool_decide_eq_false_2; [|apply not_elem_of_empty]. cbv zeta.
  cbv [bind emit ret]. by rewrite (py_eq_key_refl _ k).
Qed.

(** What one iteration of the loop of [find_elements_specializing] may do
    to the list of found elements. *)
Lemma find_elements_specializing_step fuel w C super_element element_kind
    found_elements el s r s' :
  (let* skip :=
     match element_kind with
     | Some kind =>
         if truthy (JStr kind) then
           let* ty := py_get el "@type" in ret (negb (py_eq ty (JStr kind)))
         else ret false
     | None => ret false
     end in
   if skip : bool then ret found_elements
   else
     let* r := Mbse4u.check_specialization_hierarchy fuel w C el super_element ∅ in
     if r.1 then
       let* el_id := py_get el "@id" in
       let* super_id := py_get super_element "@id" in
       if negb (py_eq el_id super_id)
       then ret (found_elements ++ [el])%list
       else ret found_elements
     else ret found_elements) s = (Ret r, s') →
  r = found_elements
  ∨ r = (found_elements ++ [el])%list
    ∧ py_eq (default JNull (field el "@id"))
            (default JNull (field super_element "@id")) = false.
Proof.
  intros Hrun. apply bind_inv in Hrun as (skip & s1 & _ & Hrun).
  destruct skip; [left; by injection Hrun|].
  apply bind_inv in Hrun as (r0 & s2 & _ & Hrun).
  destruct (r0.1); [|left; by injection Hrun].
  apply bind_inv in Hrun as (el_id & s3 & (_ & -> & ->)%py_get_inv & Hrun).
  apply bind_inv in Hrun as (super_id & s4 & (_ & -> & ->)%py_get_inv & Hrun).
  destruct (py_eq _ _) eqn:Heq; simpl in Hrun.
  - left. by injection Hrun.
  - right. by injection Hrun.
Qed.

(** The iteration on the supertype itself adds nothing. *)
Lemma find_elements_specializing_self fuel w C X k element_kind found_elements s :
  is_dict X = true → to_key (default JNull (field X "@id")) = Some k →
  ∃ s',
    (let* skip :=
       match element_kind with
       | Some kind =>
           if truthy (JStr kind) then
             let* ty := py_get X "@type" in ret (negb (py_eq ty (JStr kind)))
           else ret false
       | None => ret false
       end in
     if skip : bool then ret found_elements
     else
       let* r := Mbse4u.check_specialization_hierarchy (S fuel) w C X X ∅ in
       if r.1 then
         let* el_id := py_get X "@id" in
         let* super_id := py_get X "@id" in
         if negb (py_eq el_id super_id)
         then ret (found_elements ++ [X])%list
         else ret found_elements
       else ret found_elements) s = (Ret found_elements, s').
Proof.
  intros HX Hk.
  assert (∃ s',
    (let* r := Mbse4u.check_specialization_hierarchy (S fuel) w C X X ∅ in
     if r.1 then
       let* el_id := py_get X "@id" in
       let* super_id := py_get X "@id" in
       if negb (py_eq el_id super_id)
       then ret (found_elements ++ [X])%list
       else ret found_elements
     else ret found_elements) s = (Ret found_elements, s')) as Hcheck.
  { unfold bind at 1.
    rewrite (check_specialization_hierarchy_self _ _ _ _ k); [|done..].
    cbn [fst]. rewrite !(py_get_dict X); [|done..]. rewrite !bind_ret_l.
    rewrite (py_eq_key_refl _ k); [|done]. by eexists. }
  destruct element_kind as [kind|]; [destruct (truthy (JStr kind))|].
  - rewrite (py_get_dict X); [|done]. rewrite !bind_ret_l.
    destruct (negb _); [by eexists|done].
  - by rewrite bind_ret_l.
  - by rewrite bind_ret_l.
Qed.

(** C6. Reflexivity by identity, and self exclusion: the check of a record
    [X] against itself returns [True] (for every [X] whose id can be put
    into the [visited] set); and when the lookup of the supertype by its
    qualified name yields [X] first, [find_elements_specializing] returns
    the empty list for the candidates [[X]], and whatever list it returns
    for other candidates contains neither [X] nor any element with the id
    of [X]. *)
Theorem specialization_reflexive_self_excluded w server_url project_id commit_id
    X k name element_kind fuel s :
  let C := get_commit_url server_url project_id commit_id in
  let xid := default JNull (field X "@id") in
  is_dict X = true → to_key xid = Some k →
  (∃ s', Mbse4u.check_specialization_hierarchy (S fuel) w C X X ∅ s
         = (Ret (true, {[k]} ∪ ∅), s'))
  ∧ ∀ rest s1,
      Mbse4u.get_elements_byProperty_fromAPI w server_url project_id commit_id
        "qualifiedName" name s = (Ret (JList (X :: rest)), s1) →
      (∃ s2, Mbse4u.find_elements_specializing (S fuel) w server_url project_id
               commit_id [X] name element_kind s = (Ret [], s2))
      ∧ ∀ fuel' elements found s2,
          Mbse4u.find_elements_specializing fuel' w server_url project_id
            commit_id elements name element_kind s = (Ret found, s2) →
          (X ∉ found)
          ∧ (∀ el, el ∈ found →
                   py_eq (default JNull (field el "@id")) xid = false).
Proof.
  intros C xid HX Hk. split.
  { eexists. by apply check_specialization_hierarchy_self. }
  intros rest s1 Hlookup. split.
  - unfold Mbse4u.find_elements_specializing, bind at 1. rewrite Hlookup.
    cbn [truthy py_first]. rewrite bind_ret_l, (py_get_dict X); [|done].
    rewrite bind_ret_l. cbn [for_fold]. fold C.
    destruct (find_elements_specializing_self fuel w C X k element_kind [] s1)
      as [s2 Hstep]; [done..|].
    exists s2. by rewrite (bind_run _ _ _ _ _ Hstep).
  - intros fuel' elements found s2 Hrun.
    assert (∀ el, el ∈ found → py_eq (default JNull (field el "@id")) xid = false)
      as Hfound.
    { unfold Mbse4u.find_elements_specializing, bind at 1 in Hrun.
      rewrite Hlookup in Hrun. cbn [py_first] in Hrun.
      change (truthy (JList (X :: rest))) with true in Hrun. cbv iota in Hrun.
      rewrite bind_ret_l in Hrun.
      apply bind_inv in Hrun as (? & ? & _ & Hrun).
      eapply (for_fold_ret_inv
                (λ l : list json,
                   ∀ el, el ∈ l → py_eq (default JNull (field el "@id")) xid = false));
        [| |exact Hrun].
      - intros acc el s0 r s' Hacc Hstep.
        apply find_elements_specializing_step in Hstep as [->|[-> Hne]]; [done|].
        intros el' [?| ->%list_elem_of_singleton]%elem_of_app; auto.
      - by intros el ?%elem_of_nil. }
    split; [|done]. intros HXin. apply Hfound in HXin.
    rewrite (py_eq_key_refl _ k) in HXin; done.
Qed.

Lemma specialization_reflexive_self_excluded_witness :
  (∃ s', Mbse4u.check_specialization_hierarchy 1 Sample.model_server
           Sample.commit_url Sample.part_T Sample.part_T ∅ initial
         = (Ret (true, {[KStr "T"]} ∪ ∅), s'))
  ∧ ∃ s2, Mbse4u.find_elements_specializing 1 Sample.model_server Sample.server
            "proj1" "commit1" [Sample.part_T] "Pkg::T" None initial
          = (Ret [], s2).
Proof.
  destruct (specialization_reflexive_self_excluded Sample.model_server
              Sample.server "proj1" "commit1" Sample.part_T (KStr "T") "Pkg::T"
              None 0 initial) as [Hself Hfind]; [reflexivity..|].
  split; [exact Hself|].
  destruct (Hfind [JList []]
              (Mbse4u.get_elements_byProperty_fromAPI Sample.model_server
                 Sample.server "proj1" "commit1" "qualifiedName" "Pkg::T"
                 initial).2) as [Hx _].
  - vm_compute. reflexivity.
  - exact Hx.
Defined.

(** *** No element is checked twice *)

Lemma union_empty_r_pykey (X : gset pykey) : X ∪ ∅ = X.
Proof. apply (right_id_L ∅ (∪)). Qed.

Lemma checks_fresh_refl visited s : checks_fresh visited s visited s.
Proof.
  exists []. rewrite app_nil_r. split_and!; [done|constructor| |].
  - by intros k ?%elem_of_nil.
  - cbn. by rewrite union_empty_r_pykey.
Qed.

Lemma checked_keys_app evs1 evs2 :
  checked_keys (evs1 ++ evs2) = (checked_keys evs1 ++ checked_keys evs2)%list.
Proof. apply omap_app. Qed.

Lemma checks_fresh_trans v1 s1 v2 s2 v3 s3 :
  checks_fresh v1 s1 v2 s2 → checks_fresh v2 s2 v3 s3 →
  checks_fresh v1 s1 v3 s3.
Proof.
  intros (evs1 & Ht1 & Hnd1 & Hf1 & ->) (evs2 & Ht2 & Hnd2 & Hf2 & ->).
  exists (evs1 ++ evs2)%list. rewrite checked_keys_app. split_and!.
  - by rewrite Ht2, Ht1, app_assoc.
  - apply NoDup_app. split_and!; [done| |done].
    intros k Hk1 Hk2. apply (Hf2 k Hk2). apply elem_of_union_r.
    by apply elem_of_list_to_set.
  - intros k [Hk|Hk]%elem_of_app; [by apply Hf1|].
    intros Hin. apply (Hf2 k Hk). by apply elem_of_union_l.
  - by rewrite list_to_set_app_L, (assoc_L (∪)).
Qed.

Lemma fetch_element_silent w C x s o s' :
  fetch_element w C x s = (o, s') →
  ∃ evs, trace s' = (trace s ++ evs)%list ∧ checked_keys evs = [].
Proof.
  intros Hrun.
  destruct (fetch_element_cases w C x s)
    as [(k & e & _ & _ & Heq)|[(i & -> & Hhit)|[_ Heq]]].
  - rewrite Heq in Hrun. injection Hrun as _ <-. exists []. by rewrite app_nil_r.
  - rewrite fetch_element_miss in Hrun; [|done]. cbv zeta in Hrun.
    exists [SessionGet (C +:+ "/elements/" +:+ i)]. split; [|done].
    destruct (http_get w _) as [|code txt [j|]].
    + by injection Hrun as _ <-.
    + destruct (Z.eqb code 200); [|by injection Hrun as _ <-].
      destruct (truthy _); by injection Hrun as _ <-.
    + destruct (Z.eqb code 200); by injection Hrun as _ <-.
  - rewrite Heq in Hrun. injection Hrun as _ <-. exists []. by rewrite app_nil_r.
Qed.

Lemma get_element_silent w C x s o s' visited :
  Mbse4u.get_element_fromAPI w C x s = (o, s') →
  checks_fresh visited s visited s'.
Proof.
  intros Hrun.
  assert (∃ evs, trace s' = (trace s ++ evs)%list ∧ checked_keys evs = [])
    as (evs & Ht & Hevs).
  { rewrite mbse4u_get_element_eq in Hrun.
    destruct (to_key x) as [k|].
    2:{ injection Hrun as _ <-. exists []. by rewrite app_nil_r. }
    destruct (lru_find _ _).
    { injection Hrun as _ <-. exists []. by rewrite app_nil_r. }
    destruct (fetch_element w C x s) as [o1 s1] eqn:Hf.
    apply fetch_element_silent in Hf as (evs & Ht & Hevs).
    destruct o1 as [e|e|]; injection Hrun as _ <-.
    - by exists evs.
    - exists (evs ++ [PrintError e])%list. cbn [with_trace trace].
      rewrite Ht, app_assoc. split; [done|].
      by rewrite checked_keys_app, Hevs.
    - by exists evs. }
  exists evs. rewrite Hevs. split_and!; [done|constructor| |].
  - by intros k ?%elem_of_nil.
  - cbn. by rewrite union_empty_r_pykey.
Qed.

Lemma py_item_inv x k s v s' : py_item x k s = (Ret v, s') → s' = s.
Proof.
  destruct x; try done. cbn. destruct (assoc k d); [|done].
  by intros [= _ <-].
Qed.

Lemma py_get_default_inv x k d s v s' :
  py_get_default x k d s = (Ret v, s') → s' = s.
Proof. destruct x; try done. by intros [= _ <-]. Qed.

Lemma py_iter_inv x s l s' : py_iter x s = (Ret l, s') → s' = s.
Proof. destruct x; try done; by intros [= _ <-]. Qed.

Lemma lift_inv {A} (o : option A) e s a s' :
  lift o e s = (Ret a, s') → o = Some a ∧ s' = s.
Proof. destruct o; [|done]. by intros [= <- <-]. Qed.

Lemma walk_never_revisits
    (recurse : json → gset pykey → M (bool * gset pykey)) w C :
  (∀ el visited s b visited' s',
     recurse el visited s = (Ret (b, visited'), s') →
     checks_fresh visited s visited' s') →
  ∀ rel_refs visited s b visited' s',
    Mbse4u.walk_specializations recurse w C rel_refs visited s
    = (Ret (b, visited'), s') →
    checks_fresh visited s visited' s'.
Proof.
  intros Hrec. induction rel_refs as [|rel_ref rest IH];
    intros visited s b visited' s' Hrun.
  { injection Hrun as _ <- <-. apply checks_fresh_refl. }
  cbn [Mbse4u.walk_specializations] in Hrun.
  apply bind_inv in Hrun as (rid & s1 & ->%py_item_inv & Hrun).
  apply bind_inv in Hrun as (rel & s2 & Hrel & Hrun).
  apply (get_element_silent _ _ _ _ _ _ visited) in Hrel.
  apply bind_inv in Hrun as ([b1 v1] & s3 & Hstep & Hrun).
  assert (checks_fresh visited s2 v1 s3) as Hfresh.
  { destruct (truthy rel).
    2:{ injection Hstep as _ <- <-. apply checks_fresh_refl. }
    apply bind_inv in Hstep as (general & s4 & (_ & _ & ->)%py_get_inv & Hstep).
    destruct (truthy general).
    2:{ injection Hstep as _ <- <-. apply checks_fresh_refl. }
    apply bind_inv in Hstep as (gid & s5 & ->%py_item_inv & Hstep).
    apply bind_inv in Hstep as (general_el & s6 & Hgen & Hstep).
    apply (get_element_silent _ _ _ _ _ _ visited) in Hgen.
    destruct (truthy general_el).
    2:{ injection Hstep as _ <- <-. exact Hgen. }
    eapply checks_fresh_trans; [exact Hgen|]. by eapply Hrec. }
  cbn [fst snd] in Hrun.
  eapply checks_fresh_trans; [exact Hrel|].
  eapply checks_fresh_trans; [exact Hfresh|].
  destruct b1.
  - injection Hrun as _ <- <-. apply checks_fresh_refl.
  - by eapply IH.
Qed.

(** Within one call of [check_specialization_hierarchy], whatever the model
    and whatever the server answers, no element is checked twice: a call
    that returns has printed the check of pairwise different elements, none
    of which was in the [visited] set it started with. *)
Lemma check_never_revisits fuel : ∀ w C element super_element visited s b visited' s',
  Mbse4u.check_specialization_hierarchy fuel w C element super_element visited s
  = (Ret (b, visited'), s') →
  checks_fresh visited s visited' s'.
Proof.
  induction fuel as [|fuel IH];
    intros w C element super_element visited s b visited' s' Hrun; [done|].
  rewrite check_specialization_hierarchy_unfold in Hrun.
  apply bind_inv in Hrun as (el_id & s1 & (_ & _ & ->)%py_get_inv & Hrun).
  apply bind_inv in Hrun as (k & s2 & [Hk ->]%lift_inv & Hrun).
  destruct (bool_decide (k ∈ visited)) eqn:Hvisited.
  { injection Hrun as _ <- <-. apply checks_fresh_refl. }
  apply bool_decide_eq_false in Hvisited. cbv zeta in Hrun.
  apply bind_inv in Hrun as (? & s3 & (_ & _ & ->)%py_get_inv & Hrun).
  apply bind_inv in Hrun as ([] & s4 & Hemit & Hrun).
  injection Hemit as <-.
  assert (checks_fresh visited s ({[k]} ∪ visited)
            (with_trace s [PrintHierarchyCheck el_id])) as Henter.
  { exists [PrintHierarchyCheck el_id]. cbn. rewrite Hk. cbn.
    split_and!; [done|apply NoDup_singleton| |].
    - by intros k' ->%list_elem_of_singleton.
    - rewrite union_empty_r_pykey. apply (comm_L (∪)). }
  apply bind_inv in Hrun as (super_id & s5 & (_ & _ & ->)%py_get_inv & Hrun).
  destruct (py_eq el_id super_id).
  { by injection Hrun as _ <- <-. }
  apply bind_inv in Hrun as (owned & s6 & ->%py_get_default_inv & Hrun).
  apply bind_inv in Hrun as (rel_refs & s7 & ->%py_iter_inv & Hrun).
  eapply checks_fresh_trans; [exact Henter|].
  eapply walk_never_revisits; [|exact Hrun].
  intros el v s0 b0 v' s0'. apply IH.
Qed.

(** ** Queries by property *)

Section finishes.
Lemma finishes_ret {A} (a : A) : finishes (ret a).
Proof. by intros s. Qed.

Lemma finishes_raise {A} e : finishes (@raise A e).
Proof. by intros s. Qed.

Lemma finishes_bind {A B} (c : M A) (k : A → M B) :
  finishes c → (∀ a, finishes (k a)) → finishes (bind c k).
Proof.
  intros Hc Hk s. unfold bind. specialize (Hc s).
  destruct (c s) as [[a|e|] s1]; [apply Hk|done..].
Qed.

Lemma finishes_try_except {A} (c : M A) h :
  finishes c → (∀ e, finishes (h e)) → finishes (try_except c h).
Proof.
  intros Hc Hh s. unfold try_except. specialize (Hc s).
  destruct (c s) as [[a|e|] s1]; [done|apply Hh|done].
Qed.

Lemma finishes_for_fold {A B} (l : list A) (body : B → A → M B) acc :
  (∀ acc x, finishes (body acc x)) → finishes (for_fold l acc body).
Proof.
  intros Hbody. revert acc. induction l as [|x l IH]; intros acc.
  - apply finishes_ret.
  - by apply finishes_bind.
Qed.

Lemma finishes_lift {A} (o : option A) e : finishes (lift o e).
Proof. by destruct o. Qed.

Lemma finishes_emit ev : finishes (emit ev).
Proof. by intros s. Qed.

Lemma finishes_py_get_default x k d : finishes (py_get_default x k d).
Proof. by destruct x. Qed.

Lemma finishes_py_get x k : finishes (py_get x k).
Proof. apply finishes_py_get_default. Qed.

Lemma finishes_py_item x k : finishes (py_item x k).
Proof. destruct x; try done. apply finishes_lift. Qed.

Lemma finishes_py_iter x : finishes (py_iter x).
Proof. by destruct x. Qed.

Lemma finishes_response_json r : finishes (response_json r).
Proof. by destruct r as [|? ? []]. Qed.

Lemma finishes_session_post w url q : finishes (session_post w url q).
Proof.
  apply finishes_bind; [apply finishes_emit|]. intros _.
  by destruct (http_post w url q).
Qed.

Lemma finishes_query_kind w server_url project_id commit_id kind :
  finishes (query_kind w server_url project_id commit_id kind).
Proof.
  apply finishes_try_except.
  - apply finishes_bind; [apply finishes_session_post|]. intros r.
    destruct (Z.eqb _ _); [apply finishes_response_json|apply finishes_raise].
  - intros e. apply finishes_bind; [apply finishes_emit|]. intros _.
    apply finishes_ret.
Qed.

Lemma finishes_get_element w C x : finishes (Mbse4u.get_element_fromAPI w C x).
Proof.
  intros s. rewrite mbse4u_get_element_eq.
  destruct (to_key x); [|done]. destruct (lru_find _ _); [done|].
  destruct (fetch_element w C x s) as [o s1] eqn:Hf.
  apply fetch_element_spec in Hf as (_ & _ & Hfin & _). by destruct o.
Qed.

Lemma finishes_redefinitions_of w C property value el acc :
  finishes (Mbse4u.redefinitions_of w C property value el acc).
Proof.
  apply finishes_bind; [apply finishes_py_get_default|]. intros owned.
  apply finishes_bind; [apply finishes_py_iter|]. intros ids.
  apply finishes_for_fold. intros acc' relationshipID.
  apply finishes_bind; [apply finishes_py_item|]. intros rid.
  apply finishes_bind; [apply finishes_get_element|]. intros relationship.
  apply finishes_bind; [apply finishes_py_get|]. intros rtype.
  destruct (py_eq _ _); [|apply finishes_ret].
  apply finishes_bind; [apply finishes_py_get|]. intros redefinedFeature.
  apply finishes_bind; [apply finishes_py_get|]. intros redefinedFeatureID.
  apply finishes_bind; [apply finishes_get_element|]. intros redefinedElement.
  apply finishes_bind; [apply finishes_py_get|]. intros found.
  destruct (py_eq _ _); apply finishes_ret.
Qed.
End finishes.

(** C9. What [get_elements_byProperty_fromAPI] returns is never a flat
    list of element records: the call always returns, and its result is
    either the empty list (after a failure, which is printed) or the list
    of the elements the query matched followed by one more item, the list
    [additional_elements] itself, which the function appends as a whole. *)
Theorem property_query_result_is_nested w server_url project_id commit_id
    property value s :
  ∃ v s',
    Mbse4u.get_elements_byProperty_fromAPI w server_url project_id commit_id
      property value s = (Ret v, s')
    ∧ (v = JList []
       ∨ ∃ matched additional_elements,
           v = JList (matched ++ [JList additional_elements])).
Proof.
  unfold Mbse4u.get_elements_byProperty_fromAPI, try_except.
  match goal with |- context [match ?c s with _ => _ end] => set (body := c) end.
  assert (finishes body) as Hfin.
  { apply finishes_bind; [apply finishes_session_post|]. intros r.
    destruct (Z.eqb _ _); [|apply finishes_raise].
    apply finishes_bind; [apply finishes_response_json|]. intros j.
    apply finishes_bind; [apply finishes_py_iter|]. intros found.
    apply finishes_bind; [|intros add; destruct j; by intros ?].
    apply finishes_for_fold. intros acc element.
    apply finishes_bind; [apply finishes_py_get_default|]. intros kind.
    apply finishes_bind; [apply finishes_query_kind|]. intros same.
    apply finishes_bind; [apply finishes_py_iter|]. intros els.
    apply finishes_for_fold. intros acc' el.
    apply finishes_bind; [apply finishes_py_get|]. intros el_id.
    apply finishes_bind; [apply finishes_py_get|]. intros element_id.
    destruct (negb _); [apply finishes_redefinitions_of|apply finishes_ret]. }
  specialize (Hfin s). destruct (body s) as [[v|e|] s1] eqn:Hbody; [| |done].
  - exists v, s1. split; [done|]. right. subst body.
    apply bind_inv in Hbody as (r & s2 & _ & Hbody).
    destruct (Z.eqb _ _); [|done].
    apply bind_inv in Hbody as (j & s3 & _ & Hbody).
    apply bind_inv in Hbody as (found & s4 & _ & Hbody).
    apply bind_inv in Hbody as (add & s5 & _ & Hbody).
    destruct j as [| | | |l|]; try done. injection Hbody as <- _. eauto.
  - eexists _, _. split; [reflexivity|]. by left.
Qed.

(** The query of the sample server by qualified name: the matched record
    is followed by the empty list of additional elements. *)
Example property_query_nested_example :
  (Mbse4u.get_elements_byProperty_fromAPI Sample.model_server Sample.server
     "proj1" "commit1" "qualifiedName" "Pkg::T" initial).1
  = Ret (JList [Sample.part_T; JList []]).
Proof. vm_compute. reflexivity. Qed.

(** ** Features *)

Section runs_more.
Context (K : string → pykey → json → Prop).

Lemma runs_try_except {A} (c : M A) h evs a :
  runs K c evs (Ret a) → runs K (try_except c h) evs (Ret a).
Proof.
  intros Hc s Hs. destruct (Hc s Hs) as (s' & Hrun & ?).
  exists s'. unfold try_except. by rewrite Hrun.
Qed.

(** [get_elements_fromAPI] on ids that are all available. *)
Lemma runs_get_elements w C ids es : ∀ acc,
  Forall2 (λ i e, K C (KStr i) e ∧ is_dict e = true) ids es →
  runs K
    (for_fold (JStr <$> ids) acc (λ elements element_id,
       try_except
         (let* element_json := Mbse4u.get_element_fromAPI w C element_id in
          match element_json with
          | JList l => ret (elements ++ l)%list
          | _ => ret (elements ++ [element_json])%list
          end)
         (λ e, emit (PrintError e) ;; ret elements)))
    [] (Ret (acc ++ es)%list).
Proof.
  intros acc Hall. revert acc.
  induction Hall as [|i e ids es [HK He] _ IH]; intros acc.
  - rewrite app_nil_r. apply runs_ret.
  - cbn [fmap list_fmap for_fold].
    eapply (runs_bind K _ _ (acc ++ [e])%list [] []); [| |done].
    + apply runs_try_except.
      apply (runs_bind_get K w C _ (KStr i) e); [done..|].
      destruct e; try done. apply runs_ret.
    + replace (acc ++ e :: es)%list with ((acc ++ [e]) ++ es)%list
        by (by rewrite <-app_assoc).
      apply IH.
Qed.
End runs_more.

Lemma feature_ids_of_refs ids : ∀ acc s,
  for_fold (ref <$> ids) acc
    (λ ids p, let* id := py_item p "@id" in ret (ids ++ [id])%list) s
  = (Ret (acc ++ (JStr <$> ids))%list, s).
Proof.
  induction ids as [|i ids IH]; intros acc s.
  - cbn. by rewrite app_nil_r.
  - cbn [fmap list_fmap for_fold]. rewrite py_item_ref, bind_ret_l.
    unfold bind at 1. cbv [ret]. fold (@ret (list json)).
    change (for_fold (list_fmap string json ref ids)) with (for_fold (ref <$> ids)).
    rewrite IH. by rewrite <-app_assoc.
Qed.

Lemma is_feature_dict feature_kind feature_name e :
  is_dict e = true →
  Mbse4u.is_feature feature_kind feature_name e
  = ret (is_wanted feature_kind feature_name e).
Proof.
  intros He. unfold Mbse4u.is_feature, is_wanted.
  rewrite !(py_get_dict e); [|done..]. rewrite bind_ret_l.
  destruct (py_eq _ _); [|done]. by rewrite bind_ret_l.
Qed.

Lemma no_wanted_feature feature_kind feature_name es s :
  Forall (λ e, is_dict e = true ∧ is_wanted feature_kind feature_name e = false) es →
  for_return es (λ usage,
    let* hit := Mbse4u.is_feature feature_kind feature_name usage in
    ret (if hit : bool then Some usage else None)) s
  = (Ret None, s).
Proof.
  induction 1 as [|e es [He Hno] _ IH]; [done|].
  cbn [for_return]. rewrite is_feature_dict; [|done].
  rewrite bind_ret_l, Hno, bind_ret_l. apply IH.
Qed.

(** C10. An owner without an [inheritedFeature] key whose direct features
    of the requested kind (all resolvable from the caches) do not contain
    the requested name: [get_feature] evaluates [len(None)] and raises
    [TypeError], and so does [get_feature_value]; neither returns [None]. *)
Theorem get_feature_raises_without_inherited w server_url project_id commit_id
    owner feature_name feature_kind ids es s :
  let C := get_commit_url server_url project_id commit_id in
  is_dict owner = true →
  field owner "inheritedFeature" = None →
  direct_features owner feature_kind = JList (ref <$> ids) →
  Forall2 (λ i e, available mbse4u s C (KStr i) e ∧ is_dict e = true
                  ∧ is_wanted feature_kind feature_name e = false) ids es →
  (∃ s', Mbse4u.get_feature w server_url project_id commit_id owner
           feature_name feature_kind s = (Raise TypeError, s'))
  ∧ (∃ s', Mbse4u.get_feature_value w server_url project_id commit_id owner
             feature_name feature_kind s = (Raise TypeError, s')).
Proof.
  intros C Hown Hinh Hdirect Hall.
  set (K := λ C' k e, available mbse4u s C' k e).
  assert (knows K s) as Hs by (by intros ???).
  assert (runs K (Mbse4u.get_feature w server_url project_id commit_id owner
                    feature_name feature_kind) [] (Raise TypeError)) as Hruns.
  { unfold Mbse4u.get_feature. fold C.
    rewrite (py_get_dict owner "@id"); [|done]. rewrite bind_ret_l.
    replace (match assoc feature_kind Mbse4u.feature_kind_mapping with
             | Some role => py_get_default owner role (JList [])
             | None => ret (JList [])
             end) with (@ret json (JList (ref <$> ids))).
    2:{ rewrite <-Hdirect. unfold direct_features.
        destruct (assoc _ _); [|done]. by rewrite py_get_default_dict. }
    rewrite bind_ret_l. cbn [py_iter]. rewrite bind_ret_l.
    eapply runs_ext.
    { intros s0. unfold bind at 1. by rewrite feature_ids_of_refs. }
    cbn [app].
    eapply (runs_bind K _ _ ([] ++ es)%list [] []); [| |done].
    { apply runs_get_elements.
      clear -Hall. induction Hall as [|i e ids es (? & ? & ?) _ IH];
        by constructor. }
    cbn [app]. eapply runs_ext.
    { intros s0. unfold bind at 1. rewrite no_wanted_feature; [done|].
      clear -Hall. induction Hall as [|i e ids es (? & ? & ?) _ IH];
        by constructor. }
    rewrite (py_get_dict owner "inheritedFeature"); [|done].
    rewrite Hinh, bind_ret_l. cbn [default py_len].
    rewrite bind_raise_l. apply runs_raise. }
  split.
  - destruct (Hruns s Hs) as (s' & ? & _). eauto.
  - assert (runs K (Mbse4u.get_feature_value w server_url project_id commit_id
                      owner feature_name feature_kind) [] (Raise TypeError))
      as Hvalue.
    { unfold Mbse4u.get_feature_value.
      rewrite (py_get_dict owner "@id"); [|done]. rewrite bind_ret_l.
      by apply runs_bind_raise. }
    destruct (Hvalue s Hs) as (s' & ? & _). eauto.
Qed.

Lemma get_feature_raises_without_inherited_witness :
  (∃ s', Mbse4u.get_feature Sample.not_found Sample.server "proj1" "commit1"
           Sample.requirement "risk" "AttributeUsage"
           (Sample.warmed Sample.requirements) = (Raise TypeError, s'))
  ∧ (∃ s', Mbse4u.get_feature_value Sample.not_found Sample.server "proj1"
             "commit1" Sample.requirement "risk" "AttributeUsage"
             (Sample.warmed Sample.requirements) = (Raise TypeError, s')).
Proof.
  apply (get_feature_raises_without_inherited Sample.not_found Sample.server
           "proj1" "commit1" Sample.requirement "risk" "AttributeUsage"
           ["cost"] [Sample.cost] (Sample.warmed Sample.requirements)).
  - reflexivity.
  - reflexivity.
  - reflexivity.
  - constructor; [|constructor].
    split_and!; [split; [vm_compute; reflexivity|left; reflexivity]|..];
      reflexivity.
Defined.

(** ** Feature values *)

Lemma has_type_is_dict x ty : has_type x ty = true → is_dict x = true.
Proof. by destruct x. Qed.

Lemma py_contains_dict k x :
  is_dict x = true →
  py_contains k x = ret (bool_decide (is_Some (field x k))).
Proof. by destruct x. Qed.

Lemma py_item_field x k v : field x k = Some v → py_item x k = ret v.
Proof. destruct x; try done. cbn. by intros ->. Qed.

Lemma final_value_is_dict s C V F : final_value s C V F → is_dict V = true ∧ is_dict F = true.
Proof.
  destruct 1 as [?|t F Hty]; [done|]. split; [|done].
  by eapply has_type_is_dict.
Qed.

Lemma final_value_truthy s C v V F :
  available mbse4u s C (KStr v) V → final_value s C V F → truthy F = true.
Proof. intros HV [|]; by eapply available_truthy. Qed.

Section extractor_runs.
Context (w : remote) (s : state) (C : string).
Local Abbreviation K := (λ C' k e, available mbse4u s C' k e).

Lemma extractor_knows : ∃ s0, knows K s0.
Proof. exists s. by intros ???. Qed.

(** Resolving the value of a feature value relationship and following a
    feature chain. *)
Lemma runs_final_value {B} v V F (k : json → M B) evs o :
  available mbse4u s C (KStr v) V → final_value s C V F →
  runs K (k F) evs o →
  runs K
    (let* vid := py_get (ref v) "@id" in
     let* value := Mbse4u.get_element_fromAPI w C vid in
     let* vtype := py_get value "@type" in
     let* value :=
       if py_eq vtype (JStr "FeatureChainExpression") then
         let* target := py_get value "targetFeature" in
         let* tid := py_get target "@id" in
         Mbse4u.get_element_fromAPI w C tid
       else ret value in
     k value) evs o.
Proof.
  intros HV Hfinal Hk. cbn [py_get py_get_default ref assoc String.eqb Ascii.eqb Bool.eqb].
  rewrite bind_ret_l.
  apply (runs_bind_get K w C _ (KStr v) V); [done..|].
  destruct (final_value_is_dict _ _ _ _ Hfinal) as [HVd HFd].
  rewrite (py_get_dict V "@type"); [|done]. rewrite bind_ret_l.
  change (py_eq (default JNull (field V "@type")) (JStr "FeatureChainExpression"))
    with (has_type V "FeatureChainExpression").
  destruct Hfinal as [_ Hty|t F Hty Htarget HF _]; rewrite Hty.
  - by rewrite bind_ret_l.
  - rewrite (py_get_field _ _ _ Htarget), bind_ret_l.
    cbn [py_get py_get_default ref assoc String.eqb Ascii.eqb Bool.eqb].
    rewrite bind_ret_l.
    by apply (runs_bind_get K w C _ (KStr t) F).
Qed.

(** The three readings of a final value. *)
Lemma runs_read_interpreted F x :
  is_dict F = true → truthy F = true → interpreted s C F x →
  runs K (Mbse4u.read_final_value w C F) [] (Ret (Some x)).
Proof.
  intros HFd HFt Hread. unfold Mbse4u.read_final_value. rewrite HFt.
  rewrite (py_get_dict F "@id"); [|done]. rewrite bind_ret_l.
  rewrite py_contains_dict; [|done]. rewrite bind_ret_l.
  destruct Hread as [x Hx|e E Hx Hty Href HE HEd|Hx Hnty Hty]; rewrite Hx.
  - rewrite bool_decide_eq_true_2; [|by eauto].
    rewrite (py_item_field _ _ _ Hx), bind_ret_l. apply runs_ret.
  - rewrite bool_decide_eq_false_2; [|by intros [??]].
    rewrite (py_get_dict F "@type"); [|done]. rewrite bind_ret_l.
    change (py_eq (default JNull (field F "@type"))
              (JStr "FeatureReferenceExpression"))
      with (has_type F "FeatureReferenceExpression").
    rewrite Hty, (py_get_field _ _ _ Href), bind_ret_l.
    cbn [py_get py_get_default ref assoc String.eqb Ascii.eqb Bool.eqb].
    rewrite bind_ret_l. apply runs_bind_assoc.
    apply (runs_bind_get K w C _ (KStr e) E); [done..|].
    rewrite (available_truthy _ _ _ _ _ HE).
    rewrite (py_get_dict E); [|done]. rewrite !bind_ret_l. apply runs_ret.
  - rewrite bool_decide_eq_false_2; [|by intros [??]].
    rewrite (py_get_dict F "@type"); [|done]. rewrite bind_ret_l.
    change (py_eq (default JNull (field F "@type"))
              (JStr "FeatureReferenceExpression"))
      with (has_type F "FeatureReferenceExpression").
    rewrite Hnty, !bind_ret_l.
    change (py_eq (default JNull (field F "@type")) (JStr "EnumerationUsage"))
      with (has_type F "EnumerationUsage").
    rewrite Hty, (py_get_dict F "name"); [|done]. rewrite bind_ret_l.
    apply runs_ret.
Qed.

Lemma runs_read_unreadable F :
  is_dict F = true → field F "value" = None →
  has_type F "FeatureReferenceExpression" = false →
  has_type F "EnumerationUsage" = false →
  runs K (Mbse4u.read_final_value w C F) [] (Ret None).
Proof.
  intros HFd Hx Hnref Hnenum. unfold Mbse4u.read_final_value.
  destruct (truthy F); [|apply runs_ret].
  rewrite (py_get_dict F "@id"); [|done]. rewrite bind_ret_l.
  rewrite py_contains_dict; [|done]. rewrite bind_ret_l, Hx.
  rewrite bool_decide_eq_false_2; [|by intros [??]].
  rewrite (py_get_dict F "@type"); [|done]. rewrite bind_ret_l.
  change (py_eq (default JNull (field F "@type"))
            (JStr "FeatureReferenceExpression"))
    with (has_type F "FeatureReferenceExpression").
  rewrite Hnref, !bind_ret_l.
  change (py_eq (default JNull (field F "@type")) (JStr "EnumerationUsage"))
    with (has_type F "EnumerationUsage").
  rewrite Hnenum. apply runs_ret.
Qed.

(** The head of an iteration, up to the test for a feature value. *)
Lemma runs_relationship_head r rel evs o :
  available mbse4u s C (KStr r) rel → is_dict rel = true →
  runs K
    (if has_type rel "FeatureValue" then
       let* value_id := py_get rel "value" in
       if truthy value_id then
         let* vid := py_get value_id "@id" in
         let* value := Mbse4u.get_element_fromAPI w C vid in
         let* vtype := py_get value "@type" in
         let* value :=
           if py_eq vtype (JStr "FeatureChainExpression") then
             let* target := py_get value "targetFeature" in
             let* tid := py_get target "@id" in
             Mbse4u.get_element_fromAPI w C tid
           else ret value in
         Mbse4u.read_final_value w C value
       else ret None
     else ret None) evs o →
  runs K (Mbse4u.value_of_relationship w C (ref r)) evs o.
Proof.
  intros Hrel Hd Hrest. unfold Mbse4u.value_of_relationship.
  rewrite py_item_ref, bind_ret_l.
  apply (runs_bind_get K w C _ (KStr r) rel); [done..|].
  rewrite (py_get_dict rel "@type"); [|done]. rewrite bind_ret_l.
  by rewrite (available_truthy _ _ _ _ _ Hrel).
Qed.

Lemma runs_passed_over rel_ref :
  passed_over s C rel_ref →
  runs K (Mbse4u.value_of_relationship w C rel_ref) [] (Ret None).
Proof.
  destruct 1 as [r rel Hrel Hd Hty|r rel Hrel Hty Hempty
                |r rel v V F Hrel Hty Hvalue HV Hfinal Hx Hnref Hnenum].
  - apply (runs_relationship_head r rel); [done..|]. rewrite Hty.
    apply runs_ret.
  - pose proof (has_type_is_dict _ _ Hty) as Hd.
    apply (runs_relationship_head r rel); [done..|]. rewrite Hty.
    rewrite (py_get_dict rel "value"); [|done]. rewrite bind_ret_l, Hempty.
    apply runs_ret.
  - pose proof (has_type_is_dict _ _ Hty) as Hd.
    apply (runs_relationship_head r rel); [done..|]. rewrite Hty.
    rewrite (py_get_field _ _ _ Hvalue), bind_ret_l, truthy_ref.
    apply (runs_final_value v V F); [done..|].
    apply runs_read_unreadable; [|done..].
    by destruct (final_value_is_dict _ _ _ _ Hfinal).
Qed.

Lemma runs_value_found r rel v V F x :
  available mbse4u s C (KStr r) rel →
  has_type rel "FeatureValue" = true →
  field rel "value" = Some (ref v) →
  available mbse4u s C (KStr v) V →
  final_value s C V F → interpreted s C F x →
  runs K (Mbse4u.value_of_relationship w C (ref r)) [] (Ret (Some x)).
Proof.
  intros Hrel Hty Hvalue HV Hfinal Hread.
  pose proof (has_type_is_dict _ _ Hty) as Hd.
  apply (runs_relationship_head r rel); [done..|]. rewrite Hty.
  rewrite (py_get_field _ _ _ Hvalue), bind_ret_l, truthy_ref.
  apply (runs_final_value v V F); [done..|].
  apply runs_read_interpreted; [| |done].
  - by destruct (final_value_is_dict _ _ _ _ Hfinal).
  - by eapply final_value_truthy.
Qed.

Lemma runs_all_passed_over rels :
  Forall (passed_over s C) rels →
  runs K (for_return rels (Mbse4u.value_of_relationship w C)) [] (Ret None).
Proof.
  induction 1 as [|rf rels Hrf _ IH]; [apply runs_ret|].
  cbn [for_return].
  eapply (runs_bind K _ _ None [] []); [by apply runs_passed_over| |done].
  exact IH.
Qed.

Lemma runs_first_value before r after x :
  Forall (passed_over s C) before →
  runs K (Mbse4u.value_of_relationship w C (ref r)) [] (Ret (Some x)) →
  runs K (for_return (before ++ ref r :: after)
            (Mbse4u.value_of_relationship w C)) [] (Ret (Some x)).
Proof.
  intros Hbefore Hr. induction Hbefore as [|rf rels Hrf _ IH].
  - cbn [app for_return].
    eapply (runs_bind K _ _ (Some x) [] []); [done| |done]. apply runs_ret.
  - cbn [app for_return].
    eapply (runs_bind K _ _ None [] []); [by apply runs_passed_over| |done].
    exact IH.
Qed.
End extractor_runs.

(** Terminal interpretation of a feature value when everything resolves.
    For an attribute
    usage [U] whose owned relationships are resolvable from the caches:
    when the first relationship that is not passed over is a feature value
    whose value resolves to a final value [F] (directly or through a
    feature chain), the extractor returns the [value] field of [F] as it is
    when [F] has one; the declared name of the referent when [F] is a
    feature reference expression; the name of [F] when [F] is an
    enumeration usage.  When every relationship is passed over (there is no
    feature value, or none with a readable final value), it returns [None].
    No request is sent and nothing is printed. *)
Theorem feature_value_terminal_interpretation w C s U rels :
  is_dict U = true →
  default (JList []) (field U "ownedRelationship") = JList rels →
  (∀ before r rel v V F x after,
     rels = (before ++ ref r :: after)%list →
     Forall (passed_over s C) before →
     available mbse4u s C (KStr r) rel →
     has_type rel "FeatureValue" = true →
     field rel "value" = Some (ref v) →
     available mbse4u s C (KStr v) V →
     final_value s C V F → interpreted s C F x →
     ∃ s', Mbse4u.get_attribute_value_from_usage w C U s = (Ret x, s')
           ∧ trace s' = trace s)
  ∧ (Forall (passed_over s C) rels →
     ∃ s', Mbse4u.get_attribute_value_from_usage w C U s = (Ret JNull, s')
           ∧ trace s' = trace s).
Proof.
  intros HU Hrels.
  set (K := λ C' k e, available mbse4u s C' k e).
  assert (knows K s) as Hs by (by intros ???).
  assert (∀ result,
    runs K (for_return rels (Mbse4u.value_of_relationship w C)) [] (Ret result) →
    ∃ s', Mbse4u.get_attribute_value_from_usage w C U s
          = (Ret (default JNull result), s') ∧ trace s' = trace s) as Hloop.
  { intros result Hruns.
    assert (runs K (Mbse4u.get_attribute_value_from_usage w C U) []
              (Ret (default JNull result))) as Hall.
    { unfold Mbse4u.get_attribute_value_from_usage.
      rewrite (py_get_dict U "@id"); [|done]. rewrite bind_ret_l.
      rewrite py_get_default_dict; [|done]. rewrite bind_ret_l, Hrels.
      cbn [py_len py_iter]. rewrite !bind_ret_l.
      eapply (runs_bind K _ _ result [] []); [done| |done]. apply runs_ret. }
    destruct (Hall s Hs) as (s' & ? & _ & Ht). rewrite app_nil_r in Ht. eauto. }
  split.
  - intros before r rel v V F x after -> Hbefore Hrel Hty Hvalue HV Hfinal Hread.
    apply (Hloop (Some x)). apply runs_first_value; [done|].
    by eapply runs_value_found.
  - intros Hpassed. apply (Hloop None). by apply runs_all_passed_over.
Qed.

Lemma feature_value_terminal_interpretation_witness :
  (∃ s', Mbse4u.get_attribute_value_from_usage Sample.not_found
           Sample.commit_url Sample.cost (Sample.warmed Sample.requirements)
         = (Ret (JInt 42), s')
         ∧ trace s' = trace (Sample.warmed Sample.requirements))
  ∧ (∃ s', Mbse4u.get_attribute_value_from_usage Sample.not_found
             Sample.commit_url Sample.risk (Sample.warmed Sample.requirements)
           = (Ret (JStr "HIGH"), s')
           ∧ trace s' = trace (Sample.warmed Sample.requirements)).
Proof.
  assert (∀ i e, cache_lookup (Sample.warmed Sample.requirements)
                   Sample.commit_url (KStr i) = Some e → truthy e = true →
                 available mbse4u (Sample.warmed Sample.requirements)
                   Sample.commit_url (KStr i) e) as Hav.
  { intros i e Hi He. split; [|by left]. unfold cache_hit. by rewrite Hi, He. }
  split.
  - destruct (feature_value_terminal_interpretation Sample.not_found
                Sample.commit_url (Sample.warmed Sample.requirements)
                Sample.cost [ref "cost-typing"; ref "cost-value"])
      as [Hfound _]; [reflexivity..|].
    apply (Hfound [ref "cost-typing"] "cost-value" Sample.cost_value
             "forty-two" Sample.forty_two Sample.forty_two (JInt 42) []).
    + reflexivity.
    + repeat constructor.
      apply (passed_other _ _ "cost-typing" Sample.cost_typing);
        [apply Hav; by vm_compute|reflexivity..].
    + apply Hav; by vm_compute.
    + reflexivity.
    + reflexivity.
    + apply Hav; by vm_compute.
    + by apply final_direct.
    + by apply interpreted_literal.
  - destruct (feature_value_terminal_interpretation Sample.not_found
                Sample.commit_url (Sample.warmed Sample.requirements)
                Sample.risk [ref "risk-value"])
      as [Hfound _]; [reflexivity..|].
    apply (Hfound [] "risk-value" Sample.risk_value "HIGH" Sample.high
             Sample.high (JStr "HIGH") []).
    + reflexivity.
    + constructor.
    + apply Hav; by vm_compute.
    + reflexivity.
    + reflexivity.
    + apply Hav; by vm_compute.
    + by apply final_direct.
    + by apply (interpreted_enumeration _ _ Sample.high).
Defined.

(** An owned relationship that does not resolve is not passed over: the
    line printed for it reads [rel.get('@id')] of [None]. *)
Example unresolved_relationship_raises :
  (Mbse4u.get_attribute_value_from_usage Sample.not_found Sample.commit_url
     Sample.cost initial).1 = Raise AttributeError.
Proof. vm_compute. reflexivity. Qed.

(** C7. The extractor does not answer [None] for every value it cannot
    interpret: it raises [AttributeError] where it reads a field of an
    element it has not tested for [None].  With the records of
    [Fixture.uninterpretable] in the cache and a server that knows nothing
    else: a value that is a feature reference expression without a referent
    ([value.get('referent').get('@id')]), a value that is a feature chain
    expression without a target feature
    ([value.get('targetFeature').get('@id')]), a value that does not
    resolve ([value.get('@type')] before [if value:]) and an owned
    relationship that does not resolve ([rel.get('@id')] before
    [if rel and ...]) each make [get_attribute_value_from_usage] raise, and
    [get_feature_value] hands the exception on to its caller. *)
Theorem uninterpretable_value_raises :
  let s := Sample.warmed Fixture.uninterpretable in
  let extract U :=
    (Mbse4u.get_attribute_value_from_usage Sample.not_found Sample.commit_url
       U s).1 in
  let owner :=
    JDict [("@id", JStr "owner");
           ("ownedFeature", JList [ref "dangling"]);
           ("inheritedFeature", JList [])] in
  extract Fixture.unreferred = Raise AttributeError
  ∧ extract Fixture.unchained = Raise AttributeError
  ∧ extract Fixture.dangling = Raise AttributeError
  ∧ extract Fixture.adrift = Raise AttributeError
  ∧ (Mbse4u.get_feature_value Sample.not_found Sample.server "proj1" "commit1"
       owner "dangling" "AttributeUsage" s).1 = Raise AttributeError.
Proof. vm_compute. by split_and!. Qed.

(** ** Metadata tags *)

Lemma annotated_ids_of_well_formed item s :
  well_formed_usage item →
  annotated_ids_of item s = (Ret (annotated_or_self item), s).
Proof.
  intros [Hd Hwf]. unfold annotated_ids_of, annotated_or_self.
  rewrite py_get_default_dict; [|done]. rewrite bind_ret_l.
  destruct (field item "annotatedElement") as [[| | | |l|]|]; try done.
  - destruct l as [|a l].
    { cbn [default truthy]. rewrite (py_get_dict item); [|done]. by rewrite bind_ret_l. }
    cbn [default truthy].
    assert (∀ acc, for_fold (a :: l) acc
              (λ acc annotated,
                 let* annotated_id := py_get annotated "@id" in
                 ret (if truthy annotated_id then (acc ++ [annotated_id])%list else acc)) s
            = (Ret (acc ++ ((λ a, default JNull (field a "@id")) <$> (a :: l)))%list, s))
      as Hfold; [|apply (Hfold [])].
    induction Hwf as [|b l' [Hb Hid] _ IH]; intros acc.
    + cbn. by rewrite app_nil_r.
    + cbn [for_fold]. rewrite (py_get_dict b); [|done]. rewrite bind_ret_l, Hid.
      rewrite bind_ret_l, IH. cbn [fmap list_fmap]. by rewrite <-app_assoc.
  - cbn [default truthy]. rewrite (py_get_dict item); [|done]. by rewrite bind_ret_l.
Qed.

Lemma collect_annotated_collected usages defs : ∀ results s,
  Forall well_formed_usage usages →
  collect_annotated usages defs results s
  = (Ret (collected usages defs results), s).
Proof.
  induction usages as [|item usages IH]; intros results s Hwf; [done|].
  apply Forall_cons in Hwf as [Hitem Hwf].
  unfold collect_annotated. cbn [for_fold].
  pose proof Hitem as [Hd _].
  rewrite (py_get_dict item); [|done]. rewrite bind_ret_l.
  assert ((if is_dict (default JNull (field item "metadataDefinition"))
           then py_get (default JNull (field item "metadataDefinition")) "@id"
           else ret (JStr "Unknown")) = ret (metadata_definition_id item)) as ->.
  { unfold metadata_definition_id.
    by destruct (field item "metadataDefinition") as [[]|]. }
  rewrite bind_ret_l.
  assert (∀ results s,
    for_fold defs results (λ results entry,
      let '(key, metadefinition_id) := entry in
      if py_eq (metadata_definition_id item) metadefinition_id then
        let* ids := annotated_ids_of item in
        ret (<[key := (default [] (results !! key) ++ ids)%list]> results)
      else ret results) s
    = (Ret (foldl (add_annotated item) results defs), s)) as Hinner.
  { clear -Hitem. induction defs as [|[key d] defs IH]; intros results s; [done|].
    cbn [for_fold foldl]. unfold add_annotated at 2. cbn [fst snd].
    destruct (py_eq _ _).
    - unfold bind at 1 2. rewrite annotated_ids_of_well_formed; [|done].
      cbv [ret]. apply IH.
    - rewrite bind_ret_l. apply IH. }
  unfold bind at 1. rewrite Hinner. cbn [collected foldl].
  apply IH. done.
Qed.

Lemma add_annotated_other item defs key : ∀ results,
  key ∉ defs.*1 →
  foldl (add_annotated item) results defs !! key = results !! key.
Proof.
  induction defs as [|[k0 d0] defs IH]; intros results Hkey; [done|].
  cbn [foldl]. apply not_elem_of_cons in Hkey as [Hne Hkey].
  rewrite IH; [|done]. unfold add_annotated. cbn [fst snd] in *.
  destruct (py_eq _ _); [|done]. by rewrite lookup_insert_ne.
Qed.

Lemma add_annotated_lookup item defs key d : ∀ results base,
  NoDup defs.*1 → (key, d) ∈ defs → results !! key = Some base →
  foldl (add_annotated item) results defs !! key
  = Some (base ++ contribution d item)%list.
Proof.
  induction defs as [|[k0 d0] defs IH]; intros results base Hnd Hin Hbase.
  { by apply elem_of_nil in Hin. }
  cbn [fmap list_fmap fst] in Hnd. apply NoDup_cons in Hnd as [Hk0 Hnd].
  cbn [foldl]. apply elem_of_cons in Hin as [[= <- <-]|Hin].
  - rewrite add_annotated_other; [|done].
    unfold add_annotated, contribution. cbn [fst snd].
    destruct (py_eq _ _).
    + by rewrite lookup_insert_eq, Hbase.
    + by rewrite app_nil_r.
  - apply (IH _ base); [done..|].
    assert (key ≠ k0) as Hne.
    { intros ->. apply Hk0. apply list_elem_of_fmap. by exists (k0, d). }
    unfold add_annotated. cbn [fst snd].
    destruct (py_eq _ _); [|done]. by rewrite lookup_insert_ne.
Qed.

Lemma collected_lookup usages defs key d : ∀ results base,
  NoDup defs.*1 → (key, d) ∈ defs → results !! key = Some base →
  collected usages defs results !! key
  = Some (base ++ concat (contribution d <$> usages))%list.
Proof.
  induction usages as [|item usages IH]; intros results base Hnd Hin Hbase.
  { cbn. by rewrite app_nil_r. }
  cbn [collected foldl fmap list_fmap concat].
  rewrite app_assoc. apply IH; [done..|]. by apply add_annotated_lookup.
Qed.

Lemma empty_results_lookup defs key d :
  NoDup defs.*1 → (key, d) ∈ defs → empty_results defs !! key = Some [].
Proof.
  intros Hnd Hin. unfold empty_results. apply elem_of_list_to_map_1.
  - by rewrite <-list_fmap_compose.
  - apply list_elem_of_fmap. by exists (key, d).
Qed.

(** C8. Self annotation fallback.  When the query for the metadata usages
    returns the records [usages], the result holds, under every requested
    key, the contributions of the usages whose [metadataDefinition] refers
    to the definition id of that key, in the order of the usages: the ids
    in the [annotatedElement] list of the usage or, when that list is empty
    (or missing), the id of the usage itself.  It holds of both modules. *)
Theorem annotated_ids_or_self m w server_url project_id commit_id
    metadefinition_dict usages s s1 :
  NoDup metadefinition_dict.*1 →
  Forall well_formed_usage usages →
  metadata_usages_of m w server_url project_id commit_id s
    = (Ret (JList usages), s1) →
  ∃ results,
    get_metadatausage_annotatedElement_ids_of m w server_url project_id
      commit_id metadefinition_dict s = (Ret results, s1)
    ∧ ∀ key d, (key, d) ∈ metadefinition_dict →
               results !! key = Some (concat (contribution d <$> usages)).
Proof.
  intros Hnd Hwf Hquery.
  exists (collected usages metadefinition_dict (empty_results metadefinition_dict)).
  split.
  - destruct m; simpl in Hquery |- *.
    + unfold Api.get_metadatausage_annotatedElement_ids.
      rewrite (bind_run _ _ _ _ _ Hquery). cbn [py_iter].
      rewrite bind_ret_l. by apply collect_annotated_collected.
    + unfold Mbse4u.get_metadatausage_annotatedElement_ids.
      rewrite (bind_run _ _ _ _ _ Hquery). cbn [py_len py_iter].
      rewrite !bind_ret_l. by apply collect_annotated_collected.
  - intros key d Hin.
    rewrite (collected_lookup _ _ key d _ []); [done..|].
    by eapply empty_results_lookup.
Qed.

Lemma annotated_ids_or_self_witness :
  ∃ results s1,
    Mbse4u.get_metadatausage_annotatedElement_ids
      (Sample.serving (JList Sample.usages)) Sample.server "proj1" "commit1"
      [("FB", JStr "D")] initial = (Ret results, s1)
    ∧ results !! "FB" = Some [JStr "u1"; JStr "x"; JStr "y"].
Proof.
  destruct (annotated_ids_or_self mbse4u (Sample.serving (JList Sample.usages))
              Sample.server "proj1" "commit1" [("FB", JStr "D")] Sample.usages
              initial
              (Mbse4u.get_elements_byKind_fromAPI
                 (Sample.serving (JList Sample.usages)) Sample.server "proj1"
                 "commit1" (JStr "MetadataUsage") initial).2)
    as (results & Hrun & Hres).
  - repeat constructor. by intros ?%elem_of_nil.
  - repeat constructor.
  - vm_compute. reflexivity.
  - exists results. eexists. split; [exact Hrun|].
    rewrite (Hres "FB" (JStr "D")); [reflexivity|]. by apply list_elem_of_singleton.
Defined.

(** * Further properties of the helpers *)

(** ** Element fetches *)

Lemma fetch_element_raise_miss w C i e s s1 :
  fetch_element w C (JStr i) s = (Raise e, s1) →
  cache_hit s C (KStr i) = None.
Proof.
  intros Hrun. destruct (cache_hit s C (KStr i)) as [v|] eqn:Hhit; [|done].
  by rewrite (fetch_element_hit w C (JStr i) (KStr i) v) in Hrun.
Qed.

Lemma cache_hit_ext s s' C k :
  ELEMENT_CACHE s' = ELEMENT_CACHE s → cache_hit s' C k = cache_hit s C k.
Proof. unfold cache_hit, cache_lookup. by intros ->. Qed.

(** X1. The sibling module's [get_element_fromAPI] never raises: whatever
    the id (hashable or not), the state of the cache and the answer of the
    server, the call returns a value. *)
Theorem api_get_element_never_raises w C x s :
  ∃ e s', Api.get_element_fromAPI w C x s = (Ret e, s').
Proof.
  rewrite api_get_element_eq.
  destruct (fetch_element w C x s) as [o s1] eqn:Hf.
  destruct (fetch_element_spec _ _ _ _ _ _ Hf) as (_ & _ & Hfin & _).
  destruct o; by eauto.
Qed.

(** X2. An exception is not memoized: when a call of the wrapped
    [get_element_fromAPI] raises (connection failure, undecodable body),
    the [lru_cache] store and the element cache are as before, and the
    next call for the same id asks the server again and returns what it
    then answers. *)
Theorem raised_fetch_not_memoized w1 w2 C i e s s1 txt j :
  Mbse4u.get_element_fromAPI w1 C (JStr i) s = (Raise e, s1) →
  http_get w2 (C +:+ "/elements/" +:+ i) = Response 200 txt (Some j) →
  element_lru s1 = element_lru s ∧ ELEMENT_CACHE s1 = ELEMENT_CACHE s ∧
  ∃ s2,
    Mbse4u.get_element_fromAPI w2 C (JStr i) s1 = (Ret (first_if_list j), s2)
    ∧ trace s2 = (trace s1 ++ [SessionGet (C +:+ "/elements/" +:+ i)])%list.
Proof.
  intros Hrun Hget. rewrite mbse4u_get_element_eq in Hrun. cbn [to_key] in Hrun.
  destruct (lru_find (C, KStr i) (element_lru s)) as [v|] eqn:Hlru; [done|].
  destruct (fetch_element w1 C (JStr i) s) as [[v|e'|] s0] eqn:Hf; try done.
  injection Hrun as <- <-.
  pose proof (fetch_element_raise_miss _ _ _ _ _ _ Hf) as Hmiss.
  destruct (fetch_element_spec _ _ _ _ _ _ Hf) as (Hl & _ & _ & _ & _ & _ & Hc).
  specialize (Hc e' eq_refl).
  split_and!; [done..|].
  rewrite mbse4u_get_element_eq. cbn [to_key].
  cbn [with_trace element_lru]. rewrite Hl, Hlru.
  rewrite fetch_element_miss;
    [|by rewrite (cache_hit_ext s); [|cbn [with_trace ELEMENT_CACHE]]].
  cbv zeta. rewrite Hget. cbn [Z.eqb Pos.eqb].
  eexists. split; [done|].
  by destruct (truthy (first_if_list j)).
Qed.

Lemma raised_fetch_not_memoized_witness :
  let s1 :=
    (Mbse4u.get_element_fromAPI (Sample.always ConnectionFailed)
       Sample.commit_url (JStr "el1") initial).2 in
  ∃ s2,
    Mbse4u.get_element_fromAPI (Sample.serving Sample.el1) Sample.commit_url
      (JStr "el1") s1 = (Ret Sample.el1, s2)
    ∧ trace s2 = (trace s1 ++ [SessionGet (Sample.commit_url +:+ "/elements/" +:+ "el1")])%list.
Proof.
  intros s1.
  apply (raised_fetch_not_memoized (Sample.always ConnectionFailed)
           (Sample.serving Sample.el1) Sample.commit_url "el1"
           RequestException initial s1 "" Sample.el1).
  - vm_compute. reflexivity.
  - reflexivity.
Defined.

(** X3. A list answer is reduced to its first item before anything else:
    when the server answers the request for [i] with a list whose first
    item [e] is not empty, both modules return [e] and store it in the
    element cache under the requested id [i], whatever id [e] itself
    carries; when the list is empty they return [None] and store
    nothing. *)
Theorem list_answer_first_item m w C i txt l s :
  cache_hit s C (KStr i) = None →
  lru_find (C, KStr i) (element_lru s) = None →
  http_get w (C +:+ "/elements/" +:+ i) = Response 200 txt (Some (JList l)) →
  ∃ s',
    get_element_fromAPI_of m w C (JStr i) s = (Ret (default JNull (head l)), s')
    ∧ trace s' = (trace s ++ [SessionGet (C +:+ "/elements/" +:+ i)])%list
    ∧ match l with
      | e :: _ =>
          truthy e = true → cache_lookup s' C (KStr i) = Some e
      | [] => ELEMENT_CACHE s' = ELEMENT_CACHE s
      end.
Proof.
  intros Hmiss Hlru Hget.
  assert (fetch_element w C (JStr i) s =
          (Ret (default JNull (head l)),
           if truthy (default JNull (head l))
           then with_cache (with_trace s [SessionGet (C +:+ "/elements/" +:+ i)])
                  (cache_put (ELEMENT_CACHE s) C (KStr i) (default JNull (head l)))
           else with_trace s [SessionGet (C +:+ "/elements/" +:+ i)])) as Hf.
  { rewrite fetch_element_miss; [|done]. cbv zeta. rewrite Hget.
    cbn [Z.eqb Pos.eqb]. by destruct l. }
  assert (∃ s0, fetch_element w C (JStr i) s = (Ret (default JNull (head l)), s0)
          ∧ trace s0 = (trace s ++ [SessionGet (C +:+ "/elements/" +:+ i)])%list
          ∧ match l with
            | e :: _ => truthy e = true → cache_lookup s0 C (KStr i) = Some e
            | [] => ELEMENT_CACHE s0 = ELEMENT_CACHE s
            end) as (s0 & Hf0 & Ht0 & Hc0).
  { eexists. split; [exact Hf|]. destruct l as [|e l]; simpl; [done|].
    destruct (truthy e) eqn:He; [|done]. split; [done|]. intros _.
    unfold cache_lookup. simpl. by rewrite cache_put_lookup, decide_True. }
  destruct m; simpl.
  - rewrite api_get_element_eq, Hf0. eauto.
  - rewrite mbse4u_get_element_eq. cbn [to_key]. rewrite Hlru, Hf0.
    eexists. split; [done|]. split; [done|]. by destruct l.
Qed.

Lemma list_answer_first_item_witness :
  ∃ s',
    Mbse4u.get_element_fromAPI
      (Sample.serving (JList [Sample.el2; Sample.el1])) Sample.commit_url
      (JStr "el1") initial = (Ret Sample.el2, s')
    ∧ trace s' = [SessionGet (Sample.commit_url +:+ "/elements/" +:+ "el1")]
    ∧ (truthy Sample.el2 = true →
       cache_lookup s' Sample.commit_url (KStr "el1") = Some Sample.el2).
Proof.
  apply (list_answer_first_item mbse4u
           (Sample.serving (JList [Sample.el2; Sample.el1])) Sample.commit_url
           "el1" "" [Sample.el2; Sample.el1] initial); reflexivity.
Defined.

(** *** The [lru_cache] store *)

Lemma lru_find_none_keys {K A} `{EqDecision K} (key : K) (store : list (K * A)) :
  lru_find key store = None → key ∉ store.*1.
Proof.
  induction store as [|[k v] store IH]; [by intros _ ?%elem_of_nil|].
  rewrite lru_find_cons. destruct (decide (k = key)) as [->|Hne]; [done|].
  intros Hnone [?|?]%elem_of_cons; [by simplify_eq/=|by apply IH].
Qed.

Lemma lru_drop_keys {K A} `{EqDecision K} (key : K) (store : list (K * A)) :
  (key ∉ (lru_drop key store).*1)
  ∧ (NoDup store.*1 → NoDup (lru_drop key store).*1)
  ∧ (length (lru_drop key store) ≤ length store)%nat
  ∧ (is_Some (lru_find key store) →
     (length (lru_drop key store) < length store)%nat).
Proof.
  unfold lru_drop. induction store as [|[k v] store (IH1 & IH2 & IH3 & IH4)].
  - split_and!; try done; [by intros ?%elem_of_nil|by intros [??]].
  - rewrite filter_cons. simpl. rewrite lru_find_cons.
    destruct (decide (k ≠ key)) as [Hne|Heq].
    + rewrite decide_False; [|done]. split_and!.
      * intros [?|?]%elem_of_cons; [by simplify_eq/=|done].
      * intros [Hk Hnd]%NoDup_cons. simpl. apply NoDup_cons. split; [|by auto].
        intros Hin. apply Hk.
        apply list_elem_of_fmap in Hin as (p & -> & Hp).
        apply list_elem_of_filter in Hp as [_ Hp].
        apply list_elem_of_fmap. eauto.
      * simpl. lia.
      * intros Hs. specialize (IH4 Hs). simpl. lia.
    + rewrite decide_True; [|by destruct (decide (k = key)); [|contradiction]].
      split_and!; [done| |simpl; lia|intros _; simpl; lia].
      intros [_ Hnd]%NoDup_cons. auto.
Qed.

Lemma get_element_keeps_bounded w C x s :
  lru_bounded 2048 (element_lru s) →
  lru_bounded 2048 (element_lru (Mbse4u.get_element_fromAPI w C x s).2).
Proof.
  intros [Hlen Hnd]. rewrite mbse4u_get_element_eq.
  destruct (to_key x) as [k|] eqn:Hk; [|done].
  destruct (lru_find (C, k) (element_lru s)) as [v|] eqn:Hlru.
  - destruct (lru_drop_keys (C, k) (element_lru s)) as (H1 & H2 & _ & H4).
    split; simpl.
    + specialize (H4 ltac:(by rewrite Hlru)). lia.
    + apply NoDup_cons. auto.
  - destruct (fetch_element w C x s) as [o s1] eqn:Hf.
    destruct (fetch_element_spec _ _ _ _ _ _ Hf) as (Hl & _).
    destruct o as [e|e|]; cbn [snd element_lru with_element_lru with_trace];
      rewrite ?Hl; [|done..].
    split.
    + pose proof (firstn_le_length 2048 ((C, k, e) :: element_lru s)). done.
    + rewrite fmap_take. eapply sublist_NoDup; [|apply sublist_take].
      cbn [fmap list_fmap fst]. apply NoDup_cons.
      split; [|done]. by apply lru_find_none_keys.
Qed.

(** X4. The [lru_cache] of [get_element_fromAPI] stays within its bound:
    after any history of calls (any ids, any answers of the server) the
    store holds at most 2048 results and no key twice. *)
Theorem element_lru_stays_bounded calls :
  lru_bounded 2048 (element_lru (resolve_all mbse4u calls initial)).
Proof.
  assert (∀ s, lru_bounded 2048 (element_lru s) →
               lru_bounded 2048 (element_lru (resolve_all mbse4u calls s))) as H.
  { induction calls as [|c calls IH]; intros s Hs; [done|].
    cbn [resolve_all]. apply IH. cbn [get_element_fromAPI_of].
    by apply get_element_keeps_bounded. }
  apply H. split; [cbn; lia|constructor].
Qed.

(** ** Bulk loading, once more *)

Lemma populate_silent els : ∀ acc s o s',
  populate els acc s = (o, s') → s' = s ∧ o ≠ Unfinished.
Proof.
  induction els as [|el els IH]; intros acc s o s' Hrun.
  - by injection Hrun as <- <-.
  - cbn [populate] in Hrun. unfold bind at 1 in Hrun.
    destruct el as [| | |str|l|d]; cbn [py_contains raise] in Hrun;
      try (by simplify_eq); unfold ret at 1 in Hrun.
    + destruct (bool_decide _); [|exact (IH _ _ _ _ Hrun)].
      cbn [py_item] in Hrun. unfold bind at 1, raise in Hrun.
      by simplify_eq.
    + destruct (existsb _ _); [|exact (IH _ _ _ _ Hrun)].
      cbn [py_item] in Hrun. unfold bind at 1, raise in Hrun.
      by simplify_eq.
    + destruct (bool_decide _); [|exact (IH _ _ _ _ Hrun)].
      cbn [py_item] in Hrun. cbv [bind lift raise ret] in Hrun.
      destruct (assoc "@id" d) as [id|]; [|by simplify_eq].
      destruct (to_key id) as [k|]; [|by simplify_eq].
      exact (IH _ _ _ _ Hrun).
Qed.

(** X5. A bulk load is all or nothing: [load_model_cache] of either module
    either returns the number of entries it has stored for the commit,
    having replaced the entry set of that commit and of no other, or it
    raises (connection failure, non-success status, undecodable body, a
    payload that is no list, an element whose id is unhashable) and leaves
    the element cache exactly as it was, without any partial batch.  The
    [lru_cache] store is never touched. *)
Theorem load_model_cache_all_or_nothing m w server_url project_id commit_id
    page_size s :
  let r := load_model_cache_of m w server_url project_id commit_id page_size s in
  element_lru r.2 = element_lru s ∧
  match r.1 with
  | Ret n =>
      ∃ entry,
        ELEMENT_CACHE r.2
        = <[get_commit_url server_url project_id commit_id := entry]>
            (ELEMENT_CACHE s)
        ∧ n = size entry
  | Raise _ => ELEMENT_CACHE r.2 = ELEMENT_CACHE s
  | Unfinished => False
  end.
Proof.
  rewrite load_model_cache_of_eq. cbv zeta.
  unfold load_model_cache_from, session_get. cbv [bind emit ret].
  destruct (http_get w _) as [|code txt body]; [done|].
  cbn [status_code text]. destruct (Z.eqb code 200); cbn [negb]; [|done].
  destruct body as [j|]; cbn [response_json]; [|done]. cbv [ret].
  destruct j as [| | |str|els|d]; cbn [py_len]; try done.
  cbv [ret].
  destruct (populate els ∅ _) as [o s1] eqn:Hpop.
  destruct (populate_silent _ _ _ _ _ Hpop) as [-> Hfin].
  destruct o as [entry|e|]; [|done..].
  cbv [get_state set_cache]. cbn. eauto.
Qed.

(** ** Lists of elements *)

(** X6. [get_elements_fromAPI] never raises: an id that cannot be resolved
    (unhashable id, connection failure, undecodable answer) is printed and
    passed over, and the call returns a list whatever the ids, the caches
    and the server. *)
Theorem get_elements_never_raises w C ids s :
  ∃ es s', Mbse4u.get_elements_fromAPI w C ids s = (Ret es, s').
Proof.
  unfold Mbse4u.get_elements_fromAPI.
  match goal with |- context [for_fold _ _ ?b] => set (body := b) end.
  generalize (@nil json) as acc. revert s.
  induction ids as [|i ids IH]; intros s acc; [by eexists _, _|].
  cbn [for_fold]. unfold bind at 1, body at 1, try_except at 1, bind at 1.
  pose proof (finishes_get_element w C i s) as Hfin.
  destruct (Mbse4u.get_element_fromAPI w C i s) as [[e|e|] s1]; [| |done].
  - destruct e; apply IH.
  - cbv [emit ret bind]. apply IH.
Qed.

(** X7. [get_elements_fromAPI] keeps the order of the ids: when every id
    resolves from the caches to an element record, the result is the list
    of these elements, one per id and in the order of the ids (an id that
    occurs twice gives its element twice), and no request is sent. *)
Theorem get_elements_in_order w C ids es s :
  Forall2 (λ i e, available mbse4u s C (KStr i) e ∧ is_dict e = true) ids es →
  ∃ s', Mbse4u.get_elements_fromAPI w C (JStr <$> ids) s = (Ret es, s')
        ∧ trace s' = trace s.
Proof.
  intros Hall.
  destruct (runs_get_elements (λ C' k e, available mbse4u s C' k e)
              w C ids es [] Hall s) as (s' & Hrun & _ & Ht).
  { by intros ???. }
  exists s'. split; [exact Hrun|]. by rewrite Ht, app_nil_r.
Qed.

Lemma get_elements_in_order_witness :
  ∃ s',
    Mbse4u.get_elements_fromAPI Sample.not_found Sample.commit_url
      (JStr <$> ["B"; "A"; "B"]) (Sample.warmed Sample.cycle)
    = (Ret [Sample.part_B; Sample.part_A; Sample.part_B], s')
    ∧ trace s' = trace (Sample.warmed Sample.cycle).
Proof.
  apply (get_elements_in_order Sample.not_found Sample.commit_url
           ["B"; "A"; "B"] [Sample.part_B; Sample.part_A; Sample.part_B]
           (Sample.warmed Sample.cycle)).
  repeat constructor; vm_compute; auto.
Defined.

(** ** Contained elements *)

Lemma py_eq_str_inv x a : py_eq x (JStr a) = true → x = JStr a.
Proof.
  destruct x as [|[]|z|str| |]; try done. rewrite py_eq_str.
  by intros ->%bool_decide_eq_true.
Qed.

Lemma get_contained_elements_typed w server_url project_id commit_id x kind
    elementKind s l s' :
  Mbse4u.get_contained_elements w server_url project_id commit_id x kind
    elementKind s = (Ret l, s') →
  Forall (λ e, has_type e kind = true) l.
Proof.
  unfold Mbse4u.get_contained_elements. intros Hrun.
  apply bind_inv in Hrun as (container & s1 & _ & Hrun).
  destruct (truthy container); cbn [negb] in Hrun;
    [|cbv [ret] in Hrun; by simplify_eq].
  apply bind_inv in Hrun as (owned & s2 & _ & Hrun).
  apply bind_inv in Hrun as ([] & s3 & _ & Hrun).
  apply bind_inv in Hrun as (items & s4 & _ & Hrun).
  revert Hrun. apply for_fold_ret_inv; [|constructor].
  intros acc y t r t' Hacc Hbody.
  apply bind_inv in Hbody as (id & t1 & _ & Hbody).
  apply bind_inv in Hbody as (full & t2 & _ & Hbody).
  destruct (truthy full); [|cbv [ret] in Hbody; by simplify_eq].
  apply bind_inv in Hbody as (ty & t3 & Hty & Hbody).
  apply py_get_inv in Hty as (Hd & -> & ->).
  destruct (py_eq _ _) eqn:Heq; cbv [ret] in Hbody; simplify_eq; [|done].
  apply Forall_app. split; [done|]. by constructor.
Qed.

(** X8. [get_contained_elements] returns nothing but elements of the
    requested kind: whatever the container, the caches and the server,
    every element of a returned list is a record whose [@type] equals
    [kind]. *)
Theorem contained_elements_have_kind w server_url project_id commit_id x kind
    elementKind s :
  match (Mbse4u.get_contained_elements w server_url project_id commit_id x
           kind elementKind s).1 with
  | Ret l => Forall (λ e, is_dict e = true ∧ has_type e kind = true) l
  | _ => True
  end.
Proof.
  destruct (Mbse4u.get_contained_elements _ _ _ _ _ _ _ _) as [[l|e|] s'] eqn:Hrun;
    [|done..].
  apply get_contained_elements_typed in Hrun. cbn [fst].
  eapply Forall_impl; [exact Hrun|]. intros e He. split; [|done].
  exact (has_type_is_dict _ _ He).
Qed.

Lemma runs_contained_loop K w C kind ids es : ∀ acc,
  (∃ s, knows K s) →
  Forall2 (λ i e, K C (KStr i) e ∧ is_dict e = true) ids es →
  runs K
    (for_fold (ref <$> ids) acc (λ matching_elements owned_element,
       let* id := py_item owned_element "@id" in
       let* full_element := Mbse4u.get_element_fromAPI w C id in
       if truthy full_element then
         let* ty := py_get full_element "@type" in
         if py_eq ty (JStr kind)
         then ret (matching_elements ++ [full_element])%list
         else ret matching_elements
       else ret matching_elements))
    [] (Ret (acc ++ filter (λ e, has_type e kind = true) es)%list).
Proof.
  intros acc Hs Hall. revert acc.
  induction Hall as [|i e ids es [HK He] _ IH]; intros acc.
  - rewrite app_nil_r. apply runs_ret.
  - cbn [fmap list_fmap for_fold]. rewrite py_item_ref, bind_ret_l.
    eapply (runs_bind K _ _
              (if has_type e kind then acc ++ [e] else acc)%list [] []);
      [| |done].
    + apply (runs_bind_get K w C _ (KStr i) e); [done..|].
      rewrite (runs_truthy K C (KStr i) e HK Hs).
      rewrite (py_get_dict e "@type"); [|done]. rewrite bind_ret_l.
      fold (has_type e kind). destruct (has_type e kind); apply runs_ret.
    + rewrite filter_cons. destruct (has_type e kind) eqn:Hty.
      * rewrite decide_True; [|done].
        replace (acc ++ e :: filter (λ e0, has_type e0 kind = true) es)%list
          with ((acc ++ [e]) ++ filter (λ e0, has_type e0 kind = true) es)%list
          by (by rewrite <-app_assoc).
        apply IH.
      * rewrite decide_False; [|done]. apply IH.
Qed.

(** X9. [get_contained_elements] on a model that resolves from the caches:
    for a container whose [elementKind] list refers to the elements [es],
    the result is the sublist of [es] whose [@type] is [kind], in the order
    of the references; no request is sent. *)
Theorem contained_elements_filtered w server_url project_id commit_id x k
    container kind elementKind ids es s :
  let C := get_commit_url server_url project_id commit_id in
  to_key x = Some k →
  available mbse4u s C k container →
  field container elementKind = Some (JList (ref <$> ids)) →
  Forall2 (λ i e, available mbse4u s C (KStr i) e ∧ is_dict e = true) ids es →
  ∃ s',
    Mbse4u.get_contained_elements w server_url project_id commit_id x kind
      elementKind s
    = (Ret (filter (λ e, has_type e kind = true) es), s')
    ∧ trace s' = trace s.
Proof.
  intros C Hk Hav Hfield Hall.
  set (K := λ C' k e, available mbse4u s C' k e).
  assert (knows K s) as Hs by (by intros ???).
  assert (runs K (Mbse4u.get_contained_elements w server_url project_id
                    commit_id x kind elementKind) []
            (Ret (filter (λ e, has_type e kind = true) es))) as Hruns.
  { unfold Mbse4u.get_contained_elements. fold C.
    apply (runs_bind_get K w C x k container); [done..|].
    rewrite (available_truthy _ _ _ _ _ Hav). cbn [negb].
    rewrite (py_get_default_field _ _ _ _ Hfield), bind_ret_l.
    cbn [py_len py_iter]. rewrite !bind_ret_l.
    apply (runs_contained_loop K w C kind ids es []); [by eauto|done]. }
  destruct (Hruns s Hs) as (s' & Hrun & _ & Ht).
  exists s'. split; [done|]. by rewrite Ht, app_nil_r.
Qed.

Lemma contained_elements_filtered_witness :
  ∃ s',
    Mbse4u.get_contained_elements Sample.not_found Sample.server "proj1"
      "commit1" (JStr "cost") "FeatureValue" "ownedRelationship"
      (Sample.warmed Sample.requirements)
    = (Ret [Sample.cost_value], s')
    ∧ trace s' = trace (Sample.warmed Sample.requirements).
Proof.
  apply (contained_elements_filtered Sample.not_found Sample.server "proj1"
           "commit1" (JStr "cost") (KStr "cost") Sample.cost "FeatureValue"
           "ownedRelationship" ["cost-typing"; "cost-value"]
           [Sample.cost_typing; Sample.cost_value]
           (Sample.warmed Sample.requirements)).
  - reflexivity.
  - vm_compute. auto.
  - reflexivity.
  - repeat constructor; vm_compute; auto.
Defined.

Lemma bind_cong {A B} (c : M A) (k k' : A → M B) s :
  (∀ a s1, c s = (Ret a, s1) → k a s1 = k' a s1) → bind c k s = bind c k' s.
Proof.
  intros Hk. unfold bind. destruct (c s) as [[a|e|] s1]; auto.
Qed.

Lemma never_below_loop {A} (recurse : json → M (list A)) raw : ∀ acc s,
  Forall (λ e, has_type e "Element" = true) raw →
  for_fold raw acc (λ all_elements child,
    let* ty := py_get child "@type" in
    if existsb (py_eq ty)
         [JStr "Package"; JStr "PartUsage"; JStr "ItemUsage"]
    then
      let* child_id := py_item child "@id" in
      let* below := recurse child_id in
      ret (all_elements ++ below)%list
    else ret all_elements) s
  = (Ret acc, s).
Proof.
  induction raw as [|child raw IH]; intros acc s Hall; [done|].
  apply Forall_cons in Hall as [Hty Hall].
  cbn [for_fold]. rewrite (py_get_dict child "@type"); [|exact (has_type_is_dict _ _ Hty)].
  rewrite bind_ret_l. unfold has_type in Hty. apply py_eq_str_inv in Hty.
  rewrite Hty. cbn [existsb]. rewrite !py_eq_str.
  cbn [bool_decide orb]. rewrite !bool_decide_eq_false_2 by done.
  cbn [orb]. rewrite bind_ret_l. by apply IH.
Qed.

(** X10. [get_recursive_owned_elements] never descends.  The children it
    would descend into are those returned by [get_contained_elements] for
    the kind ['Element'], each of which has the [@type] ['Element'], and
    the test for ['Package'], ['PartUsage'] or ['ItemUsage'] fails on all of
    them: for every [max_depth] the call behaves as the program without
    loop and recursion that returns the direct children of the requested
    kind (after a second, fruitless look at the container when
    [current_depth < max_depth]), and a call depth of one is enough. *)
Theorem recursive_owned_elements_never_descends fuel w server_url project_id
    commit_id x kind max_depth current_depth s :
  Mbse4u.get_recursive_owned_elements (S fuel) w server_url project_id
    commit_id x kind max_depth current_depth s
  = (if Z.ltb max_depth current_depth then ret []
     else
       let* elements :=
         Mbse4u.get_contained_elements w server_url project_id commit_id x
           kind "ownedElement" in
       if Z.ltb current_depth max_depth then
         let* _ :=
           Mbse4u.get_contained_elements w server_url project_id commit_id x
             "Element" "ownedElement" in
         ret elements
       else ret elements) s.
Proof.
  cbn [Mbse4u.get_recursive_owned_elements].
  destruct (Z.ltb max_depth current_depth); [done|].
  apply bind_cong. intros elements s1 _.
  destruct (Z.ltb current_depth max_depth); [|done].
  apply bind_cong. intros raw s2 Hraw.
  apply get_contained_elements_typed in Hraw.
  by rewrite never_below_loop.
Qed.

(** ** Specialization, once more *)

(** X11. A top level call of [check_specialization_hierarchy] checks no
    element twice, whatever the model and the server: when it returns, the
    checks it has printed are of pairwise different elements, and the
    [visited] set it ends with is the set of these elements. *)
Theorem check_visits_each_element_once fuel w C element super_element s :
  match Mbse4u.check_specialization_hierarchy fuel w C element super_element
          ∅ s with
  | (Ret (_, visited'), s') =>
      ∃ evs, trace s' = (trace s ++ evs)%list
             ∧ NoDup (checked_keys evs)
             ∧ visited' = list_to_set (checked_keys evs)
  | _ => True
  end.
Proof.
  destruct (Mbse4u.check_specialization_hierarchy _ _ _ _ _ _ _)
    as [[[b visited']|e|] s'] eqn:Hrun; [|done..].
  apply check_never_revisits in Hrun as (evs & Ht & Hnd & _ & ->).
  exists evs. split_and!; [done..|]. apply (left_id_L ∅ (∪)).
Qed.

Lemma py_eq_same_key x y k : to_key x = Some k → py_eq x y = true → to_key y = Some k.
Proof.
  destruct x as [|a|z|str| |], y as [|b|z'|str'| |]; try done; simpl.
  - intros <- Heq. by destruct a, b.
  - intros <- ->%Z.eqb_eq. done.
  - intros <- ->%Z.eqb_eq. done.
  - intros <- ->%Z.eqb_eq. done.
  - intros <- ->%String.eqb_eq. done.
Qed.

Lemma checks_fresh_subseteq visited s visited' s' :
  checks_fresh visited s visited' s' → visited ⊆ visited'.
Proof. intros (evs & _ & _ & _ & ->). apply union_subseteq_l. Qed.

Lemma walk_reaches_target
    (recurse : json → gset pykey → M (bool * gset pykey)) w C (P : pykey → Prop) :
  (∀ el visited s b visited' s',
     recurse el visited s = (Ret (b, visited'), s') →
     visited ⊆ visited' ∧ (b = true → ∃ k, P k ∧ k ∈ visited' ∧ k ∉ visited)) →
  ∀ rel_refs visited s b visited' s',
    Mbse4u.walk_specializations recurse w C rel_refs visited s
    = (Ret (b, visited'), s') →
    b = true → ∃ k, P k ∧ k ∈ visited' ∧ k ∉ visited.
Proof.
  intros Hrec. induction rel_refs as [|rel_ref rest IH];
    intros visited s b visited' s' Hrun Hb.
  { injection Hrun as <- _ _. done. }
  cbn [Mbse4u.walk_specializations] in Hrun.
  apply bind_inv in Hrun as (rid & s1 & _ & Hrun).
  apply bind_inv in Hrun as (rel & s2 & _ & Hrun).
  apply bind_inv in Hrun as ([b1 v1] & s3 & Hstep & Hrun).
  assert (visited ⊆ v1 ∧ (b1 = true → ∃ k, P k ∧ k ∈ v1 ∧ k ∉ visited))
    as [Hsub Hfound].
  { destruct (truthy rel); [|by injection Hstep as <- <- _].
    apply bind_inv in Hstep as (general & s4 & _ & Hstep).
    destruct (truthy general); [|by injection Hstep as <- <- _].
    apply bind_inv in Hstep as (gid & s5 & _ & Hstep).
    apply bind_inv in Hstep as (general_el & s6 & _ & Hstep).
    destruct (truthy general_el); [|by injection Hstep as <- <- _].
    by eapply Hrec. }
  cbn [fst snd] in Hrun. destruct b1.
  - injection Hrun as _ <- _. by apply Hfound.
  - destruct (IH _ _ _ _ _ Hrun Hb) as (k & HP & Hin & Hnot).
    exists k. split_and!; [done..|]. intros Hk. apply Hnot. by apply Hsub.
Qed.

(** X12. A positive answer of [check_specialization_hierarchy] is never
    taken from the [visited] set: when a call returns [True], the id of the
    supertype is hashable, its key was not in the [visited] set the call
    started with, and it is in the set the call ends with.  So the
    supertype itself was reached, and by this call. *)
Theorem positive_check_reaches_target fuel : ∀ w C element super_element
    visited s visited' s',
  Mbse4u.check_specialization_hierarchy fuel w C element super_element visited s
  = (Ret (true, visited'), s') →
  ∃ k, to_key (default JNull (field super_element "@id")) = Some k
       ∧ k ∈ visited' ∧ k ∉ visited.
Proof.
  assert (∀ w C element super_element visited s b visited' s',
    Mbse4u.check_specialization_hierarchy fuel w C element super_element
      visited s = (Ret (b, visited'), s') →
    b = true →
    ∃ k, to_key (default JNull (field super_element "@id")) = Some k
         ∧ k ∈ visited' ∧ k ∉ visited) as Hgen; [|by eauto].
  induction fuel as [|fuel IH];
    intros w C element super_element visited s b visited' s' Hrun Hb; [done|].
  rewrite check_specialization_hierarchy_unfold in Hrun.
  apply bind_inv in Hrun as (el_id & s1 & (_ & _ & ->)%py_get_inv & Hrun).
  apply bind_inv in Hrun as (k & s2 & [Hk ->]%lift_inv & Hrun).
  destruct (bool_decide (k ∈ visited)) eqn:Hvisited.
  { injection Hrun as <- _ _. done. }
  apply bool_decide_eq_false in Hvisited. cbv zeta in Hrun.
  apply bind_inv in Hrun as (? & s3 & (_ & _ & ->)%py_get_inv & Hrun).
  apply bind_inv in Hrun as ([] & s4 & _ & Hrun).
  apply bind_inv in Hrun as (super_id & s5 & (_ & -> & ->)%py_get_inv & Hrun).
  destruct (py_eq el_id _) eqn:Heq.
  { injection Hrun as _ <- _. exists k. split_and!; [|set_unfold; auto|done].
    by eapply py_eq_same_key. }
  apply bind_inv in Hrun as (owned & s6 & _ & Hrun).
  apply bind_inv in Hrun as (rel_refs & s7 & _ & Hrun).
  eapply (walk_reaches_target _ w C
            (λ k, to_key (default JNull (field super_element "@id")) = Some k))
    in Hrun as (k' & HP & Hin & Hnot); [|clear Hrun|done].
  - exists k'. split_and!; [done..|]. intros Hk'. apply Hnot. set_unfold. auto.
  - intros el v s0 b0 v' s0' Hrec. split.
    + eapply checks_fresh_subseteq. by eapply check_never_revisits.
    + intros Hb0. by eapply IH.
Qed.

Lemma positive_check_reaches_target_witness :
  ∃ k, to_key (default JNull (field Sample.part_T "@id")) = Some k
       ∧ k ∈ ({[KStr "T"]} ∪ ∅ : gset pykey) ∧ k ∉ (∅ : gset pykey).
Proof.
  apply (positive_check_reaches_target 1 Sample.not_found Sample.commit_url
           Sample.part_T Sample.part_T ∅ initial ({[KStr "T"]} ∪ ∅)
           (with_trace initial [PrintHierarchyCheck (JStr "T")])).
  reflexivity.
Defined.

Lemma runs_check_found K fuel w C element super_element t visited :
  field element "@id" = Some (JStr t) →
  field super_element "@id" = Some (JStr t) →
  KStr t ∉ visited →
  runs K (Mbse4u.check_specialization_hierarchy (S fuel) w C element
            super_element visited)
       [PrintHierarchyCheck (JStr t)] (Ret (true, {[KStr t]} ∪ visited)).
Proof.
  intros Hid Hsid Hfresh.
  rewrite check_specialization_hierarchy_unfold.
  rewrite (py_get_field _ _ _ Hid), bind_ret_l. cbn [to_key lift].
  rewrite bind_ret_l, bool_decide_eq_false_2; [|done]. cbv zeta.
  rewrite (py_get_dict super_element "name"); [|by eapply field_is_dict].
  rewrite bind_ret_l. apply runs_emit.
  rewrite (py_get_field _ _ _ Hsid), bind_ret_l.
  rewrite py_eq_str, bool_decide_eq_true_2; [|done]. apply runs_ret.
Qed.

Lemma last_id_elem_of ids (els : list json) T t :
  Forall2 (λ i e, field e "@id" = Some (JStr i)) ids els →
  last els = Some T → field T "@id" = Some (JStr t) → last ids = Some t.
Proof.
  induction 1 as [|i e ids els Hid Hall IH]; [done|].
  destruct Hall as [|i' e' ids' els' Hid' Hall'].
  - simpl. intros [= <-] Ht. congruence.
  - rewrite !last_cons_cons. apply IH.
Qed.

Lemma runs_check_path w C s T t : ∀ rest element i ids visited fuel,
  field T "@id" = Some (JStr t) →
  field element "@id" = Some (JStr i) →
  Forall2 (λ i e, field e "@id" = Some (JStr i)) ids rest →
  NoDup (i :: ids) →
  (∀ j, j ∈ i :: ids → KStr j ∉ visited) →
  specialization_path s C (element :: rest) →
  last (element :: rest) = Some T →
  (length (element :: rest) ≤ fuel)%nat →
  runs (λ C' k e, available mbse4u s C' k e)
    (Mbse4u.check_specialization_hierarchy fuel w C element T visited)
    ((λ j, PrintHierarchyCheck (JStr j)) <$> i :: ids)
    (Ret (true, list_to_set (KStr <$> i :: ids) ∪ visited)).
Proof.
  set (K := λ C' k e, available mbse4u s C' k e).
  assert (∃ s0, knows K s0) as HsK by (exists s; by intros ???).
  induction rest as [|next rest IH];
    intros element i ids visited fuel HT Hid Hids Hnd Hfresh Hpath Hlast Hfuel.
  - apply Forall2_nil_inv_r in Hids as ->. injection Hlast as ->.
    assert (i = t) as -> by congruence.
    destruct fuel as [|fuel]; [simpl in Hfuel; lia|].
    cbn [fmap list_fmap list_to_set].
    rewrite (right_id_L ∅ (∪) {[KStr t]}).
    apply runs_check_found; [done..|]. apply Hfresh. set_unfold. auto.
  - apply Forall2_cons_inv_r in Hids as (i' & ids' & Hid' & Hids' & ->).
    destruct Hpath as [(r & g & rel & others & Hspec & Hrel & Hgen & Hnext) Hpath].
    destruct fuel as [|fuel]; [simpl in Hfuel; lia|].
    assert (i ≠ t) as Hit.
    { intros ->. apply NoDup_cons in Hnd as [Hnotin _]. apply Hnotin.
      rewrite last_cons_cons in Hlast.
      pose proof (last_id_elem_of (i' :: ids') (next :: rest) T t
                    ltac:(by constructor) Hlast HT) as Hl.
      by apply last_Some_elem_of. }
    assert (list_to_set (KStr <$> i :: i' :: ids') ∪ visited
            =@{gset pykey}
            list_to_set (KStr <$> i' :: ids') ∪ ({[KStr i]} ∪ visited)) as ->.
    { rewrite (fmap_cons KStr i). cbn [list_to_set].
      rewrite (comm_L (∪) {[KStr i]}). by rewrite <-(assoc_L (∪)). }
    cbn [fmap list_fmap].
    eapply runs_check_enter; [done|done|done| |exact Hspec|].
    { apply Hfresh. set_unfold. auto. }
    eapply (runs_walk_edge K _ w C r g rel next); [done..|].
    eapply (runs_bind K _ _ _ _ []); [| |by rewrite app_nil_r].
    + apply (IH next i' ids' ({[KStr i]} ∪ visited) fuel); try done.
      * by apply NoDup_cons in Hnd as [_ ?].
      * intros j Hj. apply NoDup_cons in Hnd as [Hnotin _].
        set_unfold. intros [[= ->]|Hv]; [by apply Hnotin; set_unfold|].
        eapply Hfresh; [|exact Hv]. set_unfold. auto.
      * simpl in *. lia.
    + cbn [fst snd].
      apply runs_ret.
Qed.

Lemma last_has_id ids (els : list json) T :
  Forall2 (λ i e, field e "@id" = Some (JStr i)) ids els →
  last els = Some T → ∃ t, field T "@id" = Some (JStr t).
Proof.
  induction 1 as [|i e ids els Hid Hall IH]; [done|].
  destruct Hall as [|i' e' ids' els' Hid' Hall'].
  - simpl. intros [= <-]. eauto.
  - rewrite last_cons_cons. apply IH.
Qed.

(** X13. Specialization is followed transitively.  Along a path of
    elements with pairwise different ids in which each element specializes
    the next one by the first of its owned specializations (relationships
    and elements resolvable from the caches), the check of the first
    element against the last one returns [True] as soon as the call depth
    may reach the length of the path; the elements of the path are checked
    once each, in the order of the path, they are what the [visited] set
    ends with, and nothing is requested. *)
Theorem specialization_followed_transitively w C s ids path A T fuel :
  Forall2 (λ i e, field e "@id" = Some (JStr i)) ids path →
  NoDup ids →
  head path = Some A → last path = Some T →
  specialization_path s C path →
  (length path ≤ fuel)%nat →
  ∃ s',
    Mbse4u.check_specialization_hierarchy fuel w C A T ∅ s
    = (Ret (true, list_to_set (KStr <$> ids)), s')
    ∧ trace s'
      = (trace s ++ ((λ j, PrintHierarchyCheck (JStr j)) <$> ids))%list.
Proof.
  intros Hids Hnd Hhead Hlast Hpath Hfuel.
  destruct (last_has_id _ _ _ Hids Hlast) as [t HT].
  destruct Hids as [|i e ids path Hid Hids]; [done|].
  injection Hhead as ->.
  pose proof (runs_check_path w C s T t path A i ids ∅ fuel HT Hid Hids Hnd)
    as Hruns.
  destruct (Hruns ltac:(intros; apply not_elem_of_empty) Hpath Hlast Hfuel s)
    as (s' & Hrun & _ & Ht).
  { by intros ???. }
  exists s'. split; [|done]. rewrite Hrun.
  by rewrite (right_id_L ∅ (∪)).
Qed.

Lemma specialization_followed_transitively_witness :
  ∃ s',
    Mbse4u.check_specialization_hierarchy 2 Sample.not_found Sample.commit_url
      Sample.part_A Sample.part_B ∅ (Sample.warmed Sample.cycle)
    = (Ret (true, list_to_set (KStr <$> ["A"; "B"])), s')
    ∧ trace s'
      = (trace (Sample.warmed Sample.cycle)
           ++ ((λ j, PrintHierarchyCheck (JStr j)) <$> ["A"; "B"]))%list.
Proof.
  apply (specialization_followed_transitively Sample.not_found
           Sample.commit_url (Sample.warmed Sample.cycle) ["A"; "B"]
           [Sample.part_A; Sample.part_B] Sample.part_A Sample.part_B 2).
  - repeat constructor.
  - repeat constructor; set_unfold; intros H; try done.
    by destruct H as [[=]|[]].
  - reflexivity.
  - reflexivity.
  - split; [|done].
    exists "A-B", "B", Sample.A_specializes_B, [].
    split_and!; try reflexivity;
      (split; [vm_compute; reflexivity | left; reflexivity]).
  - simpl. lia.
Defined.

(** ** Elements specializing a supertype *)

(** X14. A qualified name that matches nothing makes
    [find_elements_specializing] raise: [get_elements_byProperty_fromAPI]
    answers a successful query without a match with the list that holds
    one (empty) list, which is not empty, so the first item, a list, is
    taken for the supertype and [super_element.get] raises
    [AttributeError]; the candidates are not looked at. *)
Theorem specializing_unknown_supertype_raises fuel w server_url project_id
    commit_id elements super_element_name element_kind txt s :
  http_post w (query_results_url server_url project_id commit_id)
    (primitive_constraint "qualifiedName" super_element_name)
  = Response 200 txt (Some (JList [])) →
  ∃ s',
    Mbse4u.find_elements_specializing fuel w server_url project_id commit_id
      elements super_element_name element_kind s
    = (Raise AttributeError, s')
    ∧ trace s'
      = (trace s ++ [SessionPost
                       (query_results_url server_url project_id commit_id)
                       (primitive_constraint "qualifiedName"
                          super_element_name)])%list.
Proof.
  intros Hpost.
  unfold Mbse4u.find_elements_specializing,
    Mbse4u.get_elements_byProperty_fromAPI, try_except, session_post.
  cbv [bind emit ret]. rewrite Hpost.
  cbn [status_code Z.eqb Pos.eqb response_json py_iter for_fold].
  cbv [ret]. cbn [app truthy py_first]. cbv [ret py_get py_get_default raise].
  eauto.
Qed.

Lemma specializing_unknown_supertype_raises_witness :
  ∃ s',
    Mbse4u.find_elements_specializing 5 (Sample.serving (JList []))
      Sample.server "proj1" "commit1" [Sample.part_A] "Pkg::Missing" None
      initial
    = (Raise AttributeError, s')
    ∧ trace s'
      = (trace initial
           ++ [SessionPost (query_results_url Sample.server "proj1" "commit1")
                 (primitive_constraint "qualifiedName" "Pkg::Missing")])%list.
Proof.
  apply (specializing_unknown_supertype_raises 5 (Sample.serving (JList []))
           Sample.server "proj1" "commit1" [Sample.part_A] "Pkg::Missing"
           None "" initial).
  reflexivity.
Defined.

Lemma specializing_step_selects fuel w C super_element element_kind
    found_elements el s r s' :
  (let* skip :=
     match element_kind with
     | Some kind =>
         if truthy (JStr kind) then
           let* ty := py_get el "@type" in ret (negb (py_eq ty (JStr kind)))
         else ret false
     | None => ret false
     end in
   if skip : bool then ret found_elements
   else
     let* r := Mbse4u.check_specialization_hierarchy fuel w C el super_element ∅ in
     if r.1 then
       let* el_id := py_get el "@id" in
       let* super_id := py_get super_element "@id" in
       if negb (py_eq el_id super_id)
       then ret (found_elements ++ [el])%list
       else ret found_elements
     else ret found_elements) s = (Ret r, s') →
  r = found_elements
  ∨ r = (found_elements ++ [el])%list
    ∧ (∀ kind, element_kind = Some kind → kind ≠ "" → has_type el kind = true)
    ∧ ∃ visited s1 s2,
        Mbse4u.check_specialization_hierarchy fuel w C el super_element ∅ s1
        = (Ret (true, visited), s2).
Proof.
  intros Hrun. apply bind_inv in Hrun as (skip & s1 & Hskip & Hrun).
  destruct skip; [left; by injection Hrun|].
  apply bind_inv in Hrun as ([b visited] & s2 & Hcheck & Hrun).
  destruct b; cbn [fst] in Hrun; [|left; by injection Hrun].
  apply bind_inv in Hrun as (el_id & s3 & _ & Hrun).
  apply bind_inv in Hrun as (super_id & s4 & _ & Hrun).
  destruct (py_eq _ _); cbn [negb] in Hrun; [left; by injection Hrun|].
  right. injection Hrun as <- _. split_and!; [done| |by eauto].
  intros kind -> Hkind.
  assert (truthy (JStr kind) = true) as Htr by (by destruct kind).
  rewrite Htr in Hskip.
  apply bind_inv in Hskip as (ty & s5 & (_ & -> & _)%py_get_inv & Hskip).
  injection Hskip as Hneg _. unfold has_type. by destruct (py_eq _ _).
Qed.

(** X15. What [find_elements_specializing] returns is a selection of the
    candidates: whatever the model and the server, a returned list is a
    sublist of [elements] (same order, nothing added, nothing twice that
    was not twice among the candidates), and when a non-empty
    [element_kind] is given every element of it has that [@type]. *)
Theorem specializing_result_is_selection fuel w server_url project_id
    commit_id elements super_element_name element_kind s :
  match (Mbse4u.find_elements_specializing fuel w server_url project_id
           commit_id elements super_element_name element_kind s).1 with
  | Ret found =>
      found `sublist_of` elements
      ∧ ∀ kind, element_kind = Some kind → kind ≠ "" →
                Forall (λ e, has_type e kind = true) found
  | _ => True
  end.
Proof.
  destruct (Mbse4u.find_elements_specializing _ _ _ _ _ _ _ _ _)
    as [[found|e|] s'] eqn:Hrun; [|done..]. cbn [fst].
  unfold Mbse4u.find_elements_specializing in Hrun.
  apply bind_inv in Hrun as (supers & s1 & _ & Hrun).
  destruct (truthy supers).
  2:{ injection Hrun as <- _. split; [apply sublist_nil_l|]. by constructor. }
  apply bind_inv in Hrun as (super_element & s2 & _ & Hrun).
  apply bind_inv in Hrun as (? & s3 & _ & Hrun).
  cut (∃ l, found = ([] ++ l)%list ∧ l `sublist_of` elements
            ∧ ∀ kind, element_kind = Some kind → kind ≠ "" →
                      Forall (λ e, has_type e kind = true) l).
  { intros (l & -> & ? & ?). done. }
  revert Hrun. generalize (@nil json) at 1 3 as acc. generalize s3. clear.
  induction elements as [|el elements IH]; intros s acc Hrun.
  - injection Hrun as <- _. exists []. rewrite app_nil_r.
    split_and!; [done..|]. by constructor.
  - cbn [for_fold] in Hrun.
    apply bind_inv in Hrun as (acc' & s1 & Hstep & Hrun).
    apply IH in Hrun as (l & -> & Hsub & Hkind).
    apply specializing_step_selects in Hstep as [->|(-> & Hel & _)].
    + exists l. split_and!; [done| |done]. by apply sublist_cons.
    + exists (el :: l). rewrite <-app_assoc. split_and!; [done| |].
      * by apply sublist_skip.
      * intros kind Hk Hne. constructor; eauto.
Qed.

(** ** Features, once more *)

Lemma first_wanted_feature feature_kind feature_name before F after s :
  Forall (λ e, is_dict e = true ∧ is_wanted feature_kind feature_name e = false)
    before →
  is_dict F = true → is_wanted feature_kind feature_name F = true →
  for_return (before ++ F :: after) (λ usage,
    let* hit := Mbse4u.is_feature feature_kind feature_name usage in
    ret (if hit : bool then Some usage else None)) s
  = (Ret (Some F), s).
Proof.
  intros Hbefore HF Hwanted.
  induction Hbefore as [|e before [He Hno] _ IH].
  - cbn [app for_return]. rewrite is_feature_dict; [|done].
    by rewrite bind_ret_l, Hwanted, bind_ret_l.
  - cbn [app for_return]. rewrite is_feature_dict; [|done].
    rewrite bind_ret_l, Hno, bind_ret_l. apply IH.
Qed.

Lemma resolved_are_dicts {A} (R : A → json → Prop) ids es :
  Forall2 (λ i e, R i e ∧ is_dict e = true) ids es →
  Forall (λ e, is_dict e = true) es.
Proof. induction 1 as [|i e ids es [_ ?] _ IH]; by constructor. Qed.

Lemma direct_features_get owner feature_kind :
  is_dict owner = true →
  match assoc feature_kind Mbse4u.feature_kind_mapping with
  | Some role => py_get_default owner role (JList [])
  | None => ret (JList [])
  end = ret (direct_features owner feature_kind).
Proof.
  intros Hown. unfold direct_features.
  destruct (assoc _ _); [|done]. by rewrite py_get_default_dict.
Qed.

(** X16. [get_feature] returns the first direct feature that matches, and
    then does not look at the inherited ones: when the direct features of
    the requested kind resolve from the caches and [F] is the first of them
    with the requested kind and name, the result is [F], without a request,
    also for an owner that has no [inheritedFeature] at all. *)
Theorem get_feature_first_direct w server_url project_id commit_id owner
    feature_name feature_kind ids before F after s :
  let C := get_commit_url server_url project_id commit_id in
  is_dict owner = true →
  direct_features owner feature_kind = JList (ref <$> ids) →
  Forall2 (λ i e, available mbse4u s C (KStr i) e ∧ is_dict e = true) ids
    (before ++ F :: after) →
  Forall (λ e, is_wanted feature_kind feature_name e = false) before →
  is_wanted feature_kind feature_name F = true →
  ∃ s', Mbse4u.get_feature w server_url project_id commit_id owner
          feature_name feature_kind s = (Ret F, s')
        ∧ trace s' = trace s.
Proof.
  intros C Hown Hdirect Hall Hbefore Hwanted.
  set (K := λ C' k e, available mbse4u s C' k e).
  assert (knows K s) as Hs by (by intros ???).
  assert (runs K (Mbse4u.get_feature w server_url project_id commit_id owner
                    feature_name feature_kind) [] (Ret F)) as Hruns.
  { unfold Mbse4u.get_feature. fold C.
    rewrite (py_get_dict owner "@id"); [|done]. rewrite bind_ret_l.
    rewrite direct_features_get, Hdirect; [|done].
    rewrite bind_ret_l. cbn [py_iter]. rewrite bind_ret_l.
    eapply runs_ext.
    { intros s0. unfold bind at 1. by rewrite feature_ids_of_refs. }
    cbn [app].
    eapply (runs_bind K _ _ ([] ++ (before ++ F :: after))%list [] []);
      [| |done].
    { by apply runs_get_elements. }
    cbn [app]. eapply runs_ext.
    { intros s0. unfold bind at 1. rewrite first_wanted_feature; [done| |..].
      - apply resolved_are_dicts in Hall.
        apply Forall_app in Hall as [Hb _].
        rewrite Forall_forall in *. intros e He. split; by auto.
      - apply resolved_are_dicts in Hall.
        by apply Forall_app in Hall as [_ [? _]%Forall_cons].
      - done. }
    apply runs_ret. }
  destruct (Hruns s Hs) as (s' & Hrun & _ & Ht).
  exists s'. split; [done|]. by rewrite Ht, app_nil_r.
Qed.

Lemma get_feature_first_direct_witness :
  ∃ s', Mbse4u.get_feature Sample.not_found Sample.server "proj1" "commit1"
          Sample.requirement "cost" "AttributeUsage"
          (Sample.warmed Sample.requirements) = (Ret Sample.cost, s')
        ∧ trace s' = trace (Sample.warmed Sample.requirements).
Proof.
  apply (get_feature_first_direct Sample.not_found Sample.server "proj1"
           "commit1" Sample.requirement "cost" "AttributeUsage" ["cost"]
           [] Sample.cost [] (Sample.warmed Sample.requirements)).
  - reflexivity.
  - reflexivity.
  - repeat constructor; vm_compute; auto.
  - constructor.
  - reflexivity.
Defined.

Lemma runs_inherited_loop K w C feature_kind feature_name f F after :
  (∃ s, knows K s) →
  K C (KStr f) F → is_dict F = true →
  is_wanted feature_kind feature_name F = true →
  ∀ ids before,
  Forall2 (λ i e, K C (KStr i) e ∧ is_dict e = true
                  ∧ is_wanted feature_kind feature_name e = false) ids before →
  runs K
    (for_return (ref <$> (ids ++ f :: after)%list) (λ inherited_feature_id,
       let* id := py_get inherited_feature_id "@id" in
       let* inherited_feature := Mbse4u.get_element_fromAPI w C id in
       let* hit := Mbse4u.is_feature feature_kind feature_name inherited_feature in
       ret (if hit : bool then Some inherited_feature else None)))
    [] (Ret (Some F)).
Proof.
  intros Hs HF HdF Hwanted ids before Hall.
  induction Hall as [|i e ids before (HK & He & Hno) _ IH].
  - cbn [app fmap list_fmap for_return].
    change (py_get (ref f) "@id") with (@ret json (JStr f)).
    rewrite bind_ret_l. apply runs_bind_assoc.
    apply (runs_bind_get K w C _ (KStr f) F); [done..|].
    rewrite is_feature_dict; [|done].
    rewrite bind_ret_l, Hwanted, bind_ret_l. apply runs_ret.
  - cbn [app fmap list_fmap for_return].
    change (py_get (ref i) "@id") with (@ret json (JStr i)).
    rewrite bind_ret_l. apply runs_bind_assoc.
    apply (runs_bind_get K w C _ (KStr i) e); [done..|].
    rewrite is_feature_dict; [|done].
    rewrite bind_ret_l, Hno, bind_ret_l. apply IH.
Qed.

(** X17. The fallback of [get_feature] to the inherited features: when no
    direct feature of the requested kind has the requested name, the
    inherited features are resolved one after the other, in the order of
    the owner's [inheritedFeature] list, and the first one with the
    requested kind and name is returned; the references after it are not
    resolved (they need not resolve at all). *)
Theorem get_feature_first_inherited w server_url project_id commit_id owner
    feature_name feature_kind ids es inherited_ids before f F after s :
  let C := get_commit_url server_url project_id commit_id in
  is_dict owner = true →
  direct_features owner feature_kind = JList (ref <$> ids) →
  Forall2 (λ i e, available mbse4u s C (KStr i) e ∧ is_dict e = true
                  ∧ is_wanted feature_kind feature_name e = false) ids es →
  field owner "inheritedFeature"
    = Some (JList (ref <$> (inherited_ids ++ f :: after)%list)) →
  Forall2 (λ i e, available mbse4u s C (KStr i) e ∧ is_dict e = true
                  ∧ is_wanted feature_kind feature_name e = false)
    inherited_ids before →
  available mbse4u s C (KStr f) F → is_dict F = true →
  is_wanted feature_kind feature_name F = true →
  ∃ s', Mbse4u.get_feature w server_url project_id commit_id owner
          feature_name feature_kind s = (Ret F, s')
        ∧ trace s' = trace s.
Proof.
  intros C Hown Hdirect Hall Hinh Hbefore HF HdF Hwanted.
  set (K := λ C' k e, available mbse4u s C' k e).
  assert (knows K s) as Hs by (by intros ???).
  assert (runs K (Mbse4u.get_feature w server_url project_id commit_id owner
                    feature_name feature_kind) [] (Ret F)) as Hruns.
  { unfold Mbse4u.get_feature. fold C.
    rewrite (py_get_dict owner "@id"); [|done]. rewrite bind_ret_l.
    rewrite direct_features_get, Hdirect; [|done].
    rewrite bind_ret_l. cbn [py_iter]. rewrite bind_ret_l.
    eapply runs_ext.
    { intros s0. unfold bind at 1. by rewrite feature_ids_of_refs. }
    cbn [app].
    eapply (runs_bind K _ _ ([] ++ es)%list [] []); [| |done].
    { apply runs_get_elements.
      clear -Hall. induction Hall as [|i e ids es (? & ? & ?) _ IH];
        by constructor. }
    cbn [app]. eapply runs_ext.
    { intros s0. unfold bind at 1. rewrite no_wanted_feature; [done|].
      clear -Hall. induction Hall as [|i e ids es (? & ? & ?) _ IH];
        by constructor. }
    rewrite (py_get_field _ _ _ Hinh), bind_ret_l.
    cbn [py_len py_iter]. rewrite !bind_ret_l.
    eapply (runs_bind K _ _ (Some F) [] []); [| |done].
    { apply (runs_inherited_loop K w C feature_kind feature_name f F after
               ltac:(by eauto) HF HdF Hwanted inherited_ids before Hbefore). }
    apply runs_ret. }
  destruct (Hruns s Hs) as (s' & Hrun & _ & Ht).
  exists s'. split; [done|]. by rewrite Ht, app_nil_r.
Qed.

Lemma get_feature_first_inherited_witness :
  ∃ s', Mbse4u.get_feature Sample.not_found Sample.server "proj1" "commit1"
          Fixture.derived "cost" "AttributeUsage"
          (Sample.warmed Sample.requirements) = (Ret Sample.cost, s')
        ∧ trace s' = trace (Sample.warmed Sample.requirements).
Proof.
  apply (get_feature_first_inherited Sample.not_found Sample.server "proj1"
           "commit1" Fixture.derived "cost" "AttributeUsage" ["risk"]
           [Sample.risk] ["cost-typing"] [Sample.cost_typing] "cost"
           Sample.cost ["gone"] (Sample.warmed Sample.requirements)).
  - reflexivity.
  - reflexivity.
  - repeat constructor; vm_compute; auto.
  - reflexivity.
  - repeat constructor; vm_compute; auto.
  - vm_compute. auto.
  - reflexivity.
  - reflexivity.
Defined.

(** ** Metadata *)

Lemma first_definition_named definitions name s :
  Forall (λ d, is_dict d = true ∧ is_Some (field d "@id")) definitions →
  for_return definitions (λ item,
    let* short := py_get item "declaredShortName" in
    if py_eq short (JStr name) then
      let* id := py_item item "@id" in ret (Some id)
    else ret None) s
  = (Ret (definition_named definitions name), s).
Proof.
  induction 1 as [|d definitions [Hd [id Hid]] _ IH]; [done|].
  cbn [for_return]. rewrite (py_get_dict d); [|done]. rewrite bind_ret_l.
  unfold definition_named. cbn [find].
  destruct (py_eq _ _).
  - rewrite (py_item_field _ _ _ Hid), !bind_ret_l. simpl. by rewrite Hid.
  - rewrite bind_ret_l. apply IH.
Qed.

Lemma ids_by_name_loop m definitions names : ∀ (acc : gmap string json) s,
  Forall (λ d, is_dict d = true ∧ is_Some (field d "@id")) definitions →
  ∃ id_map,
    for_fold names acc (λ id_map shortName,
      let* matched_id :=
        for_return definitions (λ item,
          let* short := py_get item "declaredShortName" in
          if py_eq short (JStr shortName) then
            let* id := py_item item "@id" in ret (Some id)
          else ret None) in
      ret (match m with
           | api => <[shortName := default JNull matched_id]> id_map
           | mbse4u =>
               match matched_id with
               | Some id => <[shortName := id]> id_map
               | None => id_map
               end
           end)) s = (Ret id_map, s)
    ∧ ∀ name,
        id_map !! name
        = if decide (name ∈ names)
          then match id_entry m definitions name with
               | Some id => Some id
               | None => acc !! name
               end
          else acc !! name.
Proof.
  intros acc s Hwf. revert acc.
  induction names as [|n names IH]; intros acc.
  - exists acc. split; [done|]. intros name.
    rewrite decide_False; [done|apply not_elem_of_nil].
  - cbn [for_fold]. unfold bind at 1. unfold bind at 1.
    rewrite first_definition_named; [|done]. unfold ret at 1.
    match goal with |- context [for_fold names ?a] =>
      destruct (IH a) as (id_map & -> & Hmap) end.
    exists id_map. split; [done|]. intros name. rewrite Hmap.
    destruct (decide (name = n)) as [->|Hne].
    + rewrite (decide_True (P := n ∈ n :: names)); [|set_unfold; auto].
      destruct (decide (n ∈ names)).
      * destruct m; simpl; [done|].
        destruct (definition_named definitions n); [done|done].
      * destruct m; simpl.
        -- by rewrite lookup_insert_eq.
        -- destruct (definition_named definitions n); [|done].
           by rewrite lookup_insert_eq.
    + assert (∀ v : json, <[n:=v]> acc !! name = acc !! name) as Hins.
      { intros v. by rewrite lookup_insert_ne. }
      destruct (decide (name ∈ names)).
      * rewrite decide_True; [|set_unfold; auto].
        destruct (id_entry m definitions name); [done|].
        destruct m; [apply Hins|].
        destruct (definition_named definitions n); [apply Hins|done].
      * rewrite decide_False; [|set_unfold; by intros [?|?]].
        destruct m; [apply Hins|].
        destruct (definition_named definitions n); [apply Hins|done].
Qed.

(** X18. [get_metadata_ids_by_name]: the first definition wins, and the two
    modules differ on a name without a definition.  When the query for the
    metadata definitions returns the records [definitions], every requested
    short name is mapped to the id of the first definition with that
    [declaredShortName]; a requested name that no definition carries is
    left out of the map by the mbse4u module and mapped to [None] by the
    sibling module; no other key is in the map. *)
Theorem metadata_ids_by_name m w server_url project_id commit_id names
    definitions s s1 :
  Forall (λ d, is_dict d = true ∧ is_Some (field d "@id")) definitions →
  metadata_definitions_of m w server_url project_id commit_id s
    = (Ret (JList definitions), s1) →
  ∃ id_map,
    get_metadata_ids_by_name_of m w server_url project_id commit_id names s
      = (Ret id_map, s1)
    ∧ ∀ name,
        id_map !! name
        = if decide (name ∈ names) then id_entry m definitions name else None.
Proof.
  intros Hwf Hquery.
  destruct (ids_by_name_loop m definitions names ∅ s1 Hwf)
    as (id_map & Hloop & Hmap).
  exists id_map. split.
  - destruct m; simpl in Hquery |- *.
    + unfold Api.get_metadata_ids_by_name.
      by rewrite (bind_run _ _ _ _ _ Hquery).
    + unfold Mbse4u.get_metadata_ids_by_name.
      by rewrite (bind_run _ _ _ _ _ Hquery).
  - intros name. rewrite Hmap, lookup_empty.
    destruct (decide _); [|done]. by destruct (id_entry _ _ _).
Qed.

Lemma metadata_ids_by_name_witness :
  ∃ id_map,
    Mbse4u.get_metadata_ids_by_name (Sample.serving (JList Fixture.definitions))
      Sample.server "proj1" "commit1" ["ST"; "XX"] initial
      = (Ret id_map,
         (Mbse4u.get_elements_byKind_fromAPI
            (Sample.serving (JList Fixture.definitions)) Sample.server "proj1"
            "commit1" (JStr "MetadataDefinition") initial).2)
    ∧ ∀ name,
        id_map !! name
        = if decide (name ∈ ["ST"; "XX"])
          then id_entry mbse4u Fixture.definitions name else None.
Proof.
  apply (metadata_ids_by_name mbse4u (Sample.serving (JList Fixture.definitions))
           Sample.server "proj1" "commit1" ["ST"; "XX"] Fixture.definitions
           initial).
  - repeat constructor; by eexists.
  - vm_compute. reflexivity.
Defined.

Lemma for_fold_ret_inv_elem {A B} (P : B → Prop) (body : B → A → M B) l :
  (∀ acc x s r s', x ∈ l → P acc → body acc x s = (Ret r, s') → P r) →
  ∀ acc s r s', P acc → for_fold l acc body s = (Ret r, s') → P r.
Proof.
  induction l as [|x l IH]; intros Hbody acc s r s' Hacc Hrun.
  - cbv [for_fold ret] in Hrun. by simplify_eq.
  - cbn [for_fold] in Hrun.
    apply bind_inv in Hrun as (acc' & s1 & Hstep & Hrun).
    eapply IH; [|eapply (Hbody acc x)|exact Hrun]; [|by left|done|exact Hstep].
    intros acc0 y s0 r0 s0' Hy. apply Hbody. by right.
Qed.

Lemma collect_annotated_keys usages defs results s r s' :
  dom results =@{gset string} list_to_set defs.*1 →
  collect_annotated usages defs results s = (Ret r, s') →
  dom r =@{gset string} list_to_set defs.*1.
Proof.
  unfold collect_annotated.
  apply (for_fold_ret_inv (λ r, dom r =@{gset string} list_to_set defs.*1)).
  clear. intros acc item s r s' Hacc Hbody.
  apply bind_inv in Hbody as (metadata & s1 & _ & Hbody).
  apply bind_inv in Hbody as (metadata_id & s2 & _ & Hbody).
  revert Hacc Hbody.
  apply (for_fold_ret_inv_elem (λ r, dom r =@{gset string} list_to_set defs.*1)).
  intros acc' [key d] t r' t' Hin Hacc' Hstep.
  destruct (py_eq _ _); [|by injection Hstep as <- _].
  apply bind_inv in Hstep as (ids & t1 & _ & Hstep).
  injection Hstep as <- _. rewrite dom_insert_L, Hacc'.
  apply (subseteq_union_1_L (C := gset string)).
  apply singleton_subseteq_l, elem_of_list_to_set, list_elem_of_fmap.
  by exists (key, d).
Qed.

(** X19. [get_metadatausage_annotatedElement_ids] answers for the requested
    keys and for nothing else: whatever the server returns for the metadata
    usages (records of any shape, or nothing after a failed query), the keys
    of a returned result are exactly the keys of [metadefinition_dict].  It
    holds of both modules. *)
Theorem annotated_ids_keys m w server_url project_id commit_id
    metadefinition_dict s :
  match (get_metadatausage_annotatedElement_ids_of m w server_url project_id
           commit_id metadefinition_dict s).1 with
  | Ret results => dom results =@{gset string} list_to_set metadefinition_dict.*1
  | _ => True
  end.
Proof.
  destruct (get_metadatausage_annotatedElement_ids_of _ _ _ _ _ _ _)
    as [[results|e|] s'] eqn:Hrun; [|done..]. cbn [fst].
  assert (dom (empty_results metadefinition_dict)
          =@{gset string} list_to_set metadefinition_dict.*1) as Hempty.
  { unfold empty_results. rewrite dom_list_to_map_L.
    by rewrite <-list_fmap_compose. }
  destruct m; simpl in Hrun.
  - unfold Api.get_metadatausage_annotatedElement_ids in Hrun.
    apply bind_inv in Hrun as (usages & s1 & _ & Hrun).
    apply bind_inv in Hrun as (items & s2 & _ & Hrun).
    by eapply collect_annotated_keys.
  - unfold Mbse4u.get_metadatausage_annotatedElement_ids in Hrun.
    apply bind_inv in Hrun as (usages & s1 & _ & Hrun).
    apply bind_inv in Hrun as ([] & s2 & _ & Hrun).
    apply bind_inv in Hrun as (items & s3 & _ & Hrun).
    by eapply collect_annotated_keys.
Qed.

(** ** Queries by declared name *)

Lemma redefinitions_of_name_adds_nothing server_url project_id commit_id name
    el acc s r s' :
  Mbse4u.redefinitions_of_name server_url project_id commit_id name el acc s
  = (Ret r, s') → r = acc.
Proof.
  unfold Mbse4u.redefinitions_of_name. intros Hrun.
  apply bind_inv in Hrun as (owned & s1 & _ & Hrun).
  apply bind_inv in Hrun as (ids & s2 & _ & Hrun).
  revert Hrun. apply (for_fold_ret_inv (λ r, r = acc)); [|done].
  intros acc' x t r' t' -> Hbody.
  apply bind_inv in Hbody as (rid & t1 & _ & Hbody).
  by apply bind_inv in Hbody as (? & t2 & ? & _).
Qed.

Lemma finishes_redefinitions_of_name server_url project_id commit_id name el acc :
  finishes (Mbse4u.redefinitions_of_name server_url project_id commit_id name
              el acc).
Proof.
  apply finishes_bind; [apply finishes_py_get_default|]. intros owned.
  apply finishes_bind; [apply finishes_py_iter|]. intros ids.
  apply finishes_for_fold. intros acc' relationshipID.
  apply finishes_bind; [apply finishes_py_item|]. intros rid.
  apply finishes_bind; [apply finishes_raise|]. intros relationship.
  apply finishes_bind; [apply finishes_py_get|]. intros rtype.
  destruct (py_eq _ _); [|apply finishes_ret].
  apply finishes_bind; [apply finishes_py_get|]. intros redefinedFeature.
  apply finishes_bind; [apply finishes_py_get|]. intros redefinedFeatureID.
  apply finishes_bind; [apply finishes_raise|]. intros redefinedElement.
  apply finishes_bind; [apply finishes_py_get|]. intros found.
  destruct (py_eq _ _); apply finishes_ret.
Qed.

(** X20. The redefinition search of [get_elements_byDeclaredName_fromAPI]
    never finds anything.  It resolves a relationship with
    [get_element_fromAPI(server_url, project_id, commit_id, id)], four
    arguments for a function of two, which raises [TypeError]; the
    [except] clause of the function turns that into the empty list.  So the
    call always returns, and its result is either the empty list (after any
    failure, the [TypeError] among them) or the matched elements followed
    by one empty list. *)
Theorem declared_name_query_adds_nothing w server_url project_id commit_id
    name s :
  ∃ v s',
    Mbse4u.get_elements_byDeclaredName_fromAPI w server_url project_id
      commit_id name s = (Ret v, s')
    ∧ (v = JList [] ∨ ∃ matched, v = JList (matched ++ [JList []])).
Proof.
  unfold Mbse4u.get_elements_byDeclaredName_fromAPI, try_except.
  match goal with |- context [match ?c s with _ => _ end] => set (body := c) end.
  assert (finishes body) as Hfin.
  { apply finishes_bind; [apply finishes_session_post|]. intros r.
    destruct (Z.eqb _ _); [|apply finishes_raise].
    apply finishes_bind; [apply finishes_response_json|]. intros j.
    apply finishes_bind; [apply finishes_py_iter|]. intros found.
    apply finishes_bind; [|intros add; destruct j; by intros ?].
    apply finishes_for_fold. intros acc element.
    apply finishes_bind; [apply finishes_py_get_default|]. intros kind.
    apply finishes_bind; [apply finishes_query_kind|]. intros same.
    apply finishes_bind; [apply finishes_py_iter|]. intros els.
    apply finishes_for_fold. intros acc' el.
    apply finishes_bind; [apply finishes_py_get|]. intros el_id.
    apply finishes_bind; [apply finishes_py_get|]. intros element_id.
    destruct (negb _); [apply finishes_redefinitions_of_name|apply finishes_ret]. }
  specialize (Hfin s). destruct (body s) as [[v|e|] s1] eqn:Hbody; [| |done].
  - exists v, s1. split; [done|]. right. subst body.
    apply bind_inv in Hbody as (r & s2 & _ & Hbody).
    destruct (Z.eqb _ _); [|done].
    apply bind_inv in Hbody as (j & s3 & _ & Hbody).
    apply bind_inv in Hbody as (found & s4 & _ & Hbody).
    apply bind_inv in Hbody as (add & s5 & Hadd & Hbody).
    assert (add = []) as ->.
    { revert Hadd. apply (for_fold_ret_inv (λ r, r = [])); [|done].
      intros acc element t r' t' -> Hstep.
      apply bind_inv in Hstep as (kind & t1 & _ & Hstep).
      apply bind_inv in Hstep as (same & t2 & _ & Hstep).
      apply bind_inv in Hstep as (els & t3 & _ & Hstep).
      revert Hstep. apply (for_fold_ret_inv (λ r, r = [])); [|done].
      intros acc' el u r'' u' -> Hin.
      apply bind_inv in Hin as (el_id & u1 & _ & Hin).
      apply bind_inv in Hin as (element_id & u2 & _ & Hin).
      destruct (negb _); [|by injection Hin].
      by eapply redefinitions_of_name_adds_nothing. }
    destruct j as [| | | |l|]; try done. injection Hbody as <- _. eauto.
  - eexists _, _. split; [reflexivity|]. by left.
Qed.

(** Two attributes are matched and each owns a relationship: the search
    reaches the call with four arguments and the matches are lost. *)
Example declared_name_query_lost_example :
  let r :=
    Mbse4u.get_elements_byDeclaredName_fromAPI
      (Sample.serving (JList [Sample.cost; Sample.risk])) Sample.server
      "proj1" "commit1" "cost" initial in
  r.1 = Ret (JList []) ∧ last (trace r.2) = Some (PrintError TypeError).
Proof. vm_compute. done. Qed.

(** ** Small helpers *)

(** X21. [find_element_by_id] returns the first element with the id: on a
    list of records that all carry an [@id], the result is an element of
    the list whose id is [target_id] and that no element with that id
    precedes, or [None] when no element of the list has the id. *)
Theorem find_element_by_id_first aggregated_results target_id s :
  Forall (λ e, is_Some (field e "@id")) aggregated_results →
  ∃ r,
    Mbse4u.find_element_by_id aggregated_results target_id s = (Ret r, s)
    ∧ ((r = JNull
        ∧ Forall (λ e, field e "@id" ≠ Some (JStr target_id)) aggregated_results)
       ∨ ∃ before after,
           aggregated_results = (before ++ r :: after)%list
           ∧ field r "@id" = Some (JStr target_id)
           ∧ Forall (λ e, field e "@id" ≠ Some (JStr target_id)) before).
Proof.
  unfold Mbse4u.find_element_by_id.
  induction 1 as [|e l [id Hid] _ (r & Hrun & IH)].
  - exists JNull. split; [done|]. left. by split.
  - cbn [for_return]. rewrite (py_item_field _ _ _ Hid), !bind_ret_l.
    destruct (py_eq id (JStr target_id)) eqn:Heq.
    + exists e. rewrite bind_ret_l. split; [done|]. right.
      exists [], l. apply py_eq_str_inv in Heq as ->. by split_and!.
    + assert (field e "@id" ≠ Some (JStr target_id)) as Hne.
      { rewrite Hid. intros [= ->]. by rewrite py_eq_str, bool_decide_eq_true_2 in Heq. }
      exists r. split; [exact Hrun|].
      destruct IH as [[-> Hall]|(before & after & -> & Hr & Hbefore)].
      * left. split; [done|]. by constructor.
      * right. exists (e :: before), after. split_and!; [done..|]. by constructor.
Qed.

Lemma find_element_by_id_first_witness :
  ∃ r,
    Mbse4u.find_element_by_id Sample.cycle "B" initial = (Ret r, initial)
    ∧ ((r = JNull
        ∧ Forall (λ e, field e "@id" ≠ Some (JStr "B")) Sample.cycle)
       ∨ ∃ before after,
           Sample.cycle = (before ++ r :: after)%list
           ∧ field r "@id" = Some (JStr "B")
           ∧ Forall (λ e, field e "@id" ≠ Some (JStr "B")) before).
Proof.
  apply (find_element_by_id_first Sample.cycle "B" initial).
  repeat constructor; by eexists.
Defined.

Lemma runs_documentation_loop K w C ids docs : ∀ acc,
  (∃ s, knows K s) →
  Forall2 (λ i e, K C (KStr i) e ∧ is_dict e = true) ids docs →
  runs K
    (for_fold (ref <$> ids) acc (λ bodies ref,
       let* id := py_item ref "@id" in
       let* doc := Mbse4u.get_element_fromAPI w C id in
       if truthy doc then
         let* body := py_get doc "body" in
         if truthy body then ret (bodies ++ [body])%list else ret bodies
       else ret bodies))
    [] (Ret (acc ++ filter (λ b, truthy b = true) (body_of <$> docs))%list).
Proof.
  intros acc Hs Hall. revert acc.
  induction Hall as [|i e ids docs [HK He] _ IH]; intros acc.
  - rewrite app_nil_r. apply runs_ret.
  - cbn [fmap list_fmap for_fold]. rewrite py_item_ref, bind_ret_l.
    eapply (runs_bind K _ _
              (if truthy (body_of e) then acc ++ [body_of e] else acc)%list [] []);
      [| |done].
    + apply (runs_bind_get K w C _ (KStr i) e); [done..|].
      rewrite (runs_truthy K C (KStr i) e HK Hs).
      rewrite (py_get_dict e "body"); [|done]. rewrite bind_ret_l.
      change (default JNull (field e "body")) with (body_of e).
      destruct (truthy (body_of e)); apply runs_ret.
    + rewrite filter_cons. destruct (truthy (body_of e)) eqn:Hb.
      * rewrite decide_True; [|done].
        replace (acc ++ body_of e
                   :: filter (λ b, truthy b = true) (list_fmap _ _ body_of docs))%list
          with ((acc ++ [body_of e])
                  ++ filter (λ b, truthy b = true) (body_of <$> docs))%list
          by (by rewrite <-app_assoc).
        apply IH.
      * rewrite decide_False; [|done]. apply IH.
Qed.

(** X22. [get_element_documentation] returns a list, not a text: for an
    element of the caches whose [documentation] references resolve from the
    caches, the result is the list of the non-empty bodies of the referred
    elements, in the order of the references; no request is sent. *)
Theorem element_documentation_bodies w server_url project_id commit_id x k
    element ids docs s :
  let C := get_commit_url server_url project_id commit_id in
  to_key x = Some k →
  available mbse4u s C k element →
  field element "documentation" = Some (JList (ref <$> ids)) →
  Forall2 (λ i e, available mbse4u s C (KStr i) e ∧ is_dict e = true) ids docs →
  ∃ s',
    Mbse4u.get_element_documentation w server_url project_id commit_id x s
    = (Ret (filter (λ b, truthy b = true) (body_of <$> docs)), s')
    ∧ trace s' = trace s.
Proof.
  intros C Hk Hav Hfield Hall.
  set (K := λ C' k e, available mbse4u s C' k e).
  assert (knows K s) as Hs by (by intros ???).
  assert (runs K (Mbse4u.get_element_documentation w server_url project_id
                    commit_id x) []
            (Ret (filter (λ b, truthy b = true) (body_of <$> docs)))) as Hruns.
  { unfold Mbse4u.get_element_documentation. fold C.
    apply (runs_bind_get K w C x k element); [done..|].
    rewrite (available_truthy _ _ _ _ _ Hav).
    rewrite (py_get_field _ _ _ Hfield), bind_ret_l.
    destruct Hall as [|i e ids docs Hie Hall]; [apply runs_ret|].
    cbn [truthy fmap list_fmap py_iter]. rewrite bind_ret_l.
    apply (runs_documentation_loop K w C (i :: ids) (e :: docs) []);
      [by eauto|by constructor]. }
  destruct (Hruns s Hs) as (s' & Hrun & _ & Ht).
  exists s'. split; [done|]. by rewrite Ht, app_nil_r.
Qed.

Lemma element_documentation_bodies_witness :
  ∃ s',
    Mbse4u.get_element_documentation Sample.not_found Sample.server "proj1"
      "commit1" (JStr "R2") (Sample.warmed Fixture.model)
    = (Ret [JStr "The first paragraph."; JStr "The last paragraph."], s')
    ∧ trace s' = trace (Sample.warmed Fixture.model).
Proof.
  apply (element_documentation_bodies Sample.not_found Sample.server "proj1"
           "commit1" (JStr "R2") (KStr "R2") Fixture.derived
           ["doc1"; "doc2"; "doc3"]
           [Fixture.doc1; Fixture.doc2; Fixture.doc3]
           (Sample.warmed Fixture.model)).
  - reflexivity.
  - vm_compute. auto.
  - reflexivity.
  - repeat constructor; vm_compute; auto.
Defined.

Lemma ids_of_refs_refs ids s :
  Mbse4u.ids_of_refs (JList (ref <$> ids)) s = (Ret (JStr <$> ids), s).
Proof.
  unfold Mbse4u.ids_of_refs. cbn [py_iter]. rewrite bind_ret_l.
  by rewrite feature_ids_of_refs.
Qed.

(** X23. [get_owned_usages] returns the usages of the owner followed by
    those of its definition: for an owner whose [feature_name] list and
    first [definition] resolve from the caches, the result is the list of
    the owner's own usages, in their order, followed by the usages in the
    [feature_name] list of the definition; a usage that both lists refer to
    is in the result twice.  No request is sent. *)
Theorem owned_usages_then_definition w server_url project_id commit_id owner
    feature_name ids usages d others definition def_ids def_usages s :
  let C := get_commit_url server_url project_id commit_id in
  truthy owner = true →
  field owner feature_name = Some (JList (ref <$> ids)) →
  Forall2 (λ i e, available mbse4u s C (KStr i) e ∧ is_dict e = true) ids usages →
  field owner "definition" = Some (JList (ref d :: others)) →
  available mbse4u s C (KStr d) definition →
  field definition feature_name = Some (JList (ref <$> def_ids)) →
  Forall2 (λ i e, available mbse4u s C (KStr i) e ∧ is_dict e = true)
    def_ids def_usages →
  ∃ s',
    Mbse4u.get_owned_usages w server_url project_id commit_id owner
      feature_name s
    = (Ret (Some (usages ++ def_usages)%list), s')
    ∧ trace s' = trace s.
Proof.
  intros C Htruthy Hfield Hall Hdef Hav Hdfield Hdall.
  set (K := λ C' k e, available mbse4u s C' k e).
  assert (knows K s) as Hs by (by intros ???).
  assert (is_dict owner = true) as Hown by (by eapply field_is_dict).
  assert (is_dict definition = true) as Hddict by (by eapply field_is_dict).
  assert (runs K (Mbse4u.get_owned_usages w server_url project_id commit_id
                    owner feature_name) []
            (Ret (Some (usages ++ def_usages)%list))) as Hruns.
  { unfold Mbse4u.get_owned_usages. fold C.
    rewrite (py_get_dict owner "name"); [|done]. rewrite bind_ret_l.
    rewrite Htruthy. cbn [negb].
    rewrite (py_get_default_field _ _ _ _ Hfield), bind_ret_l.
    eapply runs_ext.
    { intros s0. unfold bind at 1. by rewrite ids_of_refs_refs. }
    eapply (runs_bind K _ _ ([] ++ usages)%list [] []); [| |done].
    { by apply runs_get_elements. }
    cbn [app]. rewrite (py_get_field _ _ _ Hdef), bind_ret_l.
    cbn [truthy py_len py_first]. rewrite !bind_ret_l.
    rewrite py_item_ref, bind_ret_l.
    apply (runs_bind_get K w C _ (KStr d) definition); [done..|].
    rewrite (py_get_dict definition "name"); [|done]. rewrite bind_ret_l.
    rewrite (py_get_default_field _ _ _ _ Hdfield), bind_ret_l.
    eapply runs_ext.
    { intros s0. unfold bind at 1. by rewrite ids_of_refs_refs. }
    eapply (runs_bind K _ _ ([] ++ def_usages)%list [] []); [| |done].
    { by apply runs_get_elements. }
    apply runs_ret. }
  destruct (Hruns s Hs) as (s' & Hrun & _ & Ht).
  exists s'. split; [done|]. by rewrite Ht, app_nil_r.
Qed.

Lemma owned_usages_then_definition_witness :
  ∃ s',
    Mbse4u.get_owned_usages Sample.not_found Sample.server "proj1" "commit1"
      Fixture.derived "ownedFeature" (Sample.warmed Fixture.model)
    = (Ret (Some [Sample.risk; Sample.cost]), s')
    ∧ trace s' = trace (Sample.warmed Fixture.model).
Proof.
  apply (owned_usages_then_definition Sample.not_found Sample.server "proj1"
           "commit1" Fixture.derived "ownedFeature" ["risk"] [Sample.risk]
           "R" [] Sample.requirement ["cost"] [Sample.cost]
           (Sample.warmed Fixture.model)).
  - reflexivity.
  - reflexivity.
  - repeat constructor; vm_compute; auto.
  - reflexivity.
  - vm_compute. auto.
  - reflexivity.
  - repeat constructor; vm_compute; auto.
Defined.

(** X24. [get_element_definition] follows the first definition only: for
    a usage whose first [definition] reference resolves from the caches the
    result is that definition, whatever the further references are, and no
    request is sent; for a usage without a definition (no field, or an
    empty list) the result is [None] and nothing is looked up. *)
Theorem element_definition_is_first w server_url project_id commit_id element s :
  let C := get_commit_url server_url project_id commit_id in
  let run :=
    Mbse4u.get_element_definition w server_url project_id commit_id element s in
  is_dict element = true →
  match field element "definition" with
  | Some (JList (r :: _)) =>
      ∀ d definition, r = ref d → available mbse4u s C (KStr d) definition →
        ∃ s', run = (Ret definition, s') ∧ trace s' = trace s
  | Some (JList []) | None => run = (Ret JNull, s)
  | Some _ => True
  end.
Proof.
  intros C run Hdict. subst run. unfold Mbse4u.get_element_definition. fold C.
  rewrite (py_get_dict element "definition"); [|done]. rewrite bind_ret_l.
  destruct (field element "definition") as [[| | | |[|r rest]|]|]; try done.
  intros d definition -> Hav. cbn [default from_option id truthy py_first].
  rewrite bind_ret_l, py_item_ref, bind_ret_l.
  set (K := λ C' k e, available mbse4u s C' k e).
  assert (knows K s) as Hs by (by intros ???).
  assert (runs K
            (let* definition := Mbse4u.get_element_fromAPI w C (JStr d) in
             if truthy definition then ret definition else ret JNull)
            [] (Ret definition)) as Hruns.
  { apply (runs_bind_get K w C _ (KStr d) definition); [done..|].
    rewrite (available_truthy _ _ _ _ _ Hav). apply runs_ret. }
  destruct (Hruns s Hs) as (s' & Hrun & _ & Ht).
  exists s'. split; [done|]. by rewrite Ht, app_nil_r.
Qed.

Lemma element_definition_is_first_witness :
  ∃ s',
    Mbse4u.get_element_definition Sample.not_found Sample.server "proj1"
      "commit1" Fixture.derived (Sample.warmed Fixture.model)
    = (Ret Sample.requirement, s')
    ∧ trace s' = trace (Sample.warmed Fixture.model).
Proof.
  apply (element_definition_is_first Sample.not_found Sample.server "proj1"
           "commit1" Fixture.derived (Sample.warmed Fixture.model) eq_refl
           "R" Sample.requirement eq_refl).
  vm_compute. auto.
Defined.

(** X25. [getValueFromOperatorExpressionUnit] does not guard its loop: for
    an operator expression without an [ownedRelationship] field the
    iteration is over [None] and the call raises [TypeError] at once,
    where the other helpers read the field with the default [[]]. *)
Theorem operator_expression_without_relationships_raises w query_url opExp s :
  is_dict opExp = true → field opExp "ownedRelationship" = None →
  Mbse4u.getValueFromOperatorExpressionUnit w query_url opExp s
  = (Raise TypeError, s).
Proof.
  intros Hdict Hnone. unfold Mbse4u.getValueFromOperatorExpressionUnit.
  rewrite (py_get_dict opExp "ownedRelationship"); [|done].
  by rewrite Hnone.
Qed.

Lemma operator_expression_without_relationships_raises_witness :
  Mbse4u.getValueFromOperatorExpressionUnit Sample.not_found Sample.commit_url
    Sample.forty_two initial
  = (Raise TypeError, initial).
Proof.
  apply (operator_expression_without_relationships_raises Sample.not_found
           Sample.commit_url Sample.forty_two initial); reflexivity.
Defined.

(** ** Caches and bulk loads together *)



(** X26. The purpose of the bulk load: after [load_model_cache] has stored
    a batch, every non-empty element of the batch is resolved by
    [get_element_fromAPI] from the cache, without a request, under the id
    it carries; for an id that occurs more than once in the batch, the last
    element with that id is the one returned.  It holds of both modules
    (of the main module when its [lru_cache] has no result for that id
    yet). *)
Theorem warm_then_resolve m w w' server_url project_id commit_id page_size
    txt batch i e s :
  let C := get_commit_url server_url project_id commit_id in
  http_get w (elements_url_of m server_url project_id commit_id page_size)
    = Response 200 txt (Some (JList batch)) →
  Forall storable batch →
  batch_entry batch (KStr i) = Some e → truthy e = true →
  lru_find (C, KStr i) (element_lru s) = None →
  ∃ n s1 s2,
    load_model_cache_of m w server_url project_id commit_id page_size s
      = (Ret n, s1)
    ∧ get_element_fromAPI_of m w' C (JStr i) s1 = (Ret e, s2)
    ∧ trace s2 = trace s1.
Proof.
  intros C Hget Hst Hentry He Hlru.
  rewrite load_model_cache_of_eq.
  destruct (load_model_cache_from_spec w C _ txt batch s Hget Hst)
    as (n & s1 & Hload & Hcache & _ & Hl).
  assert (available m s1 C (KStr i) e) as Hav.
  { split.
    - unfold cache_hit. by rewrite Hcache, Hentry, He.
    - destruct m; [done|]. left. simpl. by rewrite Hl. }
  destruct (get_element_available m w' C (JStr i) (KStr i) e s1 eq_refl Hav)
    as (s2 & Hrun & Ht & _).
  by exists n, s1, s2.
Qed.

Lemma warm_then_resolve_witness :
  ∃ n s1 s2,
    Mbse4u.load_model_cache (Sample.serving (JList Sample.cycle)) Sample.server
      "proj1" "commit1" 256 initial = (Ret n, s1)
    ∧ Mbse4u.get_element_fromAPI Sample.not_found Sample.commit_url (JStr "B")
        s1 = (Ret Sample.part_B, s2)
    ∧ trace s2 = trace s1.
Proof.
  apply (warm_then_resolve mbse4u (Sample.serving (JList Sample.cycle))
           Sample.not_found Sample.server "proj1" "commit1" 256 ""
           Sample.cycle "B" Sample.part_B initial).
  - reflexivity.
  - repeat constructor; by eexists.
  - reflexivity.
  - reflexivity.
  - reflexivity.
Defined.




(** ** Queries by kind *)

Lemma query_kind_returns w server_url project_id commit_id kind s :
  ∃ v s' evs,
    query_kind w server_url project_id commit_id kind s = (Ret v, s')
    ∧ kind_lru s' = kind_lru s
    ∧ trace s'
      = (trace s
           ++ SessionPost (query_results_url server_url project_id commit_id)
                (primitive_constraint "@type" kind) :: evs)%list.
Proof.
  unfold query_kind, try_except, session_post, emit, bind.
  destruct (http_post w _ _) as [|code txt [j|]]; unfold ret at 1;
    cbn [status_code]; try destruct (Z.eqb code 200);
    unfold response_json, raise, ret;
    eexists _, _, _; (split_and!; [reflexivity|reflexivity|]);
    cbn [trace with_trace]; rewrite <-?app_assoc; reflexivity.
Qed.

(** X28. Queries by kind are memoized by the sibling module and by it
    only.  In the sibling module a query by kind never raises, and a second
    query for the same server url, project, commit and kind returns the
    result of the first one without a request, whatever the server would
    answer by then, also when the first result is the empty list that
    stands for a failure.  In the main module, whose decorator is commented
    out, every query by kind sends its request. *)
Theorem kind_query_memoized_by_sibling_only w1 w2 server_url project_id
    commit_id kind s :
  (∃ v s1 s2,
     Api.get_elements_byKind_fromAPI w1 server_url project_id commit_id kind s
       = (Ret v, s1)
     ∧ Api.get_elements_byKind_fromAPI w2 server_url project_id commit_id kind
         s1 = (Ret v, s2)
     ∧ trace s2 = trace s1)
  ∧ (∃ v s1 evs,
       Mbse4u.get_elements_byKind_fromAPI w1 server_url project_id commit_id
         (JStr kind) s = (Ret v, s1)
       ∧ trace s1
         = (trace s
              ++ SessionPost (query_results_url server_url project_id commit_id)
                   (primitive_constraint "@type" kind) :: evs)%list).
Proof.
  split.
  - unfold Api.get_elements_byKind_fromAPI, lru_cache.
    unfold bind at 1, get_state at 1.
    assert (∀ v s0 (store : list (string * string * string * string * json)),
      (let* s := get_state in
       match lru_find (server_url, project_id, commit_id, kind) (kind_lru s) with
       | Some result =>
           set_kind_lru
             ((server_url, project_id, commit_id, kind, result)
                :: lru_drop (server_url, project_id, commit_id, kind) (kind_lru s)) ;;
           ret result
       | None =>
           let* result := query_kind w2 server_url project_id commit_id kind in
           let* s' := get_state in
           set_kind_lru
             (take 128 ((server_url, project_id, commit_id, kind, result)
                          :: kind_lru s')) ;;
           ret result
       end) (with_kind_lru s0
               ((server_url, project_id, commit_id, kind, v) :: store))
      = (Ret v,
         with_kind_lru s0
           ((server_url, project_id, commit_id, kind, v)
              :: lru_drop (server_url, project_id, commit_id, kind)
                   ((server_url, project_id, commit_id, kind, v) :: store))))
      as Hagain.
    { intros v s0 store. unfold bind at 1, get_state at 1.
      cbn [with_kind_lru kind_lru].
      by rewrite lru_find_cons, decide_True. }
    destruct (lru_find _ (kind_lru s)) as [v|] eqn:Hfind.
    + cbv [bind set_kind_lru ret]. eexists v, _, _. split; [done|].
      split; [apply Hagain|done].
    + unfold bind at 1.
      destruct (query_kind_returns w1 server_url project_id commit_id kind s)
        as (v & s0 & evs & -> & _ & _).
      cbv [bind get_state set_kind_lru ret]. eexists v, _, _. split; [done|].
      change (take 128 ((server_url, project_id, commit_id, kind, v) :: kind_lru s0))
        with ((server_url, project_id, commit_id, kind, v) :: take 127 (kind_lru s0)).
      split; [apply Hagain|done].
  - unfold Mbse4u.get_elements_byKind_fromAPI. cbn [py_str].
    destruct (query_kind_returns w1 server_url project_id commit_id kind s)
      as (v & s1 & evs & Hrun & _ & Ht).
    by exists v, s1, evs.
Qed.

(** ** Features that are not there *)

Lemma runs_inherited_none K w C feature_kind feature_name ids es :
  Forall2 (λ i e, K C (KStr i) e ∧ is_dict e = true
                  ∧ is_wanted feature_kind feature_name e = false) ids es →
  runs K
    (for_return (ref <$> ids) (λ inherited_feature_id,
       let* id := py_get inherited_feature_id "@id" in
       let* inherited_feature := Mbse4u.get_element_fromAPI w C id in
       let* hit := Mbse4u.is_feature feature_kind feature_name inherited_feature in
       ret (if hit : bool then Some inherited_feature else None)))
    [] (Ret None).
Proof.
  induction 1 as [|i e ids es (HK & He & Hno) _ IH].
  - apply runs_ret.
  - cbn [fmap list_fmap for_return].
    change (py_get (ref i) "@id") with (@ret json (JStr i)).
    rewrite bind_ret_l. apply runs_bind_assoc.
    apply (runs_bind_get K w C _ (KStr i) e); [done..|].
    rewrite is_feature_dict; [|done].
    rewrite bind_ret_l, Hno, bind_ret_l. apply IH.
Qed.

(** X29. A feature that is neither owned nor inherited: for an owner that
    has an [inheritedFeature] list (it may be empty) and whose direct and
    inherited features, all resolvable from the caches, do not contain the
    requested kind and name, [get_feature] returns [None] and so does
    [get_feature_value]; no request is sent. *)
Theorem get_feature_value_absent w server_url project_id commit_id owner
    feature_name feature_kind ids es inherited_ids inherited s :
  let C := get_commit_url server_url project_id commit_id in
  is_dict owner = true →
  direct_features owner feature_kind = JList (ref <$> ids) →
  Forall2 (λ i e, available mbse4u s C (KStr i) e ∧ is_dict e = true
                  ∧ is_wanted feature_kind feature_name e = false) ids es →
  field owner "inheritedFeature" = Some (JList (ref <$> inherited_ids)) →
  Forall2 (λ i e, available mbse4u s C (KStr i) e ∧ is_dict e = true
                  ∧ is_wanted feature_kind feature_name e = false)
    inherited_ids inherited →
  (∃ s', Mbse4u.get_feature w server_url project_id commit_id owner
           feature_name feature_kind s = (Ret JNull, s')
         ∧ trace s' = trace s)
  ∧ (∃ s', Mbse4u.get_feature_value w server_url project_id commit_id owner
             feature_name feature_kind s = (Ret JNull, s')
           ∧ trace s' = trace s).
Proof.
  intros C Hown Hdirect Hall Hinh Hinherited.
  set (K := λ C' k e, available mbse4u s C' k e).
  assert (knows K s) as Hs by (by intros ???).
  assert (runs K (Mbse4u.get_feature w server_url project_id commit_id owner
                    feature_name feature_kind) [] (Ret JNull)) as Hruns.
  { unfold Mbse4u.get_feature. fold C.
    rewrite (py_get_dict owner "@id"); [|done]. rewrite bind_ret_l.
    rewrite direct_features_get, Hdirect; [|done].
    rewrite bind_ret_l. cbn [py_iter]. rewrite bind_ret_l.
    eapply runs_ext.
    { intros s0. unfold bind at 1. by rewrite feature_ids_of_refs. }
    cbn [app].
    eapply (runs_bind K _ _ ([] ++ es)%list [] []); [| |done].
    { apply runs_get_elements.
      clear -Hall. induction Hall as [|i e ids es (? & ? & ?) _ IH];
        by constructor. }
    cbn [app]. eapply runs_ext.
    { intros s0. unfold bind at 1. rewrite no_wanted_feature; [done|].
      clear -Hall. induction Hall as [|i e ids es (? & ? & ?) _ IH];
        by constructor. }
    rewrite (py_get_field _ _ _ Hinh), bind_ret_l.
    cbn [py_len py_iter]. rewrite !bind_ret_l.
    eapply (runs_bind K _ _ None [] []); [| |done].
    { exact (runs_inherited_none K w C feature_kind feature_name inherited_ids
               inherited Hinherited). }
    apply runs_ret. }
  split.
  - destruct (Hruns s Hs) as (s' & Hrun & _ & Ht).
    exists s'. split; [done|]. by rewrite Ht, app_nil_r.
  - assert (runs K (Mbse4u.get_feature_value w server_url project_id commit_id
                      owner feature_name feature_kind) [] (Ret JNull))
      as Hvalue.
    { unfold Mbse4u.get_feature_value.
      rewrite (py_get_dict owner "@id"); [|done]. rewrite bind_ret_l.
      eapply (runs_bind K _ _ JNull [] []); [exact Hruns| |done].
      apply runs_ret. }
    destruct (Hvalue s Hs) as (s' & Hrun & _ & Ht).
    exists s'. split; [done|]. by rewrite Ht, app_nil_r.
Qed.

Lemma get_feature_value_absent_witness :
  (∃ s', Mbse4u.get_feature Sample.not_found Sample.server "proj1" "commit1"
           Fixture.settled "weight" "AttributeUsage"
           (Sample.warmed Sample.requirements) = (Ret JNull, s')
         ∧ trace s' = trace (Sample.warmed Sample.requirements))
  ∧ (∃ s', Mbse4u.get_feature_value Sample.not_found Sample.server "proj1"
             "commit1" Fixture.settled "weight" "AttributeUsage"
             (Sample.warmed Sample.requirements) = (Ret JNull, s')
           ∧ trace s' = trace (Sample.warmed Sample.requirements)).
Proof.
  apply (get_feature_value_absent Sample.not_found Sample.server "proj1"
           "commit1" Fixture.settled "weight" "AttributeUsage" ["risk"]
           [Sample.risk] ["cost-typing"; "cost"]
           [Sample.cost_typing; Sample.cost]
           (Sample.warmed Sample.requirements)).
  - reflexivity.
  - reflexivity.
  - repeat constructor; vm_compute; auto.
  - reflexivity.
  - repeat constructor; vm_compute; auto.
Defined.

(** ** Cache monotonicity and bulk loads *)












